(** * P2P escrow and constant-product pool: a shallow embedding

    The Solidity contracts of the repository ([Escrow], [EscrowWithExpiry],
    [MockPair], [MockFactory], [MockRouter]) are embedded as state-passing
    functions over an error monad, over a ledger of the tokens they call
    that carries the pause of [SWATToken].  A call that reverts returns
    [Err] and carries no state: the caller keeps the state it had before the
    call. *)

From Stdlib Require Import ZArith Lia String List Bool.
From stdpp Require Import base option gmap.
Import ListNotations.

Local Open Scope Z_scope.

(** ** Machine integers and addresses *)

Abbreviation address := Z.
Abbreviation uint256 := Z.

Definition MAX_UINT256 : Z := 2 ^ 256 - 1.
Definition MAX_UINT112 : Z := 2 ^ 112 - 1.

Arguments MAX_UINT256 : simpl never.
Arguments MAX_UINT112 : simpl never.

(** ** Failure: [require] strings, compiler panics, library custom errors *)

Inductive Error : Type :=
| Revert (reason : string)
| Panic (code : Z)
| Custom (name : string).

Arguments Revert reason%_string.
Arguments Custom name%_string.

Inductive Result (A : Type) : Type :=
| Ok (a : A)
| Err (e : Error).

Arguments Ok {A} a.
Arguments Err {A} e.

Definition isOk {A} (r : Result A) : bool :=
  match r with Ok _ => true | Err _ => false end.

(** Arithmetic overflow or underflow: Panic(0x11); division by zero:
    Panic(0x12); a loop that exhausts the gas of the call: out of gas. *)
Definition ARITHMETIC : Error := Panic 17.
Definition DIV_BY_ZERO : Error := Panic 18.
Definition OUT_OF_GAS : Error := Custom "OutOfGas".

(** ** The contract monad: state passing with revert *)

Definition M (S A : Type) : Type := S -> Result (A * S).

Definition ret {S A} (a : A) : M S A := fun s => Ok (a, s).

Definition bind {S A B} (m : M S A) (k : A -> M S B) : M S B :=
  fun s => match m s with
           | Ok (a, s') => k a s'
           | Err e => Err e
           end.

Definition throw {S A} (e : Error) : M S A := fun _ => Err e.

Definition gets {S A} (f : S -> A) : M S A := fun s => Ok (f s, s).

Definition modify {S} (f : S -> S) : M S unit := fun s => Ok (tt, f s).

Definition require {S} (b : bool) (reason : string) : M S unit :=
  fun s => if b then Ok (tt, s) else Err (Revert reason).

Arguments require {S} b reason%_string.

Definition when {S} (b : bool) (m : M S unit) : M S unit :=
  if b then m else ret tt.

Notation "'let*' x ':=' m 'in' k" := (bind m (fun x => k))
  (at level 10, x name, m at level 100, k at level 200).
Notation "'let*' ' p ':=' m 'in' k" :=
  (bind m (fun x => match x with p => k end))
  (at level 10, p strict pattern, m at level 100, k at level 200).
Notation "m ';;' k" := (bind m (fun _ => k))
  (at level 100, k at level 200, right associativity).

(** Checked arithmetic of Solidity 0.8 on uint256. *)
Definition add {S} (a b : Z) : M S Z :=
  if a + b <=? MAX_UINT256 then ret (a + b) else throw ARITHMETIC.

Definition sub {S} (a b : Z) : M S Z :=
  if b <=? a then ret (a - b) else throw ARITHMETIC.

Definition mul {S} (a b : Z) : M S Z :=
  if a * b <=? MAX_UINT256 then ret (a * b) else throw ARITHMETIC.

Definition div {S} (a b : Z) : M S Z :=
  if b =? 0 then throw DIV_BY_ZERO else ret (a / b).

(** What a transaction leaves behind: the new state on success, the old one
    on revert. *)
Definition commit {S A} (m : M S A) (s : S) : S :=
  match m s with
  | Ok (_, s') => s'
  | Err _ => s
  end.

Definition outcome {S A} (m : M S A) (s : S) : Result A :=
  match m s with
  | Ok (a, _) => Ok a
  | Err e => Err e
  end.

(** ** The token ledger *)

Module Ledger.

(** Modelled from the spec: the Ledger of section 6, one balance table per
    asset, refined with the allowance table that [safeTransferFrom] consumes.
    The token contracts are OpenZeppelin ERC-20 tokens; that library is
    imported by the repository and is not part of its sources.  A balance
    credit cannot overflow because a token's balances sum to its total
    supply.  SWATToken.sol, the repository's own token, is Pausable and
    overrides [_update] with [whenNotPaused]: [paused] holds the pause flag
    of each token, which a token that cannot be paused never sets. *)
Record t : Type := mk {
  balances : gmap (address * address) Z;
  allowances : gmap (address * address * address) Z;
  paused : gmap address bool
}.

Definition balanceOf (token account : address) (l : t) : Z :=
  default 0 (balances l !! (token, account)).

Definition allowance (token owner spender : address) (l : t) : Z :=
  default 0 (allowances l !! (token, owner, spender)).

Definition isPaused (token : address) (l : t) : bool :=
  default false (paused l !! token).

Definition set_balance (token account : address) (v : Z) (l : t) : t :=
  mk (<[(token, account) := v]> (balances l)) (allowances l) (paused l).

Definition set_allowance (token owner spender : address) (v : Z) (l : t) : t :=
  mk (balances l) (<[(token, owner, spender) := v]> (allowances l)) (paused l).

Definition set_paused (token : address) (v : bool) (l : t) : t :=
  mk (balances l) (allowances l) (<[token := v]> (paused l)).

(** ERC20._update for two non-zero parties, under SWATToken's
    [whenNotPaused]. *)
Definition _update (token from to value : Z) : M t unit :=
  let* p := gets (isPaused token) in
  if p : bool then throw (Custom "EnforcedPause")
  else
    let* fromBalance := gets (balanceOf token from) in
    if fromBalance <? value then throw (Custom "ERC20InsufficientBalance")
    else
      modify (set_balance token from (fromBalance - value));;
      let* toBalance := gets (balanceOf token to) in
      modify (set_balance token to (toBalance + value)).

(** ERC20._transfer *)
Definition _transfer (token from to value : Z) : M t unit :=
  if from =? 0 then throw (Custom "ERC20InvalidSender")
  else if to =? 0 then throw (Custom "ERC20InvalidReceiver")
  else _update token from to value.

(** ERC20._spendAllowance *)
Definition _spendAllowance (token owner spender value : Z) : M t unit :=
  let* currentAllowance := gets (allowance token owner spender) in
  if currentAllowance <? MAX_UINT256 then
    if currentAllowance <? value then throw (Custom "ERC20InsufficientAllowance")
    else if owner =? 0 then throw (Custom "ERC20InvalidApprover")
    else if spender =? 0 then throw (Custom "ERC20InvalidSpender")
    else modify (set_allowance token owner spender (currentAllowance - value))
  else ret tt.

(** token.transfer(to, value) called by [caller] *)
Definition transfer (token caller to value : Z) : M t unit :=
  _transfer token caller to value.

(** token.transferFrom(from, to, value) called by [caller] *)
Definition transferFrom (token caller from to value : Z) : M t unit :=
  _spendAllowance token from caller value;;
  _transfer token from to value.

(** [moves token from to value l l']: between [l] and [l'] exactly [value]
    units of [token] went from [from] to [to]; every other balance is the
    same. *)
Definition credit (token to value tok a : Z) : Z :=
  if (tok =? token) && (a =? to) then value else 0.

Definition moves (token from to value : Z) (l l' : t) : Prop :=
  value <= balanceOf token from l /\
  forall tok a,
    balanceOf tok a l' =
    balanceOf tok a l - credit token from value tok a + credit token to value tok a.

End Ledger.

(** The environment of one external call. *)
Record Env : Type := mkEnv {
  this : address;
  msg_sender : address;
  block_timestamp : Z
}.

(** ** EscrowWithExpiry.sol *)

Module EscrowWithExpiry.

Definition DEFAULT_EXPIRY_TIME : Z := 15 * 60.
Definition MAX_OFFERS_PER_DAY : Z := 50.
Definition OFFER_COOLDOWN : Z := 10.
Definition ONE_DAY : Z := 86400.
Definition ONE_MINUTE : Z := 60.
Definition TWENTY_FOUR_HOURS : Z := 24 * 3600.

Record Offer : Type := mkOffer {
  id : Z;
  seller : address;
  buyer : address;
  tokenAddress : address;
  amount : Z;
  priceInBUSD : Z;
  active : bool;
  createdAt : Z;
  expiresAt : Z
}.

(** The value a storage slot that was never written decodes to. *)
Definition zeroOffer : Offer := mkOffer 0 0 0 0 0 0 false 0 0.

Definition deactivate (o : Offer) : Offer :=
  mkOffer (id o) (seller o) (buyer o) (tokenAddress o) (amount o)
          (priceInBUSD o) false (createdAt o) (expiresAt o).

(** Contract storage, the inherited Ownable, Pausable and ReentrancyGuard
    slots included, together with the token ledger the contract calls. *)
Record State : Type := mkState {
  _offerIdCounter : Z;
  _offers : gmap Z Offer;
  offerExpiryTime : Z;
  _lastOfferTime : gmap Z Z;
  _dailyOfferCount : gmap Z Z;
  _paused : bool;
  _owner : address;
  _entered : bool;
  ledger : Ledger.t
}.

Definition set_offerIdCounter (v : Z) (s : State) : State :=
  mkState v (_offers s) (offerExpiryTime s) (_lastOfferTime s)
          (_dailyOfferCount s) (_paused s) (_owner s) (_entered s) (ledger s).
Definition set_offer (i : Z) (o : Offer) (s : State) : State :=
  mkState (_offerIdCounter s) (<[i := o]> (_offers s)) (offerExpiryTime s)
          (_lastOfferTime s) (_dailyOfferCount s) (_paused s) (_owner s)
          (_entered s) (ledger s).
Definition set_offerExpiryTime (v : Z) (s : State) : State :=
  mkState (_offerIdCounter s) (_offers s) v (_lastOfferTime s)
          (_dailyOfferCount s) (_paused s) (_owner s) (_entered s) (ledger s).
Definition set_lastOfferTime (a : address) (v : Z) (s : State) : State :=
  mkState (_offerIdCounter s) (_offers s) (offerExpiryTime s)
          (<[a := v]> (_lastOfferTime s)) (_dailyOfferCount s) (_paused s)
          (_owner s) (_entered s) (ledger s).
Definition set_dailyOfferCount (a : address) (v : Z) (s : State) : State :=
  mkState (_offerIdCounter s) (_offers s) (offerExpiryTime s)
          (_lastOfferTime s) (<[a := v]> (_dailyOfferCount s)) (_paused s)
          (_owner s) (_entered s) (ledger s).
Definition set_paused (v : bool) (s : State) : State :=
  mkState (_offerIdCounter s) (_offers s) (offerExpiryTime s)
          (_lastOfferTime s) (_dailyOfferCount s) v (_owner s) (_entered s)
          (ledger s).
Definition set_owner (v : address) (s : State) : State :=
  mkState (_offerIdCounter s) (_offers s) (offerExpiryTime s)
          (_lastOfferTime s) (_dailyOfferCount s) (_paused s) v (_entered s)
          (ledger s).
Definition set_entered (v : bool) (s : State) : State :=
  mkState (_offerIdCounter s) (_offers s) (offerExpiryTime s)
          (_lastOfferTime s) (_dailyOfferCount s) (_paused s) (_owner s) v
          (ledger s).
Definition set_ledger (v : Ledger.t) (s : State) : State :=
  mkState (_offerIdCounter s) (_offers s) (offerExpiryTime s)
          (_lastOfferTime s) (_dailyOfferCount s) (_paused s) (_owner s)
          (_entered s) v.

(** Reads of Solidity mappings: an absent key reads as zero. *)
Definition offerAt (i : Z) (s : State) : Offer :=
  default zeroOffer (_offers s !! i).
Definition lastOfferTime (a : address) (s : State) : Z :=
  default 0 (_lastOfferTime s !! a).
Definition dailyOfferCount (a : address) (s : State) : Z :=
  default 0 (_dailyOfferCount s !! a).

(** A call into a token contract runs on the ledger part of the state. *)
Definition onLedger {A} (m : M Ledger.t A) : M State A :=
  fun s => match m (ledger s) with
           | Ok (a, l) => Ok (a, set_ledger l s)
           | Err e => Err e
           end.

Definition safeTransferFrom (e : Env) (token from to value : Z) : M State unit :=
  onLedger (Ledger.transferFrom token (this e) from to value).

Definition safeTransfer (e : Env) (token to value : Z) : M State unit :=
  onLedger (Ledger.transfer token (this e) to value).

(** The modifiers of the OpenZeppelin v5 base contracts. *)
Definition nonReentrant {A} (body : M State A) : M State A :=
  let* entered := gets _entered in
  if entered : bool then throw (Custom "ReentrancyGuardReentrantCall")
  else
    modify (set_entered true);;
    let* r := body in
    modify (set_entered false);;
    ret r.

Definition whenNotPaused {A} (body : M State A) : M State A :=
  let* p := gets _paused in
  if p : bool then throw (Custom "EnforcedPause") else body.

Definition whenPaused {A} (body : M State A) : M State A :=
  let* p := gets _paused in
  if p : bool then body else throw (Custom "ExpectedPause").

Definition onlyOwner {A} (e : Env) (body : M State A) : M State A :=
  let* o := gets _owner in
  if o =? msg_sender e then body
  else throw (Custom "OwnableUnauthorizedAccount").

(** constructor() Ownable(msg.sender) *)
Definition constructor (deployer : address) (l : Ledger.t) : State :=
  mkState 0 ∅ DEFAULT_EXPIRY_TIME ∅ ∅ false deployer false l.

Definition createOffer (e : Env) (tokenAddress amount priceInBUSD buyer : Z)
  : M State Z :=
  nonReentrant (whenNotPaused (
    require (negb (tokenAddress =? 0)) "Invalid token address";;
    require (0 <? amount) "Amount must be > 0";;
    require (0 <? priceInBUSD) "Price must be > 0";;
    require (negb (buyer =? 0)) "Invalid buyer address";;
    require (negb (buyer =? msg_sender e)) "Buyer cannot be seller";;
    let* last := gets (lastOfferTime (msg_sender e)) in
    let* cooled := add last OFFER_COOLDOWN in
    require (cooled <=? block_timestamp e) "Cooldown period active";;
    let* last := gets (lastOfferTime (msg_sender e)) in
    let* nextDay := add last ONE_DAY in
    when (nextDay <=? block_timestamp e)
         (modify (set_dailyOfferCount (msg_sender e) 0));;
    let* count := gets (dailyOfferCount (msg_sender e)) in
    require (count <? MAX_OFFERS_PER_DAY) "Daily offer limit reached";;
    modify (set_lastOfferTime (msg_sender e) (block_timestamp e));;
    let* count := gets (dailyOfferCount (msg_sender e)) in
    let* count' := add count 1 in
    modify (set_dailyOfferCount (msg_sender e) count');;
    safeTransferFrom e tokenAddress (msg_sender e) (this e) amount;;
    let* offerId := gets _offerIdCounter in
    let* next := add offerId 1 in
    modify (set_offerIdCounter next);;
    let* expiry := gets offerExpiryTime in
    let* expiresAt := add (block_timestamp e) expiry in
    modify (set_offer offerId
              (mkOffer offerId (msg_sender e) buyer tokenAddress amount
                       priceInBUSD true (block_timestamp e) expiresAt));;
    ret offerId)).

(** [safeTransferFrom] and [safeTransfer] are calls out of the engine: the
    token contract runs while the engine's own call is in progress, on the
    engine's storage as it stands at that point, which it can read and call
    back into.  [Token] is what the token contracts do when so called;
    [erc20] are tokens that only keep their ledger.  [acceptOffer], the entry
    point with two such calls, is written over the tokens it calls. *)
Record Token : Type := mkToken {
  onTransferFrom : Env -> address -> address -> address -> Z -> M State unit;
  onTransfer : Env -> address -> address -> Z -> M State unit
}.

Definition erc20 : Token := mkToken safeTransferFrom safeTransfer.

Definition acceptOffer_calling (tokens : Token) (e : Env)
    (offerId busdAddress : Z) : M State unit :=
  nonReentrant (whenNotPaused (
    let* offer := gets (offerAt offerId) in
    require (active offer) "Offer is not active";;
    require (msg_sender e =? buyer offer) "Not the designated buyer";;
    require (negb (busdAddress =? 0)) "Invalid BUSD address";;
    require (block_timestamp e <=? expiresAt offer) "Offer has expired";;
    modify (set_offer offerId (deactivate offer));;
    onTransferFrom tokens e busdAddress (msg_sender e) (seller offer)
                   (priceInBUSD offer);;
    onTransfer tokens e (tokenAddress offer) (msg_sender e) (amount offer))).

Definition acceptOffer : Env -> Z -> Z -> M State unit :=
  acceptOffer_calling erc20.

Definition cancelOffer (e : Env) (offerId : Z) : M State unit :=
  nonReentrant (whenNotPaused (
    let* offer := gets (offerAt offerId) in
    require (active offer) "Offer is not active";;
    require (msg_sender e =? seller offer) "Not the seller";;
    modify (set_offer offerId (deactivate offer));;
    safeTransfer e (tokenAddress offer) (msg_sender e) (amount offer))).

Definition reclaimExpired (e : Env) (offerId : Z) : M State unit :=
  nonReentrant (
    let* offer := gets (offerAt offerId) in
    require (active offer) "Offer is not active";;
    require (expiresAt offer <? block_timestamp e) "Offer has not expired yet";;
    modify (set_offer offerId (deactivate offer));;
    safeTransfer e (tokenAddress offer) (seller offer) (amount offer)).

Definition isExpired (e : Env) (offerId : Z) (s : State) : bool :=
  expiresAt (offerAt offerId s) <? block_timestamp e.

Definition getTimeRemaining (e : Env) (offerId : Z) (s : State) : Z :=
  let offer := offerAt offerId s in
  if expiresAt offer <=? block_timestamp e then 0
  else expiresAt offer - block_timestamp e.

Definition getOffer (offerId : Z) (s : State) : Offer := offerAt offerId s.

Definition getOfferCount (s : State) : Z := _offerIdCounter s.

Definition updateExpiryTime (e : Env) (newExpiryTime : Z) : M State unit :=
  onlyOwner e (
    require (ONE_MINUTE <=? newExpiryTime) "Expiry too short";;
    require (newExpiryTime <=? TWENTY_FOUR_HOURS) "Expiry too long";;
    modify (set_offerExpiryTime newExpiryTime)).

Definition pause (e : Env) : M State unit :=
  onlyOwner e (whenNotPaused (modify (set_paused true))).

Definition unpause (e : Env) : M State unit :=
  onlyOwner e (whenPaused (modify (set_paused false))).

Definition emergencyWithdraw (e : Env) (token amount to : Z) : M State unit :=
  onlyOwner e (
    require (negb (to =? 0)) "Invalid recipient";;
    let* p := gets _paused in
    require p "Only when paused";;
    safeTransfer e token to amount).

Definition getRemainingOffers (e : Env) (user : address) : M State Z :=
  let* last := gets (lastOfferTime user) in
  let* nextDay := add last ONE_DAY in
  if nextDay <=? block_timestamp e then ret MAX_OFFERS_PER_DAY
  else
    let* used := gets (dailyOfferCount user) in
    if MAX_OFFERS_PER_DAY <=? used then ret 0 else sub MAX_OFFERS_PER_DAY used.

(** Ownable's two inherited entry points. *)
Definition transferOwnership (e : Env) (newOwner : address) : M State unit :=
  onlyOwner e (
    if newOwner =? 0 then throw (Custom "OwnableInvalidOwner")
    else modify (set_owner newOwner)).

Definition renounceOwnership (e : Env) : M State unit :=
  onlyOwner e (modify (set_owner 0)).

(** *** Transactions, traces and reachable states *)

(** Every external entry point that can change the state. *)
Inductive Call : Type :=
| CreateOffer (tokenAddress amount priceInBUSD buyer : Z)
| AcceptOffer (offerId busdAddress : Z)
| CancelOffer (offerId : Z)
| ReclaimExpired (offerId : Z)
| UpdateExpiryTime (newExpiryTime : Z)
| Pause
| Unpause
| EmergencyWithdraw (token amount to : Z)
| TransferOwnership (newOwner : address)
| RenounceOwnership.

Definition exec (e : Env) (c : Call) : M State unit :=
  match c with
  | CreateOffer t a p b => createOffer e t a p b;; ret tt
  | AcceptOffer i busd => acceptOffer e i busd
  | CancelOffer i => cancelOffer e i
  | ReclaimExpired i => reclaimExpired e i
  | UpdateExpiryTime n => updateExpiryTime e n
  | Pause => pause e
  | Unpause => unpause e
  | EmergencyWithdraw t a to => emergencyWithdraw e t a to
  | TransferOwnership o => transferOwnership e o
  | RenounceOwnership => renounceOwnership e
  end.

(** What happens between two observations of the contract: a transaction
    sent to it, or any activity on the token contracts, after which the
    ledger can be any ledger. *)
Inductive Event : Type :=
| Tx (e : Env) (c : Call)
| Tokens (l : Ledger.t).

Definition step (ev : Event) (s : State) : State :=
  match ev with
  | Tx e c => commit (exec e c) s
  | Tokens l => set_ledger l s
  end.

Fixpoint run (evs : list Event) (s : State) : State :=
  match evs with
  | [] => s
  | ev :: rest => run rest (step ev s)
  end.

Inductive reachable : State -> Prop :=
| reachable_constructor deployer l : reachable (constructor deployer l)
| reachable_step s ev : reachable s -> reachable (step ev s).

(** [settles i ev s]: the event is a successful accept, cancel or reclaim of
    offer [i] in state [s]. *)
Definition settles (i : Z) (ev : Event) (s : State) : bool :=
  match ev with
  | Tx e (AcceptOffer j busd) => (j =? i) && isOk (acceptOffer e j busd s)
  | Tx e (CancelOffer j) => (j =? i) && isOk (cancelOffer e j s)
  | Tx e (ReclaimExpired j) => (j =? i) && isOk (reclaimExpired e j s)
  | _ => false
  end.

Fixpoint settlements (i : Z) (evs : list Event) (s : State) : nat :=
  match evs with
  | [] => O
  | ev :: rest =>
      ((if settles i ev s then 1 else 0) + settlements i rest (step ev s))%nat
  end.

(** *** State invariants *)

(** The counter a seller is charged against: zero again once a day has
    passed since the seller's last offer. *)
Definition window_count (e : Env) (s : State) : Z :=
  if lastOfferTime (msg_sender e) s + ONE_DAY <=? block_timestamp e
  then 0 else dailyOfferCount (msg_sender e) s.

(** Offer [i] has been created and is no longer active. *)
Definition terminal (i : Z) (s : State) : Prop :=
  i < _offerIdCounter s /\ active (offerAt i s) = false.

Record Inv (s : State) : Prop := mkInv {
  inv_entered : _entered s = false;
  inv_expiry : ONE_MINUTE <= offerExpiryTime s <= TWENTY_FOUR_HOURS;
  inv_offers : forall j o, _offers s !! j = Some o ->
    j < _offerIdCounter s /\
    ONE_MINUTE <= expiresAt o - createdAt o <= TWENTY_FOUR_HOURS;
  inv_count : forall a, 0 <= dailyOfferCount a s <= MAX_OFFERS_PER_DAY
}.

(** *** Further notions for the properties of the engine *)

(** [creates ev s]: the event is a successful [createOffer]. *)
Definition creates (ev : Event) (s : State) : bool :=
  match ev with
  | Tx e (CreateOffer t a p b) => isOk (createOffer e t a p b s)
  | _ => false
  end.

Fixpoint creations (evs : list Event) (s : State) : nat :=
  match evs with
  | [] => O
  | ev :: rest =>
      ((if creates ev s then 1 else 0) + creations rest (step ev s))%nat
  end.

(** The entry points behind [onlyOwner]. *)
Definition administrative (c : Call) : bool :=
  match c with
  | UpdateExpiryTime _ | Pause | Unpause | EmergencyWithdraw _ _ _
  | TransferOwnership _ | RenounceOwnership => true
  | _ => false
  end.

(** What a stored offer looks like. *)
Definition well_formed (j : Z) (o : Offer) : Prop :=
  id o = j /\ 0 <= j /\ tokenAddress o <> 0 /\ 0 < amount o /\
  0 < priceInBUSD o /\ seller o <> 0 /\ buyer o <> 0 /\
  buyer o <> seller o /\ createdAt o < expiresAt o.

(** What offer [o] keeps in the engine's custody of token [tok], and the
    total over all offers. *)
Definition held (tok : address) (o : Offer) : Z :=
  if active o && (tokenAddress o =? tok) then amount o else 0.

Definition escrowed (tok : address) (s : State) : Z :=
  map_fold (fun _ o acc => held tok o + acc) 0 (_offers s).

(** The engine at address [engine] holds what its active offers promise. *)
Definition solvent (engine : address) (s : State) : Prop :=
  forall tok, escrowed tok s <= Ledger.balanceOf tok engine (ledger s).

(** Ordinary operation of the engine at [engine]: transactions sent to it by
    another account, the owner's emergency withdrawal apart, and token
    activity that takes nothing from the engine (only the engine can spend
    its balance: it approves no spender). *)
Definition ordinary (engine : address) (ev : Event) (s : State) : Prop :=
  match ev with
  | Tx e c =>
      this e = engine /\ msg_sender e <> engine /\
      match c with EmergencyWithdraw _ _ _ => False | _ => True end
  | Tokens l =>
      forall tok, Ledger.balanceOf tok engine (ledger s)
                  <= Ledger.balanceOf tok engine l
  end.

Fixpoint ordinary_run (engine : address) (evs : list Event) (s : State) : Prop :=
  match evs with
  | [] => True
  | ev :: rest => ordinary engine ev s /\ ordinary_run engine rest (step ev s)
  end.

End EscrowWithExpiry.

(** ** Escrow.sol *)

Module Escrow.

Definition MAX_OFFERS_PER_DAY : Z := 50.
Definition OFFER_COOLDOWN : Z := 10.
Definition ONE_DAY : Z := 86400.

Record Offer : Type := mkOffer {
  id : Z;
  seller : address;
  buyer : address;
  tokenAddress : address;
  amount : Z;
  priceInBUSD : Z;
  active : bool;
  createdAt : Z
}.

Definition zeroOffer : Offer := mkOffer 0 0 0 0 0 0 false 0.

Definition deactivate (o : Offer) : Offer :=
  mkOffer (id o) (seller o) (buyer o) (tokenAddress o) (amount o)
          (priceInBUSD o) false (createdAt o).

Record State : Type := mkState {
  _offerIdCounter : Z;
  _offers : gmap Z Offer;
  _lastOfferTime : gmap Z Z;
  _dailyOfferCount : gmap Z Z;
  platformFeePercent : Z;
  feeCollector : address;
  _paused : bool;
  _owner : address;
  _entered : bool;
  ledger : Ledger.t
}.

Definition set_offerIdCounter (v : Z) (s : State) : State :=
  mkState v (_offers s) (_lastOfferTime s) (_dailyOfferCount s)
          (platformFeePercent s) (feeCollector s) (_paused s) (_owner s)
          (_entered s) (ledger s).
Definition set_offer (i : Z) (o : Offer) (s : State) : State :=
  mkState (_offerIdCounter s) (<[i := o]> (_offers s)) (_lastOfferTime s)
          (_dailyOfferCount s) (platformFeePercent s) (feeCollector s)
          (_paused s) (_owner s) (_entered s) (ledger s).
Definition set_lastOfferTime (a : address) (v : Z) (s : State) : State :=
  mkState (_offerIdCounter s) (_offers s) (<[a := v]> (_lastOfferTime s))
          (_dailyOfferCount s) (platformFeePercent s) (feeCollector s)
          (_paused s) (_owner s) (_entered s) (ledger s).
Definition set_dailyOfferCount (a : address) (v : Z) (s : State) : State :=
  mkState (_offerIdCounter s) (_offers s) (_lastOfferTime s)
          (<[a := v]> (_dailyOfferCount s)) (platformFeePercent s)
          (feeCollector s) (_paused s) (_owner s) (_entered s) (ledger s).
Definition set_platformFeePercent (v : Z) (s : State) : State :=
  mkState (_offerIdCounter s) (_offers s) (_lastOfferTime s)
          (_dailyOfferCount s) v (feeCollector s) (_paused s) (_owner s)
          (_entered s) (ledger s).
Definition set_feeCollector (v : address) (s : State) : State :=
  mkState (_offerIdCounter s) (_offers s) (_lastOfferTime s)
          (_dailyOfferCount s) (platformFeePercent s) v (_paused s) (_owner s)
          (_entered s) (ledger s).
Definition set_paused (v : bool) (s : State) : State :=
  mkState (_offerIdCounter s) (_offers s) (_lastOfferTime s)
          (_dailyOfferCount s) (platformFeePercent s) (feeCollector s) v
          (_owner s) (_entered s) (ledger s).
Definition set_owner (v : address) (s : State) : State :=
  mkState (_offerIdCounter s) (_offers s) (_lastOfferTime s)
          (_dailyOfferCount s) (platformFeePercent s) (feeCollector s)
          (_paused s) v (_entered s) (ledger s).
Definition set_entered (v : bool) (s : State) : State :=
  mkState (_offerIdCounter s) (_offers s) (_lastOfferTime s)
          (_dailyOfferCount s) (platformFeePercent s) (feeCollector s)
          (_paused s) (_owner s) v (ledger s).
Definition set_ledger (v : Ledger.t) (s : State) : State :=
  mkState (_offerIdCounter s) (_offers s) (_lastOfferTime s)
          (_dailyOfferCount s) (platformFeePercent s) (feeCollector s)
          (_paused s) (_owner s) (_entered s) v.

Definition offerAt (i : Z) (s : State) : Offer :=
  default zeroOffer (_offers s !! i).
Definition lastOfferTime (a : address) (s : State) : Z :=
  default 0 (_lastOfferTime s !! a).
Definition dailyOfferCount (a : address) (s : State) : Z :=
  default 0 (_dailyOfferCount s !! a).

Definition onLedger {A} (m : M Ledger.t A) : M State A :=
  fun s => match m (ledger s) with
           | Ok (a, l) => Ok (a, set_ledger l s)
           | Err e => Err e
           end.

Definition safeTransferFrom (e : Env) (token from to value : Z) : M State unit :=
  onLedger (Ledger.transferFrom token (this e) from to value).

Definition safeTransfer (e : Env) (token to value : Z) : M State unit :=
  onLedger (Ledger.transfer token (this e) to value).

Definition nonReentrant {A} (body : M State A) : M State A :=
  let* entered := gets _entered in
  if entered : bool then throw (Custom "ReentrancyGuardReentrantCall")
  else
    modify (set_entered true);;
    let* r := body in
    modify (set_entered false);;
    ret r.

Definition whenNotPaused {A} (body : M State A) : M State A :=
  let* p := gets _paused in
  if p : bool then throw (Custom "EnforcedPause") else body.

Definition whenPaused {A} (body : M State A) : M State A :=
  let* p := gets _paused in
  if p : bool then body else throw (Custom "ExpectedPause").

Definition onlyOwner {A} (e : Env) (body : M State A) : M State A :=
  let* o := gets _owner in
  if o =? msg_sender e then body
  else throw (Custom "OwnableUnauthorizedAccount").

(** constructor() Ownable(msg.sender) { feeCollector = msg.sender; } *)
Definition constructor (deployer : address) (l : Ledger.t) : State :=
  mkState 0 ∅ ∅ ∅ 0 deployer false deployer false l.

Definition createOffer (e : Env) (tokenAddress amount priceInBUSD buyer : Z)
  : M State Z :=
  nonReentrant (whenNotPaused (
    require (negb (tokenAddress =? 0)) "Escrow: invalid token address";;
    require (0 <? amount) "Escrow: amount must be greater than 0";;
    require (0 <? priceInBUSD) "Escrow: price must be greater than 0";;
    require (negb (buyer =? 0)) "Escrow: invalid buyer address";;
    require (negb (buyer =? msg_sender e)) "Escrow: buyer cannot be seller";;
    let* last := gets (lastOfferTime (msg_sender e)) in
    let* cooled := add last OFFER_COOLDOWN in
    require (cooled <=? block_timestamp e) "Escrow: cooldown period active";;
    let* last := gets (lastOfferTime (msg_sender e)) in
    let* nextDay := add last ONE_DAY in
    when (nextDay <=? block_timestamp e)
         (modify (set_dailyOfferCount (msg_sender e) 0));;
    let* count := gets (dailyOfferCount (msg_sender e)) in
    require (count <? MAX_OFFERS_PER_DAY) "Escrow: daily offer limit reached";;
    modify (set_lastOfferTime (msg_sender e) (block_timestamp e));;
    let* count := gets (dailyOfferCount (msg_sender e)) in
    let* count' := add count 1 in
    modify (set_dailyOfferCount (msg_sender e) count');;
    safeTransferFrom e tokenAddress (msg_sender e) (this e) amount;;
    let* offerId := gets _offerIdCounter in
    let* next := add offerId 1 in
    modify (set_offerIdCounter next);;
    modify (set_offer offerId
              (mkOffer offerId (msg_sender e) buyer tokenAddress amount
                       priceInBUSD true (block_timestamp e)));;
    ret offerId)).

(** The tokens [acceptOffer] calls out to, as in EscrowWithExpiry. *)
Record Token : Type := mkToken {
  onTransferFrom : Env -> address -> address -> address -> Z -> M State unit;
  onTransfer : Env -> address -> address -> Z -> M State unit
}.

Definition erc20 : Token := mkToken safeTransferFrom safeTransfer.

Definition acceptOffer_calling (tokens : Token) (e : Env)
    (offerId busdAddress : Z) : M State unit :=
  nonReentrant (whenNotPaused (
    let* offer := gets (offerAt offerId) in
    require (active offer) "Escrow: offer is not active";;
    require (msg_sender e =? buyer offer)
            "Escrow: caller is not the designated buyer";;
    require (negb (busdAddress =? 0)) "Escrow: invalid BUSD address";;
    modify (set_offer offerId (deactivate offer));;
    onTransferFrom tokens e busdAddress (msg_sender e) (seller offer)
                   (priceInBUSD offer);;
    onTransfer tokens e (tokenAddress offer) (msg_sender e) (amount offer))).

Definition acceptOffer : Env -> Z -> Z -> M State unit :=
  acceptOffer_calling erc20.

Definition cancelOffer (e : Env) (offerId : Z) : M State unit :=
  nonReentrant (whenNotPaused (
    let* offer := gets (offerAt offerId) in
    require (active offer) "Escrow: offer is not active";;
    require (msg_sender e =? seller offer) "Escrow: caller is not the seller";;
    modify (set_offer offerId (deactivate offer));;
    safeTransfer e (tokenAddress offer) (msg_sender e) (amount offer))).

Definition getOffer (offerId : Z) (s : State) : Offer := offerAt offerId s.

Definition getOfferCount (s : State) : Z := _offerIdCounter s.

Definition pause (e : Env) : M State unit :=
  onlyOwner e (whenNotPaused (modify (set_paused true))).

Definition unpause (e : Env) : M State unit :=
  onlyOwner e (whenPaused (modify (set_paused false))).

Definition emergencyWithdraw (e : Env) (token amount to : Z) : M State unit :=
  onlyOwner e (
    require (negb (to =? 0)) "Escrow: withdraw to zero address";;
    let* p := gets _paused in
    require p "Escrow: only when paused";;
    safeTransfer e token to amount).

Definition updateFee (e : Env) (newFeePercent : Z) : M State unit :=
  onlyOwner e (
    require (newFeePercent <=? 500) "Escrow: fee too high";;
    modify (set_platformFeePercent newFeePercent)).

Definition updateFeeCollector (e : Env) (newCollector : address) : M State unit :=
  onlyOwner e (
    require (negb (newCollector =? 0)) "Escrow: invalid collector";;
    modify (set_feeCollector newCollector)).

Definition getRemainingOffers (e : Env) (user : address) : M State Z :=
  let* last := gets (lastOfferTime user) in
  let* nextDay := add last ONE_DAY in
  if nextDay <=? block_timestamp e then ret MAX_OFFERS_PER_DAY
  else
    let* used := gets (dailyOfferCount user) in
    if MAX_OFFERS_PER_DAY <=? used then ret 0 else sub MAX_OFFERS_PER_DAY used.

Definition transferOwnership (e : Env) (newOwner : address) : M State unit :=
  onlyOwner e (
    if newOwner =? 0 then throw (Custom "OwnableInvalidOwner")
    else modify (set_owner newOwner)).

Definition renounceOwnership (e : Env) : M State unit :=
  onlyOwner e (modify (set_owner 0)).

(** *** Transactions, traces and reachable states *)

Inductive Call : Type :=
| CreateOffer (tokenAddress amount priceInBUSD buyer : Z)
| AcceptOffer (offerId busdAddress : Z)
| CancelOffer (offerId : Z)
| Pause
| Unpause
| EmergencyWithdraw (token amount to : Z)
| UpdateFee (newFeePercent : Z)
| UpdateFeeCollector (newCollector : address)
| TransferOwnership (newOwner : address)
| RenounceOwnership.

Definition exec (e : Env) (c : Call) : M State unit :=
  match c with
  | CreateOffer t a p b => createOffer e t a p b;; ret tt
  | AcceptOffer i busd => acceptOffer e i busd
  | CancelOffer i => cancelOffer e i
  | Pause => pause e
  | Unpause => unpause e
  | EmergencyWithdraw t a to => emergencyWithdraw e t a to
  | UpdateFee n => updateFee e n
  | UpdateFeeCollector c => updateFeeCollector e c
  | TransferOwnership o => transferOwnership e o
  | RenounceOwnership => renounceOwnership e
  end.

Inductive Event : Type :=
| Tx (e : Env) (c : Call)
| Tokens (l : Ledger.t).

Definition step (ev : Event) (s : State) : State :=
  match ev with
  | Tx e c => commit (exec e c) s
  | Tokens l => set_ledger l s
  end.

Fixpoint run (evs : list Event) (s : State) : State :=
  match evs with
  | [] => s
  | ev :: rest => run rest (step ev s)
  end.

Inductive reachable : State -> Prop :=
| reachable_constructor deployer l : reachable (constructor deployer l)
| reachable_step s ev : reachable s -> reachable (step ev s).

Definition settles (i : Z) (ev : Event) (s : State) : bool :=
  match ev with
  | Tx e (AcceptOffer j busd) => (j =? i) && isOk (acceptOffer e j busd s)
  | Tx e (CancelOffer j) => (j =? i) && isOk (cancelOffer e j s)
  | _ => false
  end.

Fixpoint settlements (i : Z) (evs : list Event) (s : State) : nat :=
  match evs with
  | [] => O
  | ev :: rest =>
      ((if settles i ev s then 1 else 0) + settlements i rest (step ev s))%nat
  end.

(** *** State invariants *)

Definition window_count (e : Env) (s : State) : Z :=
  if lastOfferTime (msg_sender e) s + ONE_DAY <=? block_timestamp e
  then 0 else dailyOfferCount (msg_sender e) s.

Definition terminal (i : Z) (s : State) : Prop :=
  i < _offerIdCounter s /\ active (offerAt i s) = false.

Record Inv (s : State) : Prop := mkInv {
  inv_entered : _entered s = false;
  inv_offers : forall j o, _offers s !! j = Some o -> j < _offerIdCounter s;
  inv_count : forall a, 0 <= dailyOfferCount a s <= MAX_OFFERS_PER_DAY
}.

(** The entry points behind [onlyOwner]. *)
Definition administrative (c : Call) : bool :=
  match c with
  | Pause | Unpause | EmergencyWithdraw _ _ _ | UpdateFee _
  | UpdateFeeCollector _ | TransferOwnership _ | RenounceOwnership => true
  | _ => false
  end.

End Escrow.

(** ** MockPair.sol *)

Module MockPair.

Definition MINIMUM_LIQUIDITY : Z := 10 ^ 3.

(** The address the first deposit locks its minimum liquidity at. *)
Definition BURN_SINK : address := 1.

(** Contract storage: the pair's own slots and the slots of the ERC-20 it
    inherits for its liquidity shares. *)
Record Storage : Type := mkStorage {
  token0 : address;
  token1 : address;
  reserve0 : Z;
  reserve1 : Z;
  blockTimestampLast : Z;
  _balances : gmap address Z;
  _totalSupply : Z
}.

Record State : Type := mkState {
  store : Storage;
  ledger : Ledger.t
}.

Definition emptyStorage : Storage := mkStorage 0 0 0 0 0 ∅ 0.

Definition set_tokens (t0 t1 : address) (s : State) : State :=
  mkState (mkStorage t0 t1 (reserve0 (store s)) (reserve1 (store s))
             (blockTimestampLast (store s)) (_balances (store s))
             (_totalSupply (store s)))
          (ledger s).
Definition set_reserves (r0 r1 ts : Z) (s : State) : State :=
  mkState (mkStorage (token0 (store s)) (token1 (store s)) r0 r1 ts
             (_balances (store s)) (_totalSupply (store s)))
          (ledger s).
Definition set_shares (a : address) (v : Z) (s : State) : State :=
  mkState (mkStorage (token0 (store s)) (token1 (store s))
             (reserve0 (store s)) (reserve1 (store s))
             (blockTimestampLast (store s)) (<[a := v]> (_balances (store s)))
             (_totalSupply (store s)))
          (ledger s).
Definition set_totalSupply (v : Z) (s : State) : State :=
  mkState (mkStorage (token0 (store s)) (token1 (store s))
             (reserve0 (store s)) (reserve1 (store s))
             (blockTimestampLast (store s)) (_balances (store s)) v)
          (ledger s).
Definition set_ledger (l : Ledger.t) (s : State) : State :=
  mkState (store s) l.

(** balanceOf and totalSupply of the liquidity shares. *)
Definition balanceOf (a : address) (s : State) : Z :=
  default 0 (_balances (store s) !! a).
Definition totalSupply (s : State) : Z := _totalSupply (store s).

Definition onLedger {A} (m : M Ledger.t A) : M State A :=
  fun s => match m (ledger s) with
           | Ok (a, l) => Ok (a, set_ledger l s)
           | Err e => Err e
           end.

(** ERC20._mint and ERC20._burn of the share token: the total supply is the
    only checked addition, a balance is bounded by it. *)
Definition _mint (account value : Z) : M State unit :=
  if account =? 0 then throw (Custom "ERC20InvalidReceiver")
  else
    let* supply := gets totalSupply in
    let* supply' := add supply value in
    modify (set_totalSupply supply');;
    let* balance := gets (balanceOf account) in
    modify (set_shares account (balance + value)).

Definition _burn (account value : Z) : M State unit :=
  if account =? 0 then throw (Custom "ERC20InvalidSender")
  else
    let* balance := gets (balanceOf account) in
    if balance <? value then throw (Custom "ERC20InsufficientBalance")
    else
      modify (set_shares account (balance - value));;
      let* supply := gets totalSupply in
      modify (set_totalSupply (supply - value)).

Definition initialize (_token0 _token1 : address) : M State unit :=
  let* t0 := gets (fun s => token0 (store s)) in
  let* t1 := gets (fun s => token1 (store s)) in
  require ((t0 =? 0) && (t1 =? 0)) "MockPair: ALREADY_INITIALIZED";;
  modify (set_tokens _token0 _token1).

Definition getReserves (s : State) : Z * Z * Z :=
  (reserve0 (store s), reserve1 (store s), blockTimestampLast (store s)).

Definition _update (e : Env) (balance0 balance1 : Z) : M State unit :=
  require ((balance0 <=? MAX_UINT112) && (balance1 <=? MAX_UINT112))
          "MockPair: OVERFLOW";;
  modify (set_reserves balance0 balance1 (block_timestamp e mod 2 ^ 32)).

(** The loop of [sqrt]; [gas] bounds the number of iterations a call can
    pay for. *)
Fixpoint sqrt_loop {S} (gas : nat) (y z x : Z) : M S Z :=
  match gas with
  | O => throw OUT_OF_GAS
  | S gas' =>
      if x <? z then
        let* q := div y x in
        let* sum := add q x in
        let* x' := div sum 2 in
        sqrt_loop gas' y x x'
      else ret z
  end.

Definition SQRT_GAS : nat := 260.

Definition sqrt {S} (y : Z) : M S Z :=
  if 3 <? y then
    let* half := div y 2 in
    let* x := add half 1 in
    sqrt_loop SQRT_GAS y y x
  else if negb (y =? 0) then ret 1
  else ret 0.

Definition min (x y : Z) : Z := if x <? y then x else y.

Definition mint (e : Env) (to : address) : M State Z :=
  let* '(_reserve0, _reserve1, _) := gets getReserves in
  let* t0 := gets (fun s => token0 (store s)) in
  let* t1 := gets (fun s => token1 (store s)) in
  let* balance0 := gets (fun s => Ledger.balanceOf t0 (this e) (ledger s)) in
  let* balance1 := gets (fun s => Ledger.balanceOf t1 (this e) (ledger s)) in
  let* amount0 := sub balance0 _reserve0 in
  let* amount1 := sub balance1 _reserve1 in
  let* supply := gets totalSupply in
  let* liquidity :=
    (if supply =? 0 then
       let* product := mul amount0 amount1 in
       let* root := sqrt product in
       let* l := sub root MINIMUM_LIQUIDITY in
       _mint BURN_SINK MINIMUM_LIQUIDITY;;
       ret l
     else
       let* n0 := mul amount0 supply in
       let* l0 := div n0 _reserve0 in
       let* n1 := mul amount1 supply in
       let* l1 := div n1 _reserve1 in
       ret (min l0 l1)) in
  require (0 <? liquidity) "MockPair: INSUFFICIENT_LIQUIDITY_MINTED";;
  _mint to liquidity;;
  _update e balance0 balance1;;
  ret liquidity.

Definition burn (e : Env) (to : address) : M State (Z * Z) :=
  let* t0 := gets (fun s => token0 (store s)) in
  let* t1 := gets (fun s => token1 (store s)) in
  let* balance0 := gets (fun s => Ledger.balanceOf t0 (this e) (ledger s)) in
  let* balance1 := gets (fun s => Ledger.balanceOf t1 (this e) (ledger s)) in
  let* liquidity := gets (balanceOf (this e)) in
  let* supply := gets totalSupply in
  let* n0 := mul liquidity balance0 in
  let* amount0 := div n0 supply in
  let* n1 := mul liquidity balance1 in
  let* amount1 := div n1 supply in
  require ((0 <? amount0) && (0 <? amount1))
          "MockPair: INSUFFICIENT_LIQUIDITY_BURNED";;
  _burn (this e) liquidity;;
  onLedger (Ledger.transfer t0 (this e) to amount0);;
  onLedger (Ledger.transfer t1 (this e) to amount1);;
  let* balance0 := gets (fun s => Ledger.balanceOf t0 (this e) (ledger s)) in
  let* balance1 := gets (fun s => Ledger.balanceOf t1 (this e) (ledger s)) in
  _update e balance0 balance1;;
  ret (amount0, amount1).

End MockPair.

(** ** MockFactory.sol *)

Module MockFactory.

(** The factory, the pairs it has deployed and the token ledger. *)
Record State : Type := mkState {
  _getPair : gmap (address * address) address;
  allPairs : list address;
  pairs : gmap address MockPair.Storage;
  ledger : Ledger.t
}.

Definition getPair (tokenA tokenB : address) (s : State) : address :=
  default 0 (_getPair s !! (tokenA, tokenB)).

Definition set_getPair (tokenA tokenB pair : address) (s : State) : State :=
  mkState (<[(tokenA, tokenB) := pair]> (_getPair s)) (allPairs s) (pairs s)
          (ledger s).
Definition push_allPairs (pair : address) (s : State) : State :=
  mkState (_getPair s) (allPairs s ++ [pair]) (pairs s) (ledger s).
Definition set_pair (pair : address) (st : MockPair.Storage) (s : State) : State :=
  mkState (_getPair s) (allPairs s) (<[pair := st]> (pairs s)) (ledger s).
Definition set_ledger (l : Ledger.t) (s : State) : State :=
  mkState (_getPair s) (allPairs s) (pairs s) l.

Definition constructor (l : Ledger.t) : State := mkState ∅ [] ∅ l.

(** A call into a token contract. *)
Definition onLedger {A} (m : M Ledger.t A) : M State A :=
  fun s => match m (ledger s) with
           | Ok (a, l) => Ok (a, set_ledger l s)
           | Err e => Err e
           end.

(** A call into the pair contract deployed at [pair]. *)
Definition onPair {A} (pair : address) (m : M MockPair.State A) : M State A :=
  fun s =>
    match pairs s !! pair with
    | None => Err (Custom "AddressEmptyCode")
    | Some st =>
        match m (MockPair.mkState st (ledger s)) with
        | Ok (a, p) =>
            Ok (a, set_ledger (MockPair.ledger p)
                     (set_pair pair (MockPair.store p) s))
        | Err e => Err e
        end
    end.

Section Create.

(** The address at which [new MockPair()] deploys the factory's n-th
    contract; the chain derives it from the factory address and n. *)
Variable create_address : nat -> address.

Definition createPair (tokenA tokenB : address) : M State address :=
  require (negb (tokenA =? tokenB)) "MockFactory: IDENTICAL_ADDRESSES";;
  let '(token0, token1) :=
    if tokenA <? tokenB then (tokenA, tokenB) else (tokenB, tokenA) in
  require (negb (token0 =? 0)) "MockFactory: ZERO_ADDRESS";;
  let* existing := gets (getPair token0 token1) in
  require (existing =? 0) "MockFactory: PAIR_EXISTS";;
  let* deployed := gets (fun s => length (allPairs s)) in
  let pair := create_address deployed in
  modify (set_pair pair MockPair.emptyStorage);;
  onPair pair (MockPair.initialize token0 token1);;
  modify (set_getPair token0 token1 pair);;
  modify (set_getPair token1 token0 pair);;
  modify (push_allPairs pair);;
  ret pair.

End Create.

Definition allPairsLength (s : State) : Z := Z.of_nat (length (allPairs s)).

(** The state [createPair] leaves when it deploys the pair of [token0] and
    [token1] at [pair]. *)
Definition created (token0 token1 pair : address) (s : State) : State :=
  push_allPairs pair
    (set_getPair token1 token0 pair
       (set_getPair token0 token1 pair
          (set_ledger (ledger s)
             (set_pair pair (MockPair.mkStorage token0 token1 0 0 0 ∅ 0)
                (set_pair pair MockPair.emptyStorage s))))).

(** The two orders of a pair of tokens resolve alike. *)
Definition symmetric (s : State) : Prop :=
  forall tokenA tokenB, getPair tokenA tokenB s = getPair tokenB tokenA s.

End MockFactory.

(** ** MockRouter.sol *)

Module MockRouter.

Import MockFactory.

(** The router keeps no storage of its own: it runs on the factory, its
    pairs and the ledger. *)

Definition getAmountOut {S} (amountIn reserveIn reserveOut : Z) : M S Z :=
  require (0 <? amountIn) "MockRouter: INSUFFICIENT_INPUT_AMOUNT";;
  require ((0 <? reserveIn) && (0 <? reserveOut))
          "MockRouter: INSUFFICIENT_LIQUIDITY";;
  let* amountInWithFee := mul amountIn 997 in
  let* numerator := mul amountInWithFee reserveOut in
  let* scaled := mul reserveIn 1000 in
  let* denominator := add scaled amountInWithFee in
  div numerator denominator.

Definition reservesOf (pair tokenA tokenB : address) : M State (Z * Z) :=
  let* '(reserve0, reserve1, _) := onPair pair (gets MockPair.getReserves) in
  let token0 := if tokenA <? tokenB then tokenA else tokenB in
  ret (if tokenA =? token0 then (reserve0, reserve1) else (reserve1, reserve0)).

Fixpoint getAmountsOut_loop (path : list address) (amount : Z) : M State (list Z) :=
  match path with
  | tokenIn :: ((tokenOut :: _) as rest) =>
      let* pair := gets (getPair tokenIn tokenOut) in
      require (negb (pair =? 0)) "MockRouter: PAIR_NOT_FOUND";;
      let* '(reserveIn, reserveOut) := reservesOf pair tokenIn tokenOut in
      let* out := getAmountOut amount reserveIn reserveOut in
      let* outs := getAmountsOut_loop rest out in
      ret (out :: outs)
  | _ => ret []
  end.

Definition getAmountsOut (amountIn : Z) (path : list address) : M State (list Z) :=
  require (2 <=? Z.of_nat (length path)) "MockRouter: INVALID_PATH";;
  let* outs := getAmountsOut_loop path amountIn in
  ret (amountIn :: outs).

Section Create.

Variable create_address : nat -> address.

(** The first statements of [addLiquidity]: get or create pair. *)
Definition getOrCreatePair (tokenA tokenB : address) : M State address :=
  let* pair := gets (getPair tokenA tokenB) in
  if pair =? 0 then createPair create_address tokenA tokenB
  else ret pair.

Definition _calculateLiquidityAmounts
    (tokenA tokenB amountADesired amountBDesired amountAMin amountBMin : Z)
  : M State (Z * Z) :=
  let* pair := gets (getPair tokenA tokenB) in
  if pair =? 0 then ret (amountADesired, amountBDesired)
  else
    let* '(reserveA, reserveB) := reservesOf pair tokenA tokenB in
    if (reserveA =? 0) && (reserveB =? 0) then
      ret (amountADesired, amountBDesired)
    else
      let* n := mul amountADesired reserveB in
      let* amountBOptimal := div n reserveA in
      if amountBOptimal <=? amountBDesired then
        require (amountBMin <=? amountBOptimal)
                "MockRouter: INSUFFICIENT_B_AMOUNT";;
        ret (amountADesired, amountBOptimal)
      else
        let* m := mul amountBDesired reserveA in
        let* amountAOptimal := div m reserveB in
        require (amountAOptimal <=? amountADesired)
                "MockRouter: INVALID_AMOUNT";;
        require (amountAMin <=? amountAOptimal)
                "MockRouter: INSUFFICIENT_A_AMOUNT";;
        ret (amountAOptimal, amountBDesired).


End Create.

End MockRouter.

(** ** Concrete scenarios *)

Module Scenario.

(** Accounts, contracts and tokens of the scenarios. *)
Definition OWNER : address := 7.
Definition SELLER : address := 1.
Definition BUYER : address := 2.
Definition ENGINE : address := 9.
Definition SWAT : address := 100.
Definition BUSD : address := 200.

(** The seller holds 5000 SWAT and the buyer 7000 BUSD; both have approved
    the engine without limit. *)
Definition funded : Ledger.t :=
  Ledger.mk (<[(SWAT, SELLER) := 5000]> (<[(BUSD, BUYER) := 7000]> ∅))
            (<[(SWAT, SELLER, ENGINE) := MAX_UINT256]>
               (<[(BUSD, BUYER, ENGINE) := MAX_UINT256]> ∅))
            ∅.

(** The buyer holds no BUSD. *)
Definition unfunded : Ledger.t :=
  Ledger.mk (<[(SWAT, SELLER) := 5000]> ∅)
            (<[(SWAT, SELLER, ENGINE) := MAX_UINT256]>
               (<[(BUSD, BUYER, ENGINE) := MAX_UINT256]> ∅))
            ∅.

Definition T0 : Z := 1700000000.

(** A quote token that, asked by the engine for the payment, calls back into
    the engine to accept the offer once more. *)
Definition reentering : EscrowWithExpiry.Token :=
  EscrowWithExpiry.mkToken
    (fun e _ _ _ _ =>
       EscrowWithExpiry.acceptOffer (mkEnv (this e) BUSD (block_timestamp e))
                                    0 BUSD)
    EscrowWithExpiry.safeTransfer.

Definition by_seller (t : Z) : Env := mkEnv ENGINE SELLER t.
Definition by_buyer (t : Z) : Env := mkEnv ENGINE BUYER t.

(** The seller offers 1000 SWAT for 3000 BUSD to the buyer at [T0]. *)
Definition offered (l : Ledger.t) : EscrowWithExpiry.State :=
  EscrowWithExpiry.step
    (EscrowWithExpiry.Tx (by_seller T0)
       (EscrowWithExpiry.CreateOffer SWAT 1000 3000 BUYER))
    (EscrowWithExpiry.constructor OWNER l).

Definition plain_offered (l : Ledger.t) : Escrow.State :=
  Escrow.step
    (Escrow.Tx (by_seller T0) (Escrow.CreateOffer SWAT 1000 3000 BUYER))
    (Escrow.constructor OWNER l).

(** The buyer then accepts it a minute later. *)
Definition accepted : EscrowWithExpiry.State :=
  EscrowWithExpiry.step
    (EscrowWithExpiry.Tx (by_buyer (T0 + 60))
       (EscrowWithExpiry.AcceptOffer 0 BUSD))
    (offered funded).

Definition plain_accepted : Escrow.State :=
  Escrow.step (Escrow.Tx (by_buyer (T0 + 60)) (Escrow.AcceptOffer 0 BUSD))
              (plain_offered funded).

(** One offer of one SWAT every [gap] seconds, [n] times, from time [t]. *)
Fixpoint offers_every (gap : Z) (n : nat) (t : Z) : list EscrowWithExpiry.Event :=
  match n with
  | O => []
  | S n' =>
      EscrowWithExpiry.Tx (by_seller t)
        (EscrowWithExpiry.CreateOffer SWAT 1 1 BUYER)
      :: offers_every gap n' (t + gap)
  end.

Fixpoint plain_offers_every (gap : Z) (n : nat) (t : Z) : list Escrow.Event :=
  match n with
  | O => []
  | S n' =>
      Escrow.Tx (by_seller t) (Escrow.CreateOffer SWAT 1 1 BUYER)
      :: plain_offers_every gap n' (t + gap)
  end.

Definition HOURS_23 : Z := 23 * 3600.

(** The engine after fifty such offers 23 hours apart, and the seller's next
    call. *)
Definition after_fifty : EscrowWithExpiry.State :=
  EscrowWithExpiry.run (offers_every HOURS_23 50 T0)
                       (EscrowWithExpiry.constructor OWNER funded).

Definition at_fifty : Env := by_seller (T0 + 50 * HOURS_23).

(** The owner pauses the engine half a minute after the seller's offer. *)
Definition by_owner (t : Z) : Env := mkEnv ENGINE OWNER t.

Definition paused_offered : EscrowWithExpiry.State :=
  EscrowWithExpiry.step
    (EscrowWithExpiry.Tx (by_owner (T0 + 30)) EscrowWithExpiry.Pause)
    (offered funded).

(** The SWAT token is paused while the seller's offer is open. *)
Definition frozen : EscrowWithExpiry.State :=
  EscrowWithExpiry.step
    (EscrowWithExpiry.Tokens
       (Ledger.set_paused SWAT true
          (EscrowWithExpiry.ledger (offered funded))))
    (offered funded).

(** The owner then withdraws the 1000 SWAT the engine holds. *)
Definition withdrawn : EscrowWithExpiry.State :=
  EscrowWithExpiry.step
    (EscrowWithExpiry.Tx (by_owner (T0 + 40))
       (EscrowWithExpiry.EmergencyWithdraw SWAT 1000 OWNER))
    paused_offered.

(** A pair of SWAT and BUSD at address 50 that holds no shares yet and has
    received 4,000,000 SWAT and 1,000,000 BUSD. *)
Definition PAIR : address := 50.
Definition ROUTER : address := 60.

Definition deposited : Ledger.t :=
  Ledger.mk (<[(SWAT, PAIR) := 4000000]> (<[(BUSD, PAIR) := 1000000]> ∅)) ∅ ∅.

Definition fresh_pool : MockPair.State :=
  MockPair.mkState (MockPair.mkStorage SWAT BUSD 0 0 0 ∅ 0) deposited.

Definition on_pair : Env := mkEnv PAIR ROUTER T0.



(** A factory whose one pair, of SWAT and BUSD at [PAIR], has reserves of
    4,000,000 and 1,000,000. *)
Definition market : MockFactory.State :=
  MockFactory.mkState
    (<[(SWAT, BUSD) := PAIR]> (<[(BUSD, SWAT) := PAIR]> ∅)) [PAIR]
    (<[PAIR := MockPair.mkStorage SWAT BUSD 4000000 1000000 (T0 mod 2 ^ 32)
                 (<[MockPair.BURN_SINK := 1000]> (<[SELLER := 1999000]> ∅))
                 2000000]> ∅)
    deposited.

(** The pool after that first deposit, the depositor being the seller, when
    it has received a further 400,000 SWAT and 100,000 BUSD. *)
Definition topped_up : Ledger.t :=
  Ledger.mk (<[(SWAT, PAIR) := 4400000]> (<[(BUSD, PAIR) := 1100000]> ∅)) ∅ ∅.

Definition seeded_pool : MockPair.State :=
  MockPair.mkState
    (MockPair.mkStorage SWAT BUSD 4000000 1000000 (T0 mod 2 ^ 32)
       (<[MockPair.BURN_SINK := 1000]> (<[SELLER := 1999000]> ∅)) 2000000)
    topped_up.

(** The pool after the second deposit, when the 200,000 shares it minted
    have been sent back to it for withdrawal. *)
Definition returning_pool : MockPair.State :=
  MockPair.mkState
    (MockPair.mkStorage SWAT BUSD 4400000 1100000 (T0 mod 2 ^ 32)
       (<[PAIR := 200000]>
          (<[MockPair.BURN_SINK := 1000]> (<[SELLER := 1999000]> ∅)))
       2200000)
    topped_up.

(** Contracts deployed by the factory land at 1000, 1001, ... *)
Definition deploy_at (n : nat) : address := 1000 + Z.of_nat n.

End Scenario.

(** * Properties *)

(** ** Tactics for the contract monad *)

Ltac monad_unfold :=
  unfold add, sub, mul, div, when;
  unfold bind, ret, gets, modify, require, throw.

(** One step of a proof that a call equals its flattened decision tree: case
    on the next test of the right-hand side. *)
Ltac flat_step :=
  match goal with
  | |- _ = (if negb ?b then _ else _) => destruct b eqn:?; cbn
  | |- _ = (if ?b then _ else _) => destruct b eqn:?; cbn
  | |- _ = match ?x with Ok _ => _ | Err _ => _ end =>
      destruct x as [[[] ?]|?] eqn:?; cbn
  end; try reflexivity.

(** Turn boolean comparisons in the context into propositions. *)
Ltac bool_hyps :=
  repeat match goal with
  | H : negb _ = true |- _ => apply negb_true_iff in H
  | H : negb _ = false |- _ => apply negb_false_iff in H
  | H : (_ && _) = true |- _ => apply andb_true_iff in H; destruct H
  | H : (_ && _) = false |- _ => apply andb_false_iff in H
  | H : (_ =? _) = true |- _ => apply Z.eqb_eq in H
  | H : (_ =? _) = false |- _ => apply Z.eqb_neq in H
  | H : (_ <? _) = true |- _ => apply Z.ltb_lt in H
  | H : (_ <? _) = false |- _ => apply Z.ltb_ge in H
  | H : (_ <=? _) = true |- _ => apply Z.leb_le in H
  | H : (_ <=? _) = false |- _ => apply Z.leb_gt in H
  end.

(** ** The ledger *)

Module LedgerFacts.
Import Ledger.

Lemma balanceOf_set_balance tok a token account v l :
  balanceOf tok a (set_balance token account v l) =
  if (tok =? token) && (a =? account) then v else balanceOf tok a l.
Proof.
  unfold balanceOf, set_balance; cbn.
  destruct (Z.eqb_spec tok token) as [->|Ht]; cbn.
  - destruct (Z.eqb_spec a account) as [->|Ha].
    + now rewrite lookup_insert_eq.
    + rewrite lookup_insert_ne by congruence. reflexivity.
  - rewrite lookup_insert_ne by congruence. reflexivity.
Qed.

Lemma balanceOf_set_allowance tok a token owner spender v l :
  balanceOf tok a (set_allowance token owner spender v l) = balanceOf tok a l.
Proof. reflexivity. Qed.

Lemma _update_moves token from to value l l' :
  _update token from to value l = Ok (tt, l') ->
  moves token from to value l l'.
Proof.
  unfold _update; monad_unfold.
  destruct (isPaused token l); [discriminate|].
  destruct (balanceOf token from l <? value) eqn:Hb; [discriminate|].
  intros [= <-]. bool_hyps. split; [lia|].
  intros tok a. rewrite !balanceOf_set_balance. unfold credit.
  destruct (Z.eqb_spec tok token) as [->|Ht]; cbn; [|lia].
  rewrite Z.eqb_refl; cbn.
  destruct (Z.eqb_spec a to) as [Hto|Hto], (Z.eqb_spec a from) as [Hfrom|Hfrom];
    subst; rewrite ?Z.eqb_refl; cbn; try lia.
  destruct (Z.eqb_spec to from); [congruence|lia].
Qed.

Lemma transfer_moves token caller to value l l' :
  transfer token caller to value l = Ok (tt, l') ->
  moves token caller to value l l'.
Proof.
  unfold transfer, _transfer.
  destruct (caller =? 0); [discriminate|].
  destruct (to =? 0); [discriminate|].
  apply _update_moves.
Qed.

Lemma _spendAllowance_balances token owner spender value l l' :
  _spendAllowance token owner spender value l = Ok (tt, l') ->
  balances l' = balances l.
Proof.
  unfold _spendAllowance; monad_unfold.
  destruct (_ <? MAX_UINT256); [|now intros [= <-]].
  destruct (_ <? value); [discriminate|].
  destruct (owner =? 0); [discriminate|].
  destruct (spender =? 0); [discriminate|].
  now intros [= <-].
Qed.

Lemma transferFrom_moves token caller from to value l l' :
  transferFrom token caller from to value l = Ok (tt, l') ->
  moves token from to value l l'.
Proof.
  unfold transferFrom, bind.
  destruct (_spendAllowance token from caller value l) as [[[] l1]|] eqn:Hs;
    [|discriminate].
  apply _spendAllowance_balances in Hs.
  unfold _transfer.
  destruct (from =? 0); [discriminate|].
  destruct (to =? 0); [discriminate|].
  intros H. apply _update_moves in H. destruct H as [Hle Hall].
  unfold moves, balanceOf in *. rewrite Hs in *. auto.
Qed.

End LedgerFacts.

(** ** EscrowWithExpiry *)

Module EscrowWithExpiryFacts.
Import EscrowWithExpiry.

Ltac state_simpl :=
  cbn [_offerIdCounter _offers offerExpiryTime _lastOfferTime _dailyOfferCount
       _paused _owner _entered ledger
       set_offerIdCounter set_offer set_offerExpiryTime set_lastOfferTime
       set_dailyOfferCount set_paused set_owner set_entered set_ledger
       negb fst snd].

Ltac state_unfold :=
  unfold nonReentrant, whenNotPaused, whenPaused, onlyOwner, safeTransferFrom,
    safeTransfer, onLedger, offerAt, lastOfferTime, dailyOfferCount;
  monad_unfold.

Ltac flat_step :=
  match goal with
  | |- _ = (if negb ?b then _ else _) => destruct b eqn:?; state_simpl
  | |- _ = (if ?b then _ else _) => destruct b eqn:?; state_simpl
  | |- _ = match ?x with Ok _ => _ | Err _ => _ end =>
      destruct x as [[[] ?]|?] eqn:?; state_simpl
  end; try reflexivity.

Ltac state_eq :=
  match goal with
  | s : State |- _ => destruct s; cbn in *; subst; reflexivity
  end.

(** *** The entry points as decision trees *)

Lemma acceptOffer_flat e i busd s :
  _entered s = false ->
  acceptOffer e i busd s =
    let o := offerAt i s in
    if _paused s then Err (Custom "EnforcedPause")
    else if negb (active o) then Err (Revert "Offer is not active")
    else if negb (msg_sender e =? buyer o)
      then Err (Revert "Not the designated buyer")
    else if busd =? 0 then Err (Revert "Invalid BUSD address")
    else if negb (block_timestamp e <=? expiresAt o)
      then Err (Revert "Offer has expired")
    else
      match Ledger.transferFrom busd (this e) (msg_sender e) (seller o)
                                (priceInBUSD o) (ledger s) with
      | Err err => Err err
      | Ok (_, l1) =>
          match Ledger.transfer (tokenAddress o) (this e) (msg_sender e)
                                (amount o) l1 with
          | Err err => Err err
          | Ok (_, l2) => Ok (tt, set_ledger l2 (set_offer i (deactivate o) s))
          end
      end.
Proof.
  intros Hent. unfold acceptOffer, acceptOffer_calling, erc20.
  cbn [onTransferFrom onTransfer]. state_unfold. rewrite Hent. state_simpl.
  repeat flat_step. state_eq.
Qed.

Lemma acceptOffer_calling_flat tokens e i busd s :
  _entered s = false ->
  acceptOffer_calling tokens e i busd s =
    let o := offerAt i s in
    if _paused s then Err (Custom "EnforcedPause")
    else if negb (active o) then Err (Revert "Offer is not active")
    else if negb (msg_sender e =? buyer o)
      then Err (Revert "Not the designated buyer")
    else if busd =? 0 then Err (Revert "Invalid BUSD address")
    else if negb (block_timestamp e <=? expiresAt o)
      then Err (Revert "Offer has expired")
    else
      match onTransferFrom tokens e busd (msg_sender e) (seller o)
                           (priceInBUSD o)
                           (set_offer i (deactivate o) (set_entered true s))
      with
      | Err err => Err err
      | Ok (_, paid) =>
          match onTransfer tokens e (tokenAddress o) (msg_sender e)
                           (amount o) paid with
          | Err err => Err err
          | Ok (_, delivered) => Ok (tt, set_entered false delivered)
          end
      end.
Proof.
  intros Hent. unfold acceptOffer_calling. state_unfold. rewrite Hent.
  state_simpl. repeat flat_step.
Qed.

Lemma cancelOffer_flat e i s :
  _entered s = false ->
  cancelOffer e i s =
    let o := offerAt i s in
    if _paused s then Err (Custom "EnforcedPause")
    else if negb (active o) then Err (Revert "Offer is not active")
    else if negb (msg_sender e =? seller o) then Err (Revert "Not the seller")
    else
      match Ledger.transfer (tokenAddress o) (this e) (msg_sender e)
                            (amount o) (ledger s) with
      | Err err => Err err
      | Ok (_, l1) => Ok (tt, set_ledger l1 (set_offer i (deactivate o) s))
      end.
Proof.
  intros Hent. unfold cancelOffer. state_unfold. rewrite Hent. state_simpl.
  repeat flat_step. state_eq.
Qed.

Lemma reclaimExpired_flat e i s :
  _entered s = false ->
  reclaimExpired e i s =
    let o := offerAt i s in
    if negb (active o) then Err (Revert "Offer is not active")
    else if negb (expiresAt o <? block_timestamp e)
      then Err (Revert "Offer has not expired yet")
    else
      match Ledger.transfer (tokenAddress o) (this e) (seller o)
                            (amount o) (ledger s) with
      | Err err => Err err
      | Ok (_, l1) => Ok (tt, set_ledger l1 (set_offer i (deactivate o) s))
      end.
Proof.
  intros Hent. unfold reclaimExpired. state_unfold. rewrite Hent. state_simpl.
  repeat flat_step. state_eq.
Qed.

Lemma createOffer_flat e tok amt price b s :
  _entered s = false ->
  createOffer e tok amt price b s =
    let sender := msg_sender e in
    let now := block_timestamp e in
    let last := lastOfferTime sender s in
    if _paused s then Err (Custom "EnforcedPause")
    else if tok =? 0 then Err (Revert "Invalid token address")
    else if negb (0 <? amt) then Err (Revert "Amount must be > 0")
    else if negb (0 <? price) then Err (Revert "Price must be > 0")
    else if b =? 0 then Err (Revert "Invalid buyer address")
    else if b =? sender then Err (Revert "Buyer cannot be seller")
    else if negb (last + OFFER_COOLDOWN <=? MAX_UINT256) then Err ARITHMETIC
    else if negb (last + OFFER_COOLDOWN <=? now)
      then Err (Revert "Cooldown period active")
    else if negb (last + ONE_DAY <=? MAX_UINT256) then Err ARITHMETIC
    else
      let s1 := if last + ONE_DAY <=? now
                then set_dailyOfferCount sender 0 s else s in
      let count := dailyOfferCount sender s1 in
      if negb (count <? MAX_OFFERS_PER_DAY)
        then Err (Revert "Daily offer limit reached")
      else if negb (count + 1 <=? MAX_UINT256) then Err ARITHMETIC
      else
        match Ledger.transferFrom tok (this e) sender (this e) amt
                                  (ledger s) with
        | Err err => Err err
        | Ok (_, l1) =>
            let offerId := _offerIdCounter s in
            if negb (offerId + 1 <=? MAX_UINT256) then Err ARITHMETIC
            else if negb (now + offerExpiryTime s <=? MAX_UINT256)
              then Err ARITHMETIC
            else
              Ok (offerId,
                  set_offer offerId
                    (mkOffer offerId sender b tok amt price true now
                             (now + offerExpiryTime s))
                    (set_offerIdCounter (offerId + 1)
                       (set_ledger l1
                          (set_dailyOfferCount sender (count + 1)
                             (set_lastOfferTime sender now s1)))))
        end.
Proof.
  intros Hent. unfold createOffer. state_unfold. rewrite Hent. state_simpl.
  do 9 flat_step.
  destruct (_ + ONE_DAY <=? block_timestamp e) eqn:?; state_simpl;
    repeat flat_step; state_eq.
Qed.

(** Case analysis of a flattened call that is known to have succeeded. *)
Ltac flat_inv H :=
  cbv zeta in H;
  repeat match type of H with
  | (if negb ?b then _ else _) = _ =>
      destruct b eqn:?; cbn [negb] in H; try discriminate H
  | (if ?b then _ else _) = _ => destruct b eqn:?; try discriminate H
  | match ?x with Ok _ => _ | Err _ => _ end = _ =>
      destruct x as [[[] ?]|?] eqn:?; try discriminate H
  end.

(** *** What a successful call did *)

Lemma acceptOffer_ok e i busd s s' :
  _entered s = false ->
  acceptOffer e i busd s = Ok (tt, s') ->
  let o := offerAt i s in
  _paused s = false /\ active o = true /\ msg_sender e = buyer o /\
  busd <> 0 /\ block_timestamp e <= expiresAt o /\
  exists l1,
    Ledger.transferFrom busd (this e) (buyer o) (seller o)
                        (priceInBUSD o) (ledger s) = Ok (tt, l1) /\
    Ledger.transfer (tokenAddress o) (this e) (buyer o) (amount o) l1
      = Ok (tt, ledger s') /\
    s' = set_ledger (ledger s') (set_offer i (deactivate o) s).
Proof.
  intros Hent H. rewrite acceptOffer_flat in H by assumption.
  flat_inv H. injection H as <-. bool_hyps. cbv zeta.
  match goal with Hb : msg_sender e = _ |- _ => rewrite <- Hb end.
  repeat split; try assumption. eexists; repeat split; eassumption.
Qed.

Lemma cancelOffer_ok e i s s' :
  _entered s = false ->
  cancelOffer e i s = Ok (tt, s') ->
  let o := offerAt i s in
  _paused s = false /\ active o = true /\ msg_sender e = seller o /\
  Ledger.transfer (tokenAddress o) (this e) (seller o) (amount o) (ledger s)
    = Ok (tt, ledger s') /\
  s' = set_ledger (ledger s') (set_offer i (deactivate o) s).
Proof.
  intros Hent H. rewrite cancelOffer_flat in H by assumption.
  flat_inv H. injection H as <-. bool_hyps. cbv zeta.
  match goal with Hb : msg_sender e = _ |- _ => rewrite <- Hb end.
  repeat split; assumption.
Qed.

Lemma reclaimExpired_ok e i s s' :
  _entered s = false ->
  reclaimExpired e i s = Ok (tt, s') ->
  let o := offerAt i s in
  active o = true /\ expiresAt o < block_timestamp e /\
  Ledger.transfer (tokenAddress o) (this e) (seller o) (amount o) (ledger s)
    = Ok (tt, ledger s') /\
  s' = set_ledger (ledger s') (set_offer i (deactivate o) s).
Proof.
  intros Hent H. rewrite reclaimExpired_flat in H by assumption.
  flat_inv H. injection H as <-. bool_hyps. cbv zeta.
  repeat split; assumption.
Qed.

Lemma dailyOfferCount_set a b v s :
  dailyOfferCount a (set_dailyOfferCount b v s) =
  if a =? b then v else dailyOfferCount a s.
Proof.
  unfold dailyOfferCount, set_dailyOfferCount; cbn.
  destruct (Z.eqb_spec a b) as [->|Hne].
  - now rewrite lookup_insert_eq.
  - now rewrite lookup_insert_ne by congruence.
Qed.

Lemma offerAt_set_offer i j o s :
  offerAt i (set_offer j o s) = if i =? j then o else offerAt i s.
Proof.
  unfold offerAt, set_offer; cbn.
  destruct (Z.eqb_spec i j) as [->|Hne].
  - now rewrite lookup_insert_eq.
  - now rewrite lookup_insert_ne by congruence.
Qed.

Lemma createOffer_ok e tok amt price b s i s' :
  _entered s = false ->
  createOffer e tok amt price b s = Ok (i, s') ->
  let sender := msg_sender e in
  let now := block_timestamp e in
  i = _offerIdCounter s /\
  _paused s = false /\ tok <> 0 /\ 0 < amt /\ 0 < price /\ b <> 0 /\
  b <> sender /\
  lastOfferTime sender s + OFFER_COOLDOWN <= now /\
  window_count e s < MAX_OFFERS_PER_DAY /\
  Ledger.transferFrom tok (this e) sender (this e) amt (ledger s)
    = Ok (tt, ledger s') /\
  _offerIdCounter s' = i + 1 /\
  _offers s' =
    <[i := mkOffer i sender b tok amt price true now
                   (now + offerExpiryTime s)]> (_offers s) /\
  offerExpiryTime s' = offerExpiryTime s /\
  _entered s' = false /\ _paused s' = false /\ _owner s' = _owner s /\
  lastOfferTime sender s' = now /\
  (forall a, dailyOfferCount a s' =
             if a =? sender then window_count e s + 1
             else dailyOfferCount a s).
Proof.
  intros Hent H. rewrite createOffer_flat in H by assumption.
  flat_inv H. injection H as <- <-. bool_hyps. cbv zeta. unfold window_count.
  state_simpl.
  assert (Hlast : forall s0,
    lastOfferTime (msg_sender e)
      (set_lastOfferTime (msg_sender e) (block_timestamp e) s0)
    = block_timestamp e).
  { intros s0. unfold lastOfferTime, set_lastOfferTime; cbn.
    now rewrite lookup_insert_eq. }
  destruct (_ + ONE_DAY <=? block_timestamp e) eqn:Hreset;
    rewrite ?dailyOfferCount_set, ?Z.eqb_refl in *;
    (repeat split; try assumption; try lia;
     [ unfold lastOfferTime; cbn; now rewrite lookup_insert_eq
     | intros a; unfold dailyOfferCount at 1; cbn;
       fold (dailyOfferCount a s);
       destruct (Z.eqb_spec a (msg_sender e)) as [->|Hne];
       [ now rewrite lookup_insert_eq
       | rewrite ?lookup_insert_ne by congruence; reflexivity ] ]).
Qed.

(** *** Every successful call is a creation, a settlement or administration *)

Ltac admin_inv H :=
  unfold nonReentrant, whenNotPaused, whenPaused, onlyOwner, safeTransferFrom,
    safeTransfer, onLedger in H;
  unfold add, sub, mul, div, when in H;
  unfold bind, ret, gets, modify, require, throw in H;
  repeat match type of H with
  | context [if ?b then _ else _] => destruct b eqn:?; try discriminate H
  | context [match ?x with Ok _ => _ | Err _ => _ end] =>
      destruct x as [[[] ?]|?] eqn:?; try discriminate H
  end;
  injection H as <-;
  cbn [_offerIdCounter _offers offerExpiryTime _lastOfferTime _dailyOfferCount
       _paused _owner _entered ledger
       set_offerIdCounter set_offer set_offerExpiryTime set_lastOfferTime
       set_dailyOfferCount set_paused set_owner set_entered set_ledger];
  bool_hyps.

Lemma exec_cases e c s s' :
  _entered s = false ->
  exec e c s = Ok (tt, s') ->
  (exists t a p b i, c = CreateOffer t a p b /\
     createOffer e t a p b s = Ok (i, s')) \/
  (exists i l, settles i (Tx e c) s = true /\
     active (offerAt i s) = true /\
     s' = set_ledger l (set_offer i (deactivate (offerAt i s)) s)) \/
  (_offerIdCounter s' = _offerIdCounter s /\ _offers s' = _offers s /\
   _lastOfferTime s' = _lastOfferTime s /\
   _dailyOfferCount s' = _dailyOfferCount s /\
   _entered s' = _entered s /\
   (offerExpiryTime s' = offerExpiryTime s \/
    ONE_MINUTE <= offerExpiryTime s' <= TWENTY_FOUR_HOURS)).
Proof.
  intros Hent H. destruct c; cbn [exec] in H.
  - left. unfold bind at 1, ret in H.
    destruct (createOffer e tokenAddress0 amount0 priceInBUSD0 buyer0 s)
      as [[i s1]|] eqn:Hc; [|discriminate].
    injection H as <-. eauto 10.
  - right; left. exists offerId, (ledger s').
    cbn [settles]. rewrite Z.eqb_refl, H. cbn.
    apply acceptOffer_ok in H; [|assumption].
    destruct H as (_ & Ha & _ & _ & _ & l1 & _ & _ & Hs). auto.
  - right; left. exists offerId, (ledger s').
    cbn [settles]. rewrite Z.eqb_refl, H. cbn.
    apply cancelOffer_ok in H; [|assumption].
    destruct H as (_ & Ha & _ & _ & Hs). auto.
  - right; left. exists offerId, (ledger s').
    cbn [settles]. rewrite Z.eqb_refl, H. cbn.
    apply reclaimExpired_ok in H; [|assumption].
    destruct H as (Ha & _ & _ & Hs). auto.
  - right; right. unfold updateExpiryTime in H. admin_inv H. auto 10.
  - right; right. unfold pause in H. admin_inv H. auto 10.
  - right; right. unfold unpause in H. admin_inv H. auto 10.
  - right; right. unfold emergencyWithdraw in H. admin_inv H. auto 10.
  - right; right. unfold transferOwnership in H. admin_inv H. auto 10.
  - right; right. unfold renounceOwnership in H. admin_inv H. auto 10.
Qed.

(** *** The invariant holds in every reachable state *)

Lemma active_created i s :
  active (offerAt i s) = true ->
  exists o, _offers s !! i = Some o /\ offerAt i s = o.
Proof.
  unfold offerAt. destruct (_offers s !! i) as [o|]; cbn; [eauto|discriminate].
Qed.

Lemma constructor_Inv deployer l : Inv (constructor deployer l).
Proof.
  split; cbn; try reflexivity.
  - unfold ONE_MINUTE, TWENTY_FOUR_HOURS, DEFAULT_EXPIRY_TIME; lia.
  - intros j o H. rewrite lookup_empty in H. discriminate.
  - intros a. unfold dailyOfferCount; cbn. rewrite lookup_empty; cbn.
    unfold MAX_OFFERS_PER_DAY; lia.
Qed.

Lemma window_count_bounds e s :
  Inv s -> 0 <= window_count e s <= MAX_OFFERS_PER_DAY.
Proof.
  intros HI. unfold window_count.
  destruct (_ <=? _); [unfold MAX_OFFERS_PER_DAY; lia | apply (inv_count s HI)].
Qed.

Lemma settled_Inv i l s :
  Inv s -> active (offerAt i s) = true ->
  Inv (set_ledger l (set_offer i (deactivate (offerAt i s)) s)).
Proof.
  intros HI Hact. destruct (active_created i s Hact) as (o & Ho & ->).
  split; state_simpl; try apply HI.
  intros j o' Hj. rewrite lookup_insert in Hj.
  destruct (decide (i = j)) as [<-|Hne].
  - injection Hj as <-. cbn. apply (inv_offers s HI i o Ho).
  - apply (inv_offers s HI j o' Hj).
Qed.

Lemma exec_Inv e c s s' :
  Inv s -> exec e c s = Ok (tt, s') -> Inv s'.
Proof.
  intros HI H.
  destruct (exec_cases e c s s' (inv_entered s HI) H)
    as [(t & amt & p & b & i & -> & Hc)
       |[(i & l & _ & Hact & ->)
        |(Hcnt & Hoff & Hlast & Hday & Hent & Hexp)]].
  - apply createOffer_ok in Hc; [|apply HI]. cbv zeta in Hc.
    destruct Hc as (-> & _ & _ & _ & _ & _ & _ & _ & Hwin & _ & Hcnt & Hoff
                    & Hexp & Hent & _ & _ & _ & Hday).
    pose proof (inv_expiry s HI) as Hrange.
    split.
    + assumption.
    + rewrite Hexp. assumption.
    + intros j o Hj. rewrite Hoff, lookup_insert in Hj. rewrite Hcnt.
      destruct (decide (_offerIdCounter s = j)) as [<-|Hne].
      * injection Hj as <-. cbn. lia.
      * destruct (inv_offers s HI j o Hj). lia.
    + intros a. rewrite Hday.
      pose proof (window_count_bounds e s HI).
      destruct (a =? msg_sender e); [lia | apply (inv_count s HI)].
  - now apply settled_Inv.
  - split.
    + rewrite Hent. apply HI.
    + destruct Hexp as [->|?]; [apply HI | assumption].
    + rewrite Hoff, Hcnt. apply HI.
    + intros a. unfold dailyOfferCount. rewrite Hday. apply (inv_count s HI).
Qed.

Lemma step_Inv ev s : Inv s -> Inv (step ev s).
Proof.
  intros HI. destruct ev as [e c|l]; cbn [step].
  - unfold commit. destruct (exec e c s) as [[[] s']|] eqn:H; [|assumption].
    eapply exec_Inv; eassumption.
  - split; state_simpl; apply HI.
Qed.

Lemma reachable_Inv s : reachable s -> Inv s.
Proof.
  induction 1; [apply constructor_Inv | now apply step_Inv].
Qed.

Lemma run_Inv evs s : Inv s -> Inv (run evs s).
Proof.
  revert s; induction evs as [|ev evs IH]; intros s HI; cbn; [assumption|].
  apply IH, step_Inv, HI.
Qed.

(** *** An offer is settled at most once *)

Lemma settles_active i ev s :
  Inv s -> settles i ev s = true ->
  active (offerAt i s) = true /\ i < _offerIdCounter s /\
  exists l, step ev s = set_ledger l (set_offer i (deactivate (offerAt i s)) s).
Proof.
  intros HI Hs. pose proof (inv_entered s HI) as Hent.
  assert (Hcreated : active (offerAt i s) = true -> i < _offerIdCounter s).
  { intros Ha. destruct (active_created i s Ha) as (o & Ho & _).
    apply (inv_offers s HI i o Ho). }
  destruct ev as [e [| j busd | j | j | | | | | |]|l]; cbn [settles] in Hs;
    try discriminate; apply andb_true_iff in Hs; destruct Hs as [Hj Hok];
    apply Z.eqb_eq in Hj; subst j; cbn [step exec]; unfold commit.
  - destruct (acceptOffer e i busd s) as [[[] s']|] eqn:H; [|discriminate].
    apply acceptOffer_ok in H; [|assumption].
    destruct H as (_ & Ha & _ & _ & _ & l1 & _ & _ & Hs'). eauto.
  - destruct (cancelOffer e i s) as [[[] s']|] eqn:H; [|discriminate].
    apply cancelOffer_ok in H; [|assumption].
    destruct H as (_ & Ha & _ & _ & Hs'). eauto.
  - destruct (reclaimExpired e i s) as [[[] s']|] eqn:H; [|discriminate].
    apply reclaimExpired_ok in H; [|assumption].
    destruct H as (Ha & _ & _ & Hs'). eauto.
Qed.

Lemma step_terminal i ev s :
  Inv s -> terminal i s -> terminal i (step ev s).
Proof.
  intros HI [Hlt Hina]. destruct ev as [e c|l]; cbn [step]; [|now split].
  unfold commit. destruct (exec e c s) as [[[] s']|] eqn:H; [|now split].
  destruct (exec_cases e c s s' (inv_entered s HI) H)
    as [(t & amt & p & b & j & -> & Hc)
       |[(j & l & _ & Hact & ->)
        |(Hcnt & Hoff & _)]].
  - apply createOffer_ok in Hc; [|apply HI]. cbv zeta in Hc.
    destruct Hc as (-> & _ & _ & _ & _ & _ & _ & _ & _ & _ & Hcnt & Hoff & _).
    split; [lia|]. unfold offerAt in *. rewrite Hoff.
    rewrite lookup_insert_ne by lia. assumption.
  - split; [assumption|].
    change (offerAt i (set_ledger l (set_offer j (deactivate (offerAt j s)) s)))
      with (offerAt i (set_offer j (deactivate (offerAt j s)) s)).
    rewrite offerAt_set_offer. destruct (i =? j); [reflexivity|assumption].
  - split; [lia|]. unfold offerAt in *. now rewrite Hoff.
Qed.

Lemma terminal_not_settled i ev s :
  Inv s -> terminal i s -> settles i ev s = false.
Proof.
  intros HI [_ Hina]. destruct (settles i ev s) eqn:Hs; [|reflexivity].
  apply settles_active in Hs; [|assumption]. destruct Hs as [Ha _]. congruence.
Qed.

Lemma settlements_terminal i evs s :
  Inv s -> terminal i s -> settlements i evs s = O.
Proof.
  revert s; induction evs as [|ev evs IH]; intros s HI Ht; cbn; [reflexivity|].
  rewrite terminal_not_settled by assumption.
  rewrite IH; [reflexivity | now apply step_Inv | now apply step_terminal].
Qed.

Lemma settlements_at_most_once i evs s :
  Inv s -> (settlements i evs s <= 1)%nat.
Proof.
  revert s; induction evs as [|ev evs IH]; intros s HI; cbn; [lia|].
  destruct (settles i ev s) eqn:Hs.
  - destruct (settles_active i ev s HI Hs) as (Ha & Hlt & l & Hstep).
    rewrite settlements_terminal; [lia | now apply step_Inv |].
    rewrite Hstep. split; [assumption|].
    change (offerAt i (set_ledger l (set_offer i (deactivate (offerAt i s)) s)))
      with (offerAt i (set_offer i (deactivate (offerAt i s)) s)).
    now rewrite offerAt_set_offer, Z.eqb_refl.
  - specialize (IH (step ev s) (step_Inv ev s HI)). lia.
Qed.

(** *** Inactive offers, offers never created, and the stored record *)

Lemma inactive_rejected e i busd s :
  _entered s = false -> active (offerAt i s) = false ->
  let err := if _paused s then Custom "EnforcedPause"
             else Revert "Offer is not active" in
  acceptOffer e i busd s = Err err /\
  cancelOffer e i s = Err err /\
  reclaimExpired e i s = Err (Revert "Offer is not active").
Proof.
  intros Hent Hina. cbv zeta.
  rewrite acceptOffer_flat, cancelOffer_flat, reclaimExpired_flat by assumption.
  cbv zeta. rewrite Hina. cbn [negb]. destruct (_paused s); auto.
Qed.

Lemma never_created_absent i s :
  Inv s -> _offerIdCounter s <= i -> _offers s !! i = None.
Proof.
  intros HI Hle. destruct (_offers s !! i) as [o|] eqn:Ho; [|reflexivity].
  destruct (inv_offers s HI i o Ho). lia.
Qed.

Lemma never_created_zero i s :
  Inv s -> _offerIdCounter s <= i -> offerAt i s = zeroOffer.
Proof.
  intros HI Hle. unfold offerAt. now rewrite never_created_absent.
Qed.

Lemma step_offer_frozen ev i s :
  Inv s -> i < _offerIdCounter s ->
  deactivate (offerAt i (step ev s)) = deactivate (offerAt i s).
Proof.
  intros HI Hlt. destruct ev as [e c|l]; cbn [step]; [|reflexivity].
  unfold commit. destruct (exec e c s) as [[[] s']|] eqn:H; [|reflexivity].
  destruct (exec_cases e c s s' (inv_entered s HI) H)
    as [(t & amt & p & b & j & -> & Hc)
       |[(j & l & _ & Hact & ->)
        |(Hcnt & Hoff & _)]].
  - apply createOffer_ok in Hc; [|apply HI]. cbv zeta in Hc.
    destruct Hc as (-> & _ & _ & _ & _ & _ & _ & _ & _ & _ & Hcnt & Hoff & _).
    unfold offerAt. rewrite Hoff, lookup_insert_ne by lia. reflexivity.
  - change (offerAt i (set_ledger l (set_offer j (deactivate (offerAt j s)) s)))
      with (offerAt i (set_offer j (deactivate (offerAt j s)) s)).
    rewrite offerAt_set_offer. destruct (Z.eqb_spec i j) as [->|]; reflexivity.
  - unfold offerAt. now rewrite Hoff.
Qed.

(** *** The expiry time and the daily counter *)

Lemma updateExpiryTime_ok e n s s' :
  updateExpiryTime e n s = Ok (tt, s') ->
  _owner s = msg_sender e /\ ONE_MINUTE <= n <= TWENTY_FOUR_HOURS /\
  s' = set_offerExpiryTime n s.
Proof.
  intros H. unfold updateExpiryTime in H. admin_inv H. auto.
Qed.

Lemma step_dailyOfferCount ev a s :
  Inv s ->
  dailyOfferCount a (step ev s) = dailyOfferCount a s \/
  exists e tok amt price b,
    ev = Tx e (CreateOffer tok amt price b) /\ msg_sender e = a /\
    isOk (createOffer e tok amt price b s) = true /\
    dailyOfferCount a (step ev s) = window_count e s + 1.
Proof.
  intros HI. destruct ev as [e c|l]; cbn [step]; [|now left].
  unfold commit. destruct (exec e c s) as [[[] s']|] eqn:H; [|now left].
  destruct (exec_cases e c s s' (inv_entered s HI) H)
    as [(t & amt & p & b & j & -> & Hc)
       |[(j & l & _ & Hact & ->)
        |(_ & _ & _ & Hday & _)]].
  - pose proof Hc as Hok.
    apply createOffer_ok in Hc; [|apply HI]. cbv zeta in Hc.
    destruct Hc as (_ & _ & _ & _ & _ & _ & _ & _ & _ & _ & _ & _ & _ & _ & _
                    & _ & _ & Hday).
    rewrite Hday. destruct (Z.eqb_spec a (msg_sender e)) as [->|Hne];
      [right|now left].
    exists e, t, amt, p, b. rewrite Hok. auto.
  - now left.
  - left. unfold dailyOfferCount. now rewrite Hday.
Qed.

Lemma createOffer_daily_limit e tok amt price b s :
  _entered s = false -> _paused s = false ->
  tok <> 0 -> 0 < amt -> 0 < price -> b <> 0 -> b <> msg_sender e ->
  block_timestamp e + ONE_DAY <= MAX_UINT256 ->
  lastOfferTime (msg_sender e) s + OFFER_COOLDOWN <= block_timestamp e ->
  MAX_OFFERS_PER_DAY <= window_count e s ->
  createOffer e tok amt price b s = Err (Revert "Daily offer limit reached").
Proof.
  intros Hent Hp Htok Hamt Hprice Hb Hbs Hnow Hcool Hfull.
  rewrite createOffer_flat by assumption. cbv zeta. rewrite Hp.
  apply Z.eqb_neq in Htok, Hb, Hbs. rewrite Htok, Hb, Hbs.
  apply Z.ltb_lt in Hamt, Hprice. rewrite Hamt, Hprice. cbn [negb].
  unfold OFFER_COOLDOWN, ONE_DAY in *.
  replace (_ + 10 <=? MAX_UINT256) with true by (symmetry; apply Z.leb_le; lia).
  replace (_ + 10 <=? block_timestamp e) with true
    by (symmetry; apply Z.leb_le; lia).
  replace (_ + 86400 <=? MAX_UINT256) with true
    by (symmetry; apply Z.leb_le; lia).
  cbn [negb]. unfold window_count, ONE_DAY in Hfull.
  destruct (_ + 86400 <=? block_timestamp e).
  - unfold MAX_OFFERS_PER_DAY in Hfull. lia.
  - replace (_ <? MAX_OFFERS_PER_DAY) with false
      by (symmetry; apply Z.ltb_ge; lia).
    reflexivity.
Qed.

End EscrowWithExpiryFacts.

(** ** Escrow *)

Module EscrowFacts.
Import Escrow.

Ltac state_simpl :=
  cbn [_offerIdCounter _offers _lastOfferTime _dailyOfferCount
       platformFeePercent feeCollector _paused _owner _entered ledger
       set_offerIdCounter set_offer set_lastOfferTime set_dailyOfferCount
       set_platformFeePercent set_feeCollector set_paused set_owner
       set_entered set_ledger negb fst snd].

Ltac state_unfold :=
  unfold nonReentrant, whenNotPaused, whenPaused, onlyOwner, safeTransferFrom,
    safeTransfer, onLedger, offerAt, lastOfferTime, dailyOfferCount;
  monad_unfold.

Ltac flat_step :=
  match goal with
  | |- _ = (if negb ?b then _ else _) => destruct b eqn:?; state_simpl
  | |- _ = (if ?b then _ else _) => destruct b eqn:?; state_simpl
  | |- _ = match ?x with Ok _ => _ | Err _ => _ end =>
      destruct x as [[[] ?]|?] eqn:?; state_simpl
  end; try reflexivity.

Ltac state_eq :=
  match goal with
  | s : State |- _ => destruct s; cbn in *; subst; reflexivity
  end.

(** *** The entry points as decision trees *)

Lemma plain_acceptOffer_flat e i busd s :
  _entered s = false ->
  acceptOffer e i busd s =
    let o := offerAt i s in
    if _paused s then Err (Custom "EnforcedPause")
    else if negb (active o) then Err (Revert "Escrow: offer is not active")
    else if negb (msg_sender e =? buyer o)
      then Err (Revert "Escrow: caller is not the designated buyer")
    else if busd =? 0 then Err (Revert "Escrow: invalid BUSD address")
    else
      match Ledger.transferFrom busd (this e) (msg_sender e) (seller o)
                                (priceInBUSD o) (ledger s) with
      | Err err => Err err
      | Ok (_, l1) =>
          match Ledger.transfer (tokenAddress o) (this e) (msg_sender e)
                                (amount o) l1 with
          | Err err => Err err
          | Ok (_, l2) => Ok (tt, set_ledger l2 (set_offer i (deactivate o) s))
          end
      end.
Proof.
  intros Hent. unfold acceptOffer, acceptOffer_calling, erc20.
  cbn [onTransferFrom onTransfer]. state_unfold. rewrite Hent. state_simpl.
  repeat flat_step. state_eq.
Qed.

Lemma plain_acceptOffer_calling_flat tokens e i busd s :
  _entered s = false ->
  acceptOffer_calling tokens e i busd s =
    let o := offerAt i s in
    if _paused s then Err (Custom "EnforcedPause")
    else if negb (active o) then Err (Revert "Escrow: offer is not active")
    else if negb (msg_sender e =? buyer o)
      then Err (Revert "Escrow: caller is not the designated buyer")
    else if busd =? 0 then Err (Revert "Escrow: invalid BUSD address")
    else
      match onTransferFrom tokens e busd (msg_sender e) (seller o)
                           (priceInBUSD o)
                           (set_offer i (deactivate o) (set_entered true s))
      with
      | Err err => Err err
      | Ok (_, paid) =>
          match onTransfer tokens e (tokenAddress o) (msg_sender e)
                           (amount o) paid with
          | Err err => Err err
          | Ok (_, delivered) => Ok (tt, set_entered false delivered)
          end
      end.
Proof.
  intros Hent. unfold acceptOffer_calling. state_unfold. rewrite Hent.
  state_simpl. repeat flat_step.
Qed.

Lemma plain_cancelOffer_flat e i s :
  _entered s = false ->
  cancelOffer e i s =
    let o := offerAt i s in
    if _paused s then Err (Custom "EnforcedPause")
    else if negb (active o) then Err (Revert "Escrow: offer is not active")
    else if negb (msg_sender e =? seller o) then Err (Revert "Escrow: caller is not the seller")
    else
      match Ledger.transfer (tokenAddress o) (this e) (msg_sender e)
                            (amount o) (ledger s) with
      | Err err => Err err
      | Ok (_, l1) => Ok (tt, set_ledger l1 (set_offer i (deactivate o) s))
      end.
Proof.
  intros Hent. unfold cancelOffer. state_unfold. rewrite Hent. state_simpl.
  repeat flat_step. state_eq.
Qed.

Lemma plain_createOffer_flat e tok amt price b s :
  _entered s = false ->
  createOffer e tok amt price b s =
    let sender := msg_sender e in
    let now := block_timestamp e in
    let last := lastOfferTime sender s in
    if _paused s then Err (Custom "EnforcedPause")
    else if tok =? 0 then Err (Revert "Escrow: invalid token address")
    else if negb (0 <? amt) then Err (Revert "Escrow: amount must be greater than 0")
    else if negb (0 <? price) then Err (Revert "Escrow: price must be greater than 0")
    else if b =? 0 then Err (Revert "Escrow: invalid buyer address")
    else if b =? sender then Err (Revert "Escrow: buyer cannot be seller")
    else if negb (last + OFFER_COOLDOWN <=? MAX_UINT256) then Err ARITHMETIC
    else if negb (last + OFFER_COOLDOWN <=? now)
      then Err (Revert "Escrow: cooldown period active")
    else if negb (last + ONE_DAY <=? MAX_UINT256) then Err ARITHMETIC
    else
      let s1 := if last + ONE_DAY <=? now
                then set_dailyOfferCount sender 0 s else s in
      let count := dailyOfferCount sender s1 in
      if negb (count <? MAX_OFFERS_PER_DAY)
        then Err (Revert "Escrow: daily offer limit reached")
      else if negb (count + 1 <=? MAX_UINT256) then Err ARITHMETIC
      else
        match Ledger.transferFrom tok (this e) sender (this e) amt
                                  (ledger s) with
        | Err err => Err err
        | Ok (_, l1) =>
            let offerId := _offerIdCounter s in
            if negb (offerId + 1 <=? MAX_UINT256) then Err ARITHMETIC
            else
              Ok (offerId,
                  set_offer offerId
                    (mkOffer offerId sender b tok amt price true now)
                    (set_offerIdCounter (offerId + 1)
                       (set_ledger l1
                          (set_dailyOfferCount sender (count + 1)
                             (set_lastOfferTime sender now s1)))))
        end.
Proof.
  intros Hent. unfold createOffer. state_unfold. rewrite Hent. state_simpl.
  do 9 flat_step.
  destruct (_ + ONE_DAY <=? block_timestamp e) eqn:?; state_simpl;
    repeat flat_step; state_eq.
Qed.

(** Case analysis of a flattened call that is known to have succeeded. *)
Ltac flat_inv H :=
  cbv zeta in H;
  repeat match type of H with
  | (if negb ?b then _ else _) = _ =>
      destruct b eqn:?; cbn [negb] in H; try discriminate H
  | (if ?b then _ else _) = _ => destruct b eqn:?; try discriminate H
  | match ?x with Ok _ => _ | Err _ => _ end = _ =>
      destruct x as [[[] ?]|?] eqn:?; try discriminate H
  end.

(** *** What a successful call did *)

Lemma plain_acceptOffer_ok e i busd s s' :
  _entered s = false ->
  acceptOffer e i busd s = Ok (tt, s') ->
  let o := offerAt i s in
  _paused s = false /\ active o = true /\ msg_sender e = buyer o /\
  busd <> 0 /\
  exists l1,
    Ledger.transferFrom busd (this e) (buyer o) (seller o)
                        (priceInBUSD o) (ledger s) = Ok (tt, l1) /\
    Ledger.transfer (tokenAddress o) (this e) (buyer o) (amount o) l1
      = Ok (tt, ledger s') /\
    s' = set_ledger (ledger s') (set_offer i (deactivate o) s).
Proof.
  intros Hent H. rewrite plain_acceptOffer_flat in H by assumption.
  flat_inv H. injection H as <-. bool_hyps. cbv zeta.
  match goal with Hb : msg_sender e = _ |- _ => rewrite <- Hb end.
  repeat split; try assumption. eexists; repeat split; eassumption.
Qed.

Lemma plain_cancelOffer_ok e i s s' :
  _entered s = false ->
  cancelOffer e i s = Ok (tt, s') ->
  let o := offerAt i s in
  _paused s = false /\ active o = true /\ msg_sender e = seller o /\
  Ledger.transfer (tokenAddress o) (this e) (seller o) (amount o) (ledger s)
    = Ok (tt, ledger s') /\
  s' = set_ledger (ledger s') (set_offer i (deactivate o) s).
Proof.
  intros Hent H. rewrite plain_cancelOffer_flat in H by assumption.
  flat_inv H. injection H as <-. bool_hyps. cbv zeta.
  match goal with Hb : msg_sender e = _ |- _ => rewrite <- Hb end.
  repeat split; assumption.
Qed.

Lemma plain_dailyOfferCount_set a b v s :
  dailyOfferCount a (set_dailyOfferCount b v s) =
  if a =? b then v else dailyOfferCount a s.
Proof.
  unfold dailyOfferCount, set_dailyOfferCount; cbn.
  destruct (Z.eqb_spec a b) as [->|Hne].
  - now rewrite lookup_insert_eq.
  - now rewrite lookup_insert_ne by congruence.
Qed.

Lemma plain_offerAt_set_offer i j o s :
  offerAt i (set_offer j o s) = if i =? j then o else offerAt i s.
Proof.
  unfold offerAt, set_offer; cbn.
  destruct (Z.eqb_spec i j) as [->|Hne].
  - now rewrite lookup_insert_eq.
  - now rewrite lookup_insert_ne by congruence.
Qed.

Lemma plain_createOffer_ok e tok amt price b s i s' :
  _entered s = false ->
  createOffer e tok amt price b s = Ok (i, s') ->
  let sender := msg_sender e in
  let now := block_timestamp e in
  i = _offerIdCounter s /\
  _paused s = false /\ tok <> 0 /\ 0 < amt /\ 0 < price /\ b <> 0 /\
  b <> sender /\
  lastOfferTime sender s + OFFER_COOLDOWN <= now /\
  window_count e s < MAX_OFFERS_PER_DAY /\
  Ledger.transferFrom tok (this e) sender (this e) amt (ledger s)
    = Ok (tt, ledger s') /\
  _offerIdCounter s' = i + 1 /\
  _offers s' =
    <[i := mkOffer i sender b tok amt price true now]> (_offers s) /\
  _entered s' = false /\ _paused s' = false /\ _owner s' = _owner s /\
  lastOfferTime sender s' = now /\
  (forall a, dailyOfferCount a s' =
             if a =? sender then window_count e s + 1
             else dailyOfferCount a s).
Proof.
  intros Hent H. rewrite plain_createOffer_flat in H by assumption.
  flat_inv H. injection H as <- <-. bool_hyps. cbv zeta. unfold window_count.
  state_simpl.
  assert (Hlast : forall s0,
    lastOfferTime (msg_sender e)
      (set_lastOfferTime (msg_sender e) (block_timestamp e) s0)
    = block_timestamp e).
  { intros s0. unfold lastOfferTime, set_lastOfferTime; cbn.
    now rewrite lookup_insert_eq. }
  destruct (_ + ONE_DAY <=? block_timestamp e) eqn:Hreset;
    rewrite ?plain_dailyOfferCount_set, ?Z.eqb_refl in *;
    (repeat split; try assumption; try lia;
     [ unfold lastOfferTime; cbn; now rewrite lookup_insert_eq
     | intros a; unfold dailyOfferCount at 1; cbn;
       fold (dailyOfferCount a s);
       destruct (Z.eqb_spec a (msg_sender e)) as [->|Hne];
       [ now rewrite lookup_insert_eq
       | rewrite ?lookup_insert_ne by congruence; reflexivity ] ]).
Qed.

(** *** Every successful call is a creation, a settlement or administration *)

Ltac admin_inv H :=
  unfold nonReentrant, whenNotPaused, whenPaused, onlyOwner, safeTransferFrom,
    safeTransfer, onLedger in H;
  unfold add, sub, mul, div, when in H;
  unfold bind, ret, gets, modify, require, throw in H;
  repeat match type of H with
  | context [if ?b then _ else _] => destruct b eqn:?; try discriminate H
  | context [match ?x with Ok _ => _ | Err _ => _ end] =>
      destruct x as [[[] ?]|?] eqn:?; try discriminate H
  end;
  injection H as <-;
  cbn [_offerIdCounter _offers _lastOfferTime _dailyOfferCount
       platformFeePercent feeCollector _paused _owner _entered ledger
       set_offerIdCounter set_offer set_lastOfferTime set_dailyOfferCount
       set_platformFeePercent set_feeCollector set_paused set_owner
       set_entered set_ledger];
  bool_hyps.

Lemma plain_exec_cases e c s s' :
  _entered s = false ->
  exec e c s = Ok (tt, s') ->
  (exists t a p b i, c = CreateOffer t a p b /\
     createOffer e t a p b s = Ok (i, s')) \/
  (exists i l, settles i (Tx e c) s = true /\
     active (offerAt i s) = true /\
     s' = set_ledger l (set_offer i (deactivate (offerAt i s)) s)) \/
  (_offerIdCounter s' = _offerIdCounter s /\ _offers s' = _offers s /\
   _lastOfferTime s' = _lastOfferTime s /\
   _dailyOfferCount s' = _dailyOfferCount s /\
   _entered s' = _entered s).
Proof.
  intros Hent H. destruct c; cbn [exec] in H.
  - left. unfold bind at 1, ret in H.
    destruct (createOffer e tokenAddress0 amount0 priceInBUSD0 buyer0 s)
      as [[i s1]|] eqn:Hc; [|discriminate].
    injection H as <-. eauto 10.
  - right; left. exists offerId, (ledger s').
    cbn [settles]. rewrite Z.eqb_refl, H. cbn.
    apply plain_acceptOffer_ok in H; [|assumption].
    destruct H as (_ & Ha & _ & _ & l1 & _ & _ & Hs). auto.
  - right; left. exists offerId, (ledger s').
    cbn [settles]. rewrite Z.eqb_refl, H. cbn.
    apply plain_cancelOffer_ok in H; [|assumption].
    destruct H as (_ & Ha & _ & _ & Hs). auto.
  - right; right. unfold pause in H. admin_inv H. auto 10.
  - right; right. unfold unpause in H. admin_inv H. auto 10.
  - right; right. unfold emergencyWithdraw in H. admin_inv H. auto 10.
  - right; right. unfold updateFee in H. admin_inv H. auto 10.
  - right; right. unfold updateFeeCollector in H. admin_inv H. auto 10.
  - right; right. unfold transferOwnership in H. admin_inv H. auto 10.
  - right; right. unfold renounceOwnership in H. admin_inv H. auto 10.
Qed.

(** *** The invariant holds in every reachable state *)

Lemma plain_active_created i s :
  active (offerAt i s) = true ->
  exists o, _offers s !! i = Some o /\ offerAt i s = o.
Proof.
  unfold offerAt. destruct (_offers s !! i) as [o|]; cbn; [eauto|discriminate].
Qed.

Lemma plain_constructor_Inv deployer l : Inv (constructor deployer l).
Proof.
  split; cbn; try reflexivity.
  - intros j o H. rewrite lookup_empty in H. discriminate.
  - intros a. unfold dailyOfferCount; cbn. rewrite lookup_empty; cbn.
    unfold MAX_OFFERS_PER_DAY; lia.
Qed.

Lemma plain_window_count_bounds e s :
  Inv s -> 0 <= window_count e s <= MAX_OFFERS_PER_DAY.
Proof.
  intros HI. unfold window_count.
  destruct (_ <=? _); [unfold MAX_OFFERS_PER_DAY; lia | apply (inv_count s HI)].
Qed.

Lemma plain_settled_Inv i l s :
  Inv s -> active (offerAt i s) = true ->
  Inv (set_ledger l (set_offer i (deactivate (offerAt i s)) s)).
Proof.
  intros HI Hact. destruct (plain_active_created i s Hact) as (o & Ho & ->).
  split; state_simpl; try apply HI.
  intros j o' Hj. rewrite lookup_insert in Hj.
  destruct (decide (i = j)) as [<-|Hne].
  - apply (inv_offers s HI i o Ho).
  - apply (inv_offers s HI j o' Hj).
Qed.

Lemma plain_exec_Inv e c s s' :
  Inv s -> exec e c s = Ok (tt, s') -> Inv s'.
Proof.
  intros HI H.
  destruct (plain_exec_cases e c s s' (inv_entered s HI) H)
    as [(t & amt & p & b & i & -> & Hc)
       |[(i & l & _ & Hact & ->)
        |(Hcnt & Hoff & Hlast & Hday & Hent)]].
  - apply plain_createOffer_ok in Hc; [|apply HI]. cbv zeta in Hc.
    destruct Hc as (-> & _ & _ & _ & _ & _ & _ & _ & Hwin & _ & Hcnt & Hoff
                    & Hent & _ & _ & _ & Hday).
    split.
    + assumption.
    + intros j o Hj. rewrite Hoff, lookup_insert in Hj. rewrite Hcnt.
      destruct (decide (_offerIdCounter s = j)) as [<-|Hne].
      * lia.
      * pose proof (inv_offers s HI j o Hj). lia.
    + intros a. rewrite Hday.
      pose proof (plain_window_count_bounds e s HI).
      destruct (a =? msg_sender e); [lia | apply (inv_count s HI)].
  - now apply plain_settled_Inv.
  - split.
    + rewrite Hent. apply HI.
    + rewrite Hoff, Hcnt. apply HI.
    + intros a. unfold dailyOfferCount. rewrite Hday. apply (inv_count s HI).
Qed.

Lemma plain_step_Inv ev s : Inv s -> Inv (step ev s).
Proof.
  intros HI. destruct ev as [e c|l]; cbn [step].
  - unfold commit. destruct (exec e c s) as [[[] s']|] eqn:H; [|assumption].
    eapply plain_exec_Inv; eassumption.
  - split; state_simpl; apply HI.
Qed.

Lemma plain_reachable_Inv s : reachable s -> Inv s.
Proof.
  induction 1; [apply plain_constructor_Inv | now apply plain_step_Inv].
Qed.

Lemma plain_run_Inv evs s : Inv s -> Inv (run evs s).
Proof.
  revert s; induction evs as [|ev evs IH]; intros s HI; cbn; [assumption|].
  apply IH, plain_step_Inv, HI.
Qed.

(** *** An offer is settled at most once *)

Lemma plain_settles_active i ev s :
  Inv s -> settles i ev s = true ->
  active (offerAt i s) = true /\ i < _offerIdCounter s /\
  exists l, step ev s = set_ledger l (set_offer i (deactivate (offerAt i s)) s).
Proof.
  intros HI Hs. pose proof (inv_entered s HI) as Hent.
  assert (Hcreated : active (offerAt i s) = true -> i < _offerIdCounter s).
  { intros Ha. destruct (plain_active_created i s Ha) as (o & Ho & _).
    apply (inv_offers s HI i o Ho). }
  destruct ev as [e [| j busd | j | | | | | | |]|l]; cbn [settles] in Hs;
    try discriminate; apply andb_true_iff in Hs; destruct Hs as [Hj Hok];
    apply Z.eqb_eq in Hj; subst j; cbn [step exec]; unfold commit.
  - destruct (acceptOffer e i busd s) as [[[] s']|] eqn:H; [|discriminate].
    apply plain_acceptOffer_ok in H; [|assumption].
    destruct H as (_ & Ha & _ & _ & l1 & _ & _ & Hs'). eauto.
  - destruct (cancelOffer e i s) as [[[] s']|] eqn:H; [|discriminate].
    apply plain_cancelOffer_ok in H; [|assumption].
    destruct H as (_ & Ha & _ & _ & Hs'). eauto.
Qed.

Lemma plain_step_terminal i ev s :
  Inv s -> terminal i s -> terminal i (step ev s).
Proof.
  intros HI [Hlt Hina]. destruct ev as [e c|l]; cbn [step]; [|now split].
  unfold commit. destruct (exec e c s) as [[[] s']|] eqn:H; [|now split].
  destruct (plain_exec_cases e c s s' (inv_entered s HI) H)
    as [(t & amt & p & b & j & -> & Hc)
       |[(j & l & _ & Hact & ->)
        |(Hcnt & Hoff & _)]].
  - apply plain_createOffer_ok in Hc; [|apply HI]. cbv zeta in Hc.
    destruct Hc as (-> & _ & _ & _ & _ & _ & _ & _ & _ & _ & Hcnt & Hoff & _).
    split; [lia|]. unfold offerAt in *. rewrite Hoff.
    rewrite lookup_insert_ne by lia. assumption.
  - split; [assumption|].
    change (offerAt i (set_ledger l (set_offer j (deactivate (offerAt j s)) s)))
      with (offerAt i (set_offer j (deactivate (offerAt j s)) s)).
    rewrite plain_offerAt_set_offer. destruct (i =? j); [reflexivity|assumption].
  - split; [lia|]. unfold offerAt in *. now rewrite Hoff.
Qed.

Lemma plain_terminal_not_settled i ev s :
  Inv s -> terminal i s -> settles i ev s = false.
Proof.
  intros HI [_ Hina]. destruct (settles i ev s) eqn:Hs; [|reflexivity].
  apply plain_settles_active in Hs; [|assumption]. destruct Hs as [Ha _]. congruence.
Qed.

Lemma plain_settlements_terminal i evs s :
  Inv s -> terminal i s -> settlements i evs s = O.
Proof.
  revert s; induction evs as [|ev evs IH]; intros s HI Ht; cbn; [reflexivity|].
  rewrite plain_terminal_not_settled by assumption.
  rewrite IH; [reflexivity | now apply plain_step_Inv | now apply plain_step_terminal].
Qed.

Lemma plain_settlements_at_most_once i evs s :
  Inv s -> (settlements i evs s <= 1)%nat.
Proof.
  revert s; induction evs as [|ev evs IH]; intros s HI; cbn; [lia|].
  destruct (settles i ev s) eqn:Hs.
  - destruct (plain_settles_active i ev s HI Hs) as (Ha & Hlt & l & Hstep).
    rewrite plain_settlements_terminal; [lia | now apply plain_step_Inv |].
    rewrite Hstep. split; [assumption|].
    change (offerAt i (set_ledger l (set_offer i (deactivate (offerAt i s)) s)))
      with (offerAt i (set_offer i (deactivate (offerAt i s)) s)).
    now rewrite plain_offerAt_set_offer, Z.eqb_refl.
  - specialize (IH (step ev s) (plain_step_Inv ev s HI)). lia.
Qed.

Lemma plain_inactive_rejected e i busd s :
  _entered s = false -> active (offerAt i s) = false ->
  let err := if _paused s then Custom "EnforcedPause"
             else Revert "Escrow: offer is not active" in
  acceptOffer e i busd s = Err err /\
  cancelOffer e i s = Err err.
Proof.
  intros Hent Hina. cbv zeta.
  rewrite plain_acceptOffer_flat, plain_cancelOffer_flat by assumption.
  cbv zeta. rewrite Hina. cbn [negb]. destruct (_paused s); auto.
Qed.

Lemma plain_never_created_absent i s :
  Inv s -> _offerIdCounter s <= i -> _offers s !! i = None.
Proof.
  intros HI Hle. destruct (_offers s !! i) as [o|] eqn:Ho; [|reflexivity].
  pose proof (inv_offers s HI i o Ho). lia.
Qed.

Lemma plain_never_created_zero i s :
  Inv s -> _offerIdCounter s <= i -> offerAt i s = zeroOffer.
Proof.
  intros HI Hle. unfold offerAt. now rewrite plain_never_created_absent.
Qed.

(** *** The daily counter *)

Lemma plain_step_dailyOfferCount ev a s :
  Inv s ->
  dailyOfferCount a (step ev s) = dailyOfferCount a s \/
  exists e tok amt price b,
    ev = Tx e (CreateOffer tok amt price b) /\ msg_sender e = a /\
    isOk (createOffer e tok amt price b s) = true /\
    dailyOfferCount a (step ev s) = window_count e s + 1.
Proof.
  intros HI. destruct ev as [e c|l]; cbn [step]; [|now left].
  unfold commit. destruct (exec e c s) as [[[] s']|] eqn:H; [|now left].
  destruct (plain_exec_cases e c s s' (inv_entered s HI) H)
    as [(t & amt & p & b & j & -> & Hc)
       |[(j & l & _ & Hact & ->)
        |(_ & _ & _ & Hday & _)]].
  - pose proof Hc as Hok.
    apply plain_createOffer_ok in Hc; [|apply HI]. cbv zeta in Hc.
    destruct Hc as (_ & _ & _ & _ & _ & _ & _ & _ & _ & _ & _ & _ & _ & _
                    & _ & _ & Hday).
    rewrite Hday. destruct (Z.eqb_spec a (msg_sender e)) as [->|Hne];
      [right|now left].
    exists e, t, amt, p, b. rewrite Hok. auto.
  - now left.
  - left. unfold dailyOfferCount. now rewrite Hday.
Qed.

Lemma plain_createOffer_daily_limit e tok amt price b s :
  _entered s = false -> _paused s = false ->
  tok <> 0 -> 0 < amt -> 0 < price -> b <> 0 -> b <> msg_sender e ->
  block_timestamp e + ONE_DAY <= MAX_UINT256 ->
  lastOfferTime (msg_sender e) s + OFFER_COOLDOWN <= block_timestamp e ->
  MAX_OFFERS_PER_DAY <= window_count e s ->
  createOffer e tok amt price b s = Err (Revert "Escrow: daily offer limit reached").
Proof.
  intros Hent Hp Htok Hamt Hprice Hb Hbs Hnow Hcool Hfull.
  rewrite plain_createOffer_flat by assumption. cbv zeta. rewrite Hp.
  apply Z.eqb_neq in Htok, Hb, Hbs. rewrite Htok, Hb, Hbs.
  apply Z.ltb_lt in Hamt, Hprice. rewrite Hamt, Hprice. cbn [negb].
  unfold OFFER_COOLDOWN, ONE_DAY in *.
  replace (_ + 10 <=? MAX_UINT256) with true by (symmetry; apply Z.leb_le; lia).
  replace (_ + 10 <=? block_timestamp e) with true
    by (symmetry; apply Z.leb_le; lia).
  replace (_ + 86400 <=? MAX_UINT256) with true
    by (symmetry; apply Z.leb_le; lia).
  cbn [negb]. unfold window_count, ONE_DAY in Hfull.
  destruct (_ + 86400 <=? block_timestamp e).
  - unfold MAX_OFFERS_PER_DAY in Hfull. lia.
  - replace (_ <? MAX_OFFERS_PER_DAY) with false
      by (symmetry; apply Z.ltb_ge; lia).
    reflexivity.
Qed.

End EscrowFacts.

(** ** The escrow engines: the offer lifecycle *)

Module EscrowClaims.
Import EscrowWithExpiry.

(** C1.  [acceptOffer] first marks the offer inactive, then has the quote
    payment moved from the buyer to the seller, then the escrowed amount from
    the engine to the buyer.  Whatever the token contracts do when called,
    the payment call runs on the state in which the offer is already
    inactive and nothing has moved, the delivery call on the state the
    payment call left, and nothing else happens; in the state the payment
    call runs on, the reentrancy guard is set and every entry point that
    moves tokens reverts when called again.  When the payment call fails the
    whole call fails with the same error and leaves the state it started
    from, the offer still active and every balance as it was.  With ERC-20
    tokens the two calls are the two ledger transfers.  Both engines. *)
Theorem acceptOffer_flip_pay_deliver_atomic :
  (forall (tokens : Token) (e : Env) (i busd : Z) (s : State),
     let o := offerAt i s in
     let flipped := set_offer i (deactivate o) (set_entered true s) in
     _entered s = false -> _paused s = false ->
     active o = true -> msg_sender e = buyer o -> busd <> 0 ->
     block_timestamp e <= expiresAt o ->
     acceptOffer_calling tokens e i busd s =
       match onTransferFrom tokens e busd (buyer o) (seller o)
                            (priceInBUSD o) flipped with
       | Err err => Err err
       | Ok (_, paid) =>
           match onTransfer tokens e (tokenAddress o) (buyer o) (amount o)
                            paid with
           | Err err => Err err
           | Ok (_, delivered) => Ok (tt, set_entered false delivered)
           end
       end /\
     active (offerAt i flipped) = false /\
     ledger flipped = ledger s /\
     (forall tokens' e' j busd',
        acceptOffer_calling tokens' e' j busd' flipped
          = Err (Custom "ReentrancyGuardReentrantCall")) /\
     (forall e' j,
        cancelOffer e' j flipped
          = Err (Custom "ReentrancyGuardReentrantCall") /\
        reclaimExpired e' j flipped
          = Err (Custom "ReentrancyGuardReentrantCall")) /\
     (forall e' tok amt price b,
        createOffer e' tok amt price b flipped
          = Err (Custom "ReentrancyGuardReentrantCall")) /\
     (forall err,
        onTransferFrom tokens e busd (buyer o) (seller o) (priceInBUSD o)
                       flipped = Err err ->
        outcome (acceptOffer_calling tokens e i busd) s = Err err /\
        commit (acceptOffer_calling tokens e i busd) s = s) /\
     acceptOffer e i busd s =
       match Ledger.transferFrom busd (this e) (buyer o) (seller o)
                                 (priceInBUSD o) (ledger s) with
       | Err err => Err err
       | Ok (_, paid) =>
           match Ledger.transfer (tokenAddress o) (this e) (buyer o)
                                 (amount o) paid with
           | Err err => Err err
           | Ok (_, delivered) =>
               Ok (tt, set_ledger delivered (set_offer i (deactivate o) s))
           end
       end /\
     forall err,
       Ledger.transferFrom busd (this e) (buyer o) (seller o)
                           (priceInBUSD o) (ledger s) = Err err ->
       outcome (acceptOffer e i busd) s = Err err /\
       commit (acceptOffer e i busd) s = s)
  /\
  (forall (tokens : Escrow.Token) (e : Env) (i busd : Z) (s : Escrow.State),
     let o := Escrow.offerAt i s in
     let flipped :=
       Escrow.set_offer i (Escrow.deactivate o) (Escrow.set_entered true s) in
     Escrow._entered s = false -> Escrow._paused s = false ->
     Escrow.active o = true -> msg_sender e = Escrow.buyer o -> busd <> 0 ->
     Escrow.acceptOffer_calling tokens e i busd s =
       match Escrow.onTransferFrom tokens e busd (Escrow.buyer o)
               (Escrow.seller o) (Escrow.priceInBUSD o) flipped with
       | Err err => Err err
       | Ok (_, paid) =>
           match Escrow.onTransfer tokens e (Escrow.tokenAddress o)
                   (Escrow.buyer o) (Escrow.amount o) paid with
           | Err err => Err err
           | Ok (_, delivered) => Ok (tt, Escrow.set_entered false delivered)
           end
       end /\
     Escrow.active (Escrow.offerAt i flipped) = false /\
     Escrow.ledger flipped = Escrow.ledger s /\
     (forall tokens' e' j busd',
        Escrow.acceptOffer_calling tokens' e' j busd' flipped
          = Err (Custom "ReentrancyGuardReentrantCall")) /\
     (forall e' j,
        Escrow.cancelOffer e' j flipped
          = Err (Custom "ReentrancyGuardReentrantCall")) /\
     (forall e' tok amt price b,
        Escrow.createOffer e' tok amt price b flipped
          = Err (Custom "ReentrancyGuardReentrantCall")) /\
     (forall err,
        Escrow.onTransferFrom tokens e busd (Escrow.buyer o) (Escrow.seller o)
                              (Escrow.priceInBUSD o) flipped = Err err ->
        outcome (Escrow.acceptOffer_calling tokens e i busd) s = Err err /\
        commit (Escrow.acceptOffer_calling tokens e i busd) s = s) /\
     Escrow.acceptOffer e i busd s =
       match Ledger.transferFrom busd (this e) (Escrow.buyer o)
                                 (Escrow.seller o) (Escrow.priceInBUSD o)
                                 (Escrow.ledger s) with
       | Err err => Err err
       | Ok (_, paid) =>
           match Ledger.transfer (Escrow.tokenAddress o) (this e)
                                 (Escrow.buyer o) (Escrow.amount o) paid with
           | Err err => Err err
           | Ok (_, delivered) =>
               Ok (tt, Escrow.set_ledger delivered
                         (Escrow.set_offer i (Escrow.deactivate o) s))
           end
       end /\
     forall err,
       Ledger.transferFrom busd (this e) (Escrow.buyer o) (Escrow.seller o)
                           (Escrow.priceInBUSD o) (Escrow.ledger s) = Err err ->
       outcome (Escrow.acceptOffer e i busd) s = Err err /\
       commit (Escrow.acceptOffer e i busd) s = s).
Proof.
  split.
  - intros tokens e i busd s o flipped Hent Hp Ha Hb Hbusd Hexp.
    assert (Hcall : acceptOffer_calling tokens e i busd s =
       match onTransferFrom tokens e busd (buyer o) (seller o)
                            (priceInBUSD o) flipped with
       | Err err => Err err
       | Ok (_, paid) =>
           match onTransfer tokens e (tokenAddress o) (buyer o) (amount o)
                            paid with
           | Err err => Err err
           | Ok (_, delivered) => Ok (tt, set_entered false delivered)
           end
       end).
    { rewrite EscrowWithExpiryFacts.acceptOffer_calling_flat by assumption.
      cbv zeta. fold o. rewrite Hp, Ha, <- Hb, Z.eqb_refl. cbn [negb].
      apply Z.eqb_neq in Hbusd. rewrite Hbusd.
      apply Z.leb_le in Hexp. rewrite Hexp. reflexivity. }
    assert (Hflat : acceptOffer e i busd s =
       match Ledger.transferFrom busd (this e) (buyer o) (seller o)
                                 (priceInBUSD o) (ledger s) with
       | Err err => Err err
       | Ok (_, paid) =>
           match Ledger.transfer (tokenAddress o) (this e) (buyer o)
                                 (amount o) paid with
           | Err err => Err err
           | Ok (_, delivered) =>
               Ok (tt, set_ledger delivered (set_offer i (deactivate o) s))
           end
       end).
    { rewrite EscrowWithExpiryFacts.acceptOffer_flat by assumption.
      cbv zeta. fold o. rewrite Hp, Ha, <- Hb, Z.eqb_refl. cbn [negb].
      apply Z.eqb_neq in Hbusd. rewrite Hbusd.
      apply Z.leb_le in Hexp. rewrite Hexp. reflexivity. }
    split; [exact Hcall|]. split.
    { unfold flipped. rewrite EscrowWithExpiryFacts.offerAt_set_offer.
      now rewrite Z.eqb_refl. }
    split; [reflexivity|]. split; [reflexivity|].
    split; [split; reflexivity|]. split; [reflexivity|]. split.
    { intros err Herr. unfold outcome, commit. rewrite Hcall, Herr. auto. }
    split; [exact Hflat|].
    intros err Herr. unfold outcome, commit. rewrite Hflat, Herr. auto.
  - intros tokens e i busd s o flipped Hent Hp Ha Hb Hbusd.
    assert (Hcall : Escrow.acceptOffer_calling tokens e i busd s =
       match Escrow.onTransferFrom tokens e busd (Escrow.buyer o)
               (Escrow.seller o) (Escrow.priceInBUSD o) flipped with
       | Err err => Err err
       | Ok (_, paid) =>
           match Escrow.onTransfer tokens e (Escrow.tokenAddress o)
                   (Escrow.buyer o) (Escrow.amount o) paid with
           | Err err => Err err
           | Ok (_, delivered) => Ok (tt, Escrow.set_entered false delivered)
           end
       end).
    { rewrite EscrowFacts.plain_acceptOffer_calling_flat by assumption.
      cbv zeta. fold o. rewrite Hp, Ha, <- Hb, Z.eqb_refl. cbn [negb].
      apply Z.eqb_neq in Hbusd. rewrite Hbusd. reflexivity. }
    assert (Hflat : Escrow.acceptOffer e i busd s =
       match Ledger.transferFrom busd (this e) (Escrow.buyer o)
                                 (Escrow.seller o) (Escrow.priceInBUSD o)
                                 (Escrow.ledger s) with
       | Err err => Err err
       | Ok (_, paid) =>
           match Ledger.transfer (Escrow.tokenAddress o) (this e)
                                 (Escrow.buyer o) (Escrow.amount o) paid with
           | Err err => Err err
           | Ok (_, delivered) =>
               Ok (tt, Escrow.set_ledger delivered
                         (Escrow.set_offer i (Escrow.deactivate o) s))
           end
       end).
    { rewrite EscrowFacts.plain_acceptOffer_flat by assumption.
      cbv zeta. fold o. rewrite Hp, Ha, <- Hb, Z.eqb_refl. cbn [negb].
      apply Z.eqb_neq in Hbusd. rewrite Hbusd. reflexivity. }
    split; [exact Hcall|]. split.
    { unfold flipped. rewrite EscrowFacts.plain_offerAt_set_offer.
      now rewrite Z.eqb_refl. }
    split; [reflexivity|]. split; [reflexivity|].
    split; [reflexivity|]. split; [reflexivity|]. split.
    { intros err Herr. unfold outcome, commit. rewrite Hcall, Herr. auto. }
    split; [exact Hflat|].
    intros err Herr. unfold outcome, commit. rewrite Hflat, Herr. auto.
Qed.

(** A quote token that calls back into the engine when it is asked for the
    payment: the guard stops it and the whole call fails, nothing changed.
    In Escrow.sol, a buyer without funds: the payment fails, and so does the
    whole call. *)
Lemma acceptOffer_flip_pay_deliver_atomic_witness :
  (outcome (acceptOffer_calling Scenario.reentering
              (Scenario.by_buyer (Scenario.T0 + 60)) 0 Scenario.BUSD)
           (Scenario.offered Scenario.funded)
     = Err (Custom "ReentrancyGuardReentrantCall") /\
   commit (acceptOffer_calling Scenario.reentering
             (Scenario.by_buyer (Scenario.T0 + 60)) 0 Scenario.BUSD)
          (Scenario.offered Scenario.funded)
     = Scenario.offered Scenario.funded)
  /\
  (outcome (Escrow.acceptOffer (Scenario.by_buyer (Scenario.T0 + 60)) 0
                               Scenario.BUSD)
           (Scenario.plain_offered Scenario.unfunded)
     = Err (Custom "ERC20InsufficientBalance") /\
   commit (Escrow.acceptOffer (Scenario.by_buyer (Scenario.T0 + 60)) 0
                              Scenario.BUSD)
          (Scenario.plain_offered Scenario.unfunded)
     = Scenario.plain_offered Scenario.unfunded).
Proof.
  split.
  - refine (proj1 (proj2 (proj2 (proj2 (proj2 (proj2 (proj2
        (proj1 acceptOffer_flip_pay_deliver_atomic Scenario.reentering
           (Scenario.by_buyer (Scenario.T0 + 60)) 0 Scenario.BUSD
           (Scenario.offered Scenario.funded) _ _ _ _ _ _))))))) _ _);
      try (vm_compute; reflexivity).
    + vm_compute. discriminate.
    + vm_compute. discriminate.
  - refine (proj2 (proj2 (proj2 (proj2 (proj2 (proj2 (proj2 (proj2
        (proj2 acceptOffer_flip_pay_deliver_atomic Escrow.erc20
           (Scenario.by_buyer (Scenario.T0 + 60)) 0 Scenario.BUSD
           (Scenario.plain_offered Scenario.unfunded) _ _ _ _ _)))))))) _ _);
      try (vm_compute; reflexivity).
    vm_compute. discriminate.
Defined.

(** C2.  An offer is settled at most once.  Along any sequence of
    transactions from deployment at most one accept, cancel or reclaim of a
    given offer succeeds; a successful one finds the offer active and leaves
    it created and inactive; nothing makes such an offer active again; and on
    an offer that is not active each of the three calls reverts with the
    not-active error (behind the pause check for accept and cancel), the
    state being left as it was.  Both engines. *)
Theorem offer_settled_at_most_once :
  ((forall deployer l evs i,
      (settlements i evs (constructor deployer l) <= 1)%nat) /\
   (forall s ev i, reachable s -> settles i ev s = true ->
      active (offerAt i s) = true /\ terminal i (step ev s)) /\
   (forall s ev i, reachable s -> terminal i s -> terminal i (step ev s)) /\
   (forall s e i busd, reachable s -> active (offerAt i s) = false ->
      let err := if _paused s then Custom "EnforcedPause"
                 else Revert "Offer is not active" in
      (acceptOffer e i busd s = Err err /\
       cancelOffer e i s = Err err /\
       reclaimExpired e i s = Err (Revert "Offer is not active")) /\
      commit (acceptOffer e i busd) s = s /\
      commit (cancelOffer e i) s = s /\
      commit (reclaimExpired e i) s = s))
  /\
  ((forall deployer l evs i,
      (Escrow.settlements i evs (Escrow.constructor deployer l) <= 1)%nat) /\
   (forall s ev i, Escrow.reachable s -> Escrow.settles i ev s = true ->
      Escrow.active (Escrow.offerAt i s) = true /\
      Escrow.terminal i (Escrow.step ev s)) /\
   (forall s ev i, Escrow.reachable s -> Escrow.terminal i s ->
      Escrow.terminal i (Escrow.step ev s)) /\
   (forall s e i busd, Escrow.reachable s ->
      Escrow.active (Escrow.offerAt i s) = false ->
      let err := if Escrow._paused s then Custom "EnforcedPause"
                 else Revert "Escrow: offer is not active" in
      (Escrow.acceptOffer e i busd s = Err err /\
       Escrow.cancelOffer e i s = Err err) /\
      commit (Escrow.acceptOffer e i busd) s = s /\
      commit (Escrow.cancelOffer e i) s = s)).
Proof.
  split.
  - split; [|split; [|split]].
    + intros deployer l evs i.
      apply EscrowWithExpiryFacts.settlements_at_most_once,
        EscrowWithExpiryFacts.constructor_Inv.
    + intros s ev i Hreach Hsettles.
      apply EscrowWithExpiryFacts.reachable_Inv in Hreach.
      destruct (EscrowWithExpiryFacts.settles_active i ev s Hreach Hsettles)
        as (Hactive & Hlt & l & ->).
      split; [exact Hactive|]. split; [exact Hlt|].
      change (active (offerAt i (set_offer i (deactivate (offerAt i s)) s))
              = false).
      now rewrite EscrowWithExpiryFacts.offerAt_set_offer, Z.eqb_refl.
    + intros s ev i Hreach Hterminal.
      apply EscrowWithExpiryFacts.reachable_Inv in Hreach.
      now apply EscrowWithExpiryFacts.step_terminal.
    + intros s e i busd Hreach Hinactive.
      apply EscrowWithExpiryFacts.reachable_Inv in Hreach.
      pose proof (EscrowWithExpiryFacts.inactive_rejected e i busd s
                    (inv_entered s Hreach) Hinactive) as Hrej.
      cbv zeta in Hrej |- *. split; [exact Hrej|].
      destruct Hrej as (Haccept & Hcancel & Hreclaim).
      unfold commit. now rewrite Haccept, Hcancel, Hreclaim.
  - split; [|split; [|split]].
    + intros deployer l evs i.
      apply EscrowFacts.plain_settlements_at_most_once,
        EscrowFacts.plain_constructor_Inv.
    + intros s ev i Hreach Hsettles.
      apply EscrowFacts.plain_reachable_Inv in Hreach.
      destruct (EscrowFacts.plain_settles_active i ev s Hreach Hsettles)
        as (Hactive & Hlt & l & ->).
      split; [exact Hactive|]. split; [exact Hlt|].
      change (Escrow.active (Escrow.offerAt i
                (Escrow.set_offer i (Escrow.deactivate (Escrow.offerAt i s)) s))
              = false).
      now rewrite EscrowFacts.plain_offerAt_set_offer, Z.eqb_refl.
    + intros s ev i Hreach Hterminal.
      apply EscrowFacts.plain_reachable_Inv in Hreach.
      now apply EscrowFacts.plain_step_terminal.
    + intros s e i busd Hreach Hinactive.
      apply EscrowFacts.plain_reachable_Inv in Hreach.
      pose proof (EscrowFacts.plain_inactive_rejected e i busd s
                    (Escrow.inv_entered s Hreach) Hinactive) as Hrej.
      cbv zeta in Hrej |- *. split; [exact Hrej|].
      destruct Hrej as (Haccept & Hcancel).
      unfold commit. now rewrite Haccept, Hcancel.
Qed.

Lemma offered_reachable l : reachable (Scenario.offered l).
Proof. apply reachable_step, reachable_constructor. Defined.

Lemma accepted_reachable : reachable Scenario.accepted.
Proof. apply reachable_step, offered_reachable. Defined.

Lemma plain_offered_reachable l : Escrow.reachable (Scenario.plain_offered l).
Proof. apply Escrow.reachable_step, Escrow.reachable_constructor. Defined.

Lemma plain_accepted_reachable : Escrow.reachable Scenario.plain_accepted.
Proof. apply Escrow.reachable_step, plain_offered_reachable. Defined.

(** The buyer's accept settles offer 0; a cancel by the seller afterwards is
    rejected. *)
Lemma offer_settled_at_most_once_witness :
  (terminal 0 Scenario.accepted /\
   cancelOffer (Scenario.by_seller (Scenario.T0 + 120)) 0 Scenario.accepted
     = Err (Revert "Offer is not active"))
  /\
  (Escrow.terminal 0 Scenario.plain_accepted /\
   Escrow.cancelOffer (Scenario.by_seller (Scenario.T0 + 120)) 0
                      Scenario.plain_accepted
     = Err (Revert "Escrow: offer is not active")).
Proof.
  destruct offer_settled_at_most_once
    as [(_ & Hsettle & _ & Hreject) (_ & Hsettle' & _ & Hreject')].
  split; split.
  - apply (Hsettle (Scenario.offered Scenario.funded)
             (Tx (Scenario.by_buyer (Scenario.T0 + 60))
                 (AcceptOffer 0 Scenario.BUSD)) 0 (offered_reachable _)).
    vm_compute. reflexivity.
  - apply (Hreject Scenario.accepted (Scenario.by_seller (Scenario.T0 + 120))
             0 0 accepted_reachable).
    vm_compute. reflexivity.
  - apply (Hsettle' (Scenario.plain_offered Scenario.funded)
             (Escrow.Tx (Scenario.by_buyer (Scenario.T0 + 60))
                        (Escrow.AcceptOffer 0 Scenario.BUSD)) 0
             (plain_offered_reachable _)).
    vm_compute. reflexivity.
  - apply (Hreject' Scenario.plain_accepted
             (Scenario.by_seller (Scenario.T0 + 120)) 0 0
             plain_accepted_reachable).
    vm_compute. reflexivity.
Defined.

(** C3.  Conservation of the escrowed amount, and who may settle.  Creating an
    offer moves exactly [amount] of the asset from the seller to the engine
    and records that amount; accepting moves exactly the recorded amount from
    the engine to the buyer and succeeds only for the designated buyer;
    cancelling moves it back to the seller and succeeds only for the seller;
    reclaiming moves it back to the seller for any caller and succeeds only
    when the time is past [expiresAt].  The record of a created offer never
    changes apart from its [active] flag, and at most one settlement of an
    offer ever succeeds, so the amount is credited exactly once. *)
Theorem escrowed_amount_conserved :
  forall s, reachable s ->
  (forall e tok amt price b i s',
     createOffer e tok amt price b s = Ok (i, s') ->
     i = _offerIdCounter s /\
     Ledger.moves tok (msg_sender e) (this e) amt (ledger s) (ledger s') /\
     offerAt i s' =
       mkOffer i (msg_sender e) b tok amt price true (block_timestamp e)
               (block_timestamp e + offerExpiryTime s)) /\
  (forall e i busd s',
     acceptOffer e i busd s = Ok (tt, s') ->
     let o := offerAt i s in
     msg_sender e = buyer o /\ active o = true /\
     offerAt i s' = deactivate o /\
     exists paid,
       Ledger.moves busd (buyer o) (seller o) (priceInBUSD o) (ledger s) paid /\
       Ledger.moves (tokenAddress o) (this e) (buyer o) (amount o)
                    paid (ledger s')) /\
  (forall e i s',
     cancelOffer e i s = Ok (tt, s') ->
     let o := offerAt i s in
     msg_sender e = seller o /\ active o = true /\
     offerAt i s' = deactivate o /\
     Ledger.moves (tokenAddress o) (this e) (seller o) (amount o)
                  (ledger s) (ledger s')) /\
  (forall e i s',
     reclaimExpired e i s = Ok (tt, s') ->
     let o := offerAt i s in
     expiresAt o < block_timestamp e /\ active o = true /\
     offerAt i s' = deactivate o /\
     Ledger.moves (tokenAddress o) (this e) (seller o) (amount o)
                  (ledger s) (ledger s')) /\
  (forall ev i, i < _offerIdCounter s ->
     deactivate (offerAt i (step ev s)) = deactivate (offerAt i s)) /\
  (forall i evs, (settlements i evs s <= 1)%nat).
Proof.
  intros s Hreach. apply EscrowWithExpiryFacts.reachable_Inv in Hreach.
  pose proof (inv_entered s Hreach) as Hent.
  assert (Hflip : forall i l,
    offerAt i (set_ledger l (set_offer i (deactivate (offerAt i s)) s))
    = deactivate (offerAt i s)).
  { intros i l.
    change (offerAt i (set_offer i (deactivate (offerAt i s)) s)
            = deactivate (offerAt i s)).
    now rewrite EscrowWithExpiryFacts.offerAt_set_offer, Z.eqb_refl. }
  repeat apply conj.
  - intros e tok amt price b i s' H.
    apply EscrowWithExpiryFacts.createOffer_ok in H; [|assumption].
    cbv zeta in H.
    destruct H as (-> & _ & _ & _ & _ & _ & _ & _ & _ & Hpay & _ & Hoff & _).
    split; [reflexivity|]. split.
    + now apply LedgerFacts.transferFrom_moves in Hpay.
    + unfold offerAt. now rewrite Hoff, lookup_insert_eq.
  - intros e i busd s' H.
    apply EscrowWithExpiryFacts.acceptOffer_ok in H; [|assumption].
    cbv zeta in H. cbv zeta.
    destruct H as (_ & Ha & Hb & _ & _ & paid & Hpay & Hdeliver & ->).
    split; [assumption|]. split; [assumption|]. split; [apply Hflip|].
    exists paid. split.
    + now apply LedgerFacts.transferFrom_moves in Hpay.
    + now apply LedgerFacts.transfer_moves in Hdeliver.
  - intros e i s' H.
    apply EscrowWithExpiryFacts.cancelOffer_ok in H; [|assumption].
    cbv zeta in H. cbv zeta.
    destruct H as (_ & Ha & Hb & Hback & ->).
    split; [assumption|]. split; [assumption|]. split; [apply Hflip|].
    now apply LedgerFacts.transfer_moves in Hback.
  - intros e i s' H.
    apply EscrowWithExpiryFacts.reclaimExpired_ok in H; [|assumption].
    cbv zeta in H. cbv zeta.
    destruct H as (Ha & Hexp & Hback & ->).
    split; [assumption|]. split; [assumption|]. split; [apply Hflip|].
    now apply LedgerFacts.transfer_moves in Hback.
  - intros ev i Hlt. now apply EscrowWithExpiryFacts.step_offer_frozen.
  - intros i evs. now apply EscrowWithExpiryFacts.settlements_at_most_once.
Qed.

(** The scenario of the spec: 1000 SWAT offered for 3000 BUSD and accepted. *)
Lemma escrowed_amount_conserved_witness :
  let s := Scenario.offered Scenario.funded in
  let e := Scenario.by_buyer (Scenario.T0 + 60) in
  let o := offerAt 0 s in
  msg_sender e = buyer o /\ active o = true /\
  offerAt 0 Scenario.accepted = deactivate o /\
  exists paid,
    Ledger.moves Scenario.BUSD (buyer o) (seller o) (priceInBUSD o)
                 (ledger s) paid /\
    Ledger.moves (tokenAddress o) (this e) (buyer o) (amount o)
                 paid (ledger Scenario.accepted).
Proof.
  intros s e o.
  apply (proj1 (proj2 (escrowed_amount_conserved s (offered_reachable _)))
           e 0 Scenario.BUSD Scenario.accepted).
  vm_compute. reflexivity.
Defined.

(** C9.  Offers of the expiry-enabled engine always expire.  The expiry time
    is 15 minutes at deployment and stays between one minute and 24 hours in
    every reachable state, [updateExpiryTime] accepting no other value; a
    created offer expires at its creation time plus the expiry time then in
    force; so every stored offer has an expiry between one minute and 24
    hours after its creation, and at any time more than 24 hours after its
    creation it counts as expired and [reclaimExpired] goes through to the
    transfer back to the seller. *)
Theorem offers_expire_within_a_day :
  (forall deployer l, offerExpiryTime (constructor deployer l) = 15 * 60) /\
  (forall s, reachable s ->
     60 <= offerExpiryTime s <= 86400 /\
     (forall e n s', updateExpiryTime e n s = Ok (tt, s') ->
        60 <= n <= 86400 /\ offerExpiryTime s' = n) /\
     (forall e tok amt price b i s',
        createOffer e tok amt price b s = Ok (i, s') ->
        createdAt (offerAt i s') = block_timestamp e /\
        expiresAt (offerAt i s') = createdAt (offerAt i s') + offerExpiryTime s) /\
     (forall i o, _offers s !! i = Some o ->
        createdAt o + 60 <= expiresAt o <= createdAt o + 86400 /\
        forall e, createdAt o + 86400 < block_timestamp e ->
          isExpired e i s = true /\
          (active o = true ->
           reclaimExpired e i s =
             match Ledger.transfer (tokenAddress o) (this e) (seller o)
                                   (amount o) (ledger s) with
             | Err err => Err err
             | Ok (_, l) => Ok (tt, set_ledger l (set_offer i (deactivate o) s))
             end))).
Proof.
  split; [reflexivity|].
  intros s Hreach. apply EscrowWithExpiryFacts.reachable_Inv in Hreach.
  repeat apply conj.
  - apply (inv_expiry s Hreach).
  - apply (inv_expiry s Hreach).
  - intros e n s' H. apply EscrowWithExpiryFacts.updateExpiryTime_ok in H.
    destruct H as (_ & Hn & ->). split; [exact Hn | reflexivity].
  - intros e tok amt price b i s' H.
    apply EscrowWithExpiryFacts.createOffer_ok in H; [|apply Hreach].
    cbv zeta in H.
    destruct H as (-> & _ & _ & _ & _ & _ & _ & _ & _ & _ & _ & Hoff & _).
    unfold offerAt. rewrite Hoff, lookup_insert_eq. cbn. auto.
  - intros i o Ho. destruct (inv_offers s Hreach i o Ho) as [_ Hrange].
    unfold ONE_MINUTE, TWENTY_FOUR_HOURS in Hrange.
    split; [lia|]. intros e Hlate.
    assert (Hat : offerAt i s = o) by (unfold offerAt; now rewrite Ho).
    assert (Hexp : (expiresAt o <? block_timestamp e) = true)
      by (apply Z.ltb_lt; lia).
    split.
    + unfold isExpired. now rewrite Hat.
    + intros Hactive.
      rewrite EscrowWithExpiryFacts.reclaimExpired_flat
        by apply (inv_entered s Hreach).
      cbv zeta. now rewrite Hat, Hactive, Hexp.
Qed.

Lemma offers_expire_within_a_day_witness :
  let s := Scenario.offered Scenario.funded in
  60 <= offerExpiryTime s <= 86400 /\
  expiresAt (offerAt 0 s) = Scenario.T0 + 900 /\
  isExpired (Scenario.by_seller (Scenario.T0 + 86401)) 0 s = true.
Proof.
  intros s.
  destruct (proj2 offers_expire_within_a_day s (offered_reachable _))
    as (Hrange & _ & _ & Hstored).
  split; [exact Hrange|]. split; [vm_compute; reflexivity|].
  refine (proj1 (proj2 (Hstored 0 (offerAt 0 s) _) _ _)).
  - vm_compute. reflexivity.
  - vm_compute. reflexivity.
Defined.

(** C10.  An offer id that was never handed out (it is not below the offer
    counter) reads as the all-zero record; at any positive time it counts as
    expired with no time remaining; and accept, cancel and reclaim on it fail
    exactly as they do on a settled offer, with the not-active error (behind
    the pause check for accept and cancel): no call tells a missing offer from
    a terminal one.  Both engines. *)
Theorem never_created_offer_is_inactive_zero :
  (forall s i e busd,
     reachable s -> _offerIdCounter s <= i -> 0 < block_timestamp e ->
     getOffer i s = zeroOffer /\
     isExpired e i s = true /\
     getTimeRemaining e i s = 0 /\
     (let err := if _paused s then Custom "EnforcedPause"
                 else Revert "Offer is not active" in
      acceptOffer e i busd s = Err err /\
      cancelOffer e i s = Err err /\
      reclaimExpired e i s = Err (Revert "Offer is not active")) /\
     (forall j, terminal j s ->
        acceptOffer e i busd s = acceptOffer e j busd s /\
        cancelOffer e i s = cancelOffer e j s /\
        reclaimExpired e i s = reclaimExpired e j s))
  /\
  (forall s i e busd,
     Escrow.reachable s -> Escrow._offerIdCounter s <= i ->
     Escrow.getOffer i s = Escrow.zeroOffer /\
     (let err := if Escrow._paused s then Custom "EnforcedPause"
                 else Revert "Escrow: offer is not active" in
      Escrow.acceptOffer e i busd s = Err err /\
      Escrow.cancelOffer e i s = Err err) /\
     (forall j, Escrow.terminal j s ->
        Escrow.acceptOffer e i busd s = Escrow.acceptOffer e j busd s /\
        Escrow.cancelOffer e i s = Escrow.cancelOffer e j s)).
Proof.
  split.
  - intros s i e busd Hreach Hnew Hnow.
    apply EscrowWithExpiryFacts.reachable_Inv in Hreach.
    pose proof (EscrowWithExpiryFacts.never_created_zero i s Hreach Hnew) as Hz.
    assert (Hina : active (offerAt i s) = false) by now rewrite Hz.
    pose proof (EscrowWithExpiryFacts.inactive_rejected e i busd s
                  (inv_entered s Hreach) Hina) as Hrej.
    cbv zeta in Hrej.
    split; [exact Hz|]. split.
    { unfold isExpired. rewrite Hz. cbn. now apply Z.ltb_lt. }
    split.
    { unfold getTimeRemaining. rewrite Hz. cbn.
      destruct (0 <=? block_timestamp e) eqn:Hle; [reflexivity|].
      apply Z.leb_gt in Hle. lia. }
    split; [exact Hrej|].
    intros j [_ Hj].
    pose proof (EscrowWithExpiryFacts.inactive_rejected e j busd s
                  (inv_entered s Hreach) Hj) as Hrej'.
    cbv zeta in Hrej'.
    destruct Hrej as (-> & -> & ->), Hrej' as (-> & -> & ->). auto.
  - intros s i e busd Hreach Hnew.
    apply EscrowFacts.plain_reachable_Inv in Hreach.
    pose proof (EscrowFacts.plain_never_created_zero i s Hreach Hnew) as Hz.
    assert (Hina : Escrow.active (Escrow.offerAt i s) = false) by now rewrite Hz.
    pose proof (EscrowFacts.plain_inactive_rejected e i busd s
                  (Escrow.inv_entered s Hreach) Hina) as Hrej.
    cbv zeta in Hrej.
    split; [exact Hz|]. split; [exact Hrej|].
    intros j [_ Hj].
    pose proof (EscrowFacts.plain_inactive_rejected e j busd s
                  (Escrow.inv_entered s Hreach) Hj) as Hrej'.
    cbv zeta in Hrej'.
    destruct Hrej as (-> & ->), Hrej' as (-> & ->). auto.
Qed.

(** Offer 999 after one offer was created and accepted. *)
Lemma never_created_offer_is_inactive_zero_witness :
  (getOffer 999 Scenario.accepted = zeroOffer /\
   isExpired (Scenario.by_buyer (Scenario.T0 + 120)) 999 Scenario.accepted
     = true /\
   acceptOffer (Scenario.by_buyer (Scenario.T0 + 120)) 999 Scenario.BUSD
               Scenario.accepted
     = acceptOffer (Scenario.by_buyer (Scenario.T0 + 120)) 0 Scenario.BUSD
                   Scenario.accepted)
  /\
  Escrow.getOffer 999 Scenario.plain_accepted = Escrow.zeroOffer.
Proof.
  split.
  - destruct (proj1 never_created_offer_is_inactive_zero Scenario.accepted 999
                (Scenario.by_buyer (Scenario.T0 + 120)) Scenario.BUSD
                accepted_reachable)
      as (Hzero & Hexp & _ & _ & Hsame).
    + vm_compute. discriminate.
    + vm_compute. reflexivity.
    + split; [exact Hzero|]. split; [exact Hexp|].
      apply (Hsame 0). split; vm_compute; reflexivity.
  - apply (proj2 never_created_offer_is_inactive_zero Scenario.plain_accepted
             999 (Scenario.by_buyer (Scenario.T0 + 120)) Scenario.BUSD
             plain_accepted_reachable).
    vm_compute. discriminate.
Defined.

Lemma run_reachable evs s : reachable s -> reachable (run evs s).
Proof.
  revert s; induction evs as [|ev evs IH]; intros s Hs; cbn; [assumption|].
  apply IH, reachable_step, Hs.
Defined.

Lemma plain_run_reachable evs s :
  Escrow.reachable s -> Escrow.reachable (Escrow.run evs s).
Proof.
  revert s; induction evs as [|ev evs IH]; intros s Hs; cbn; [assumption|].
  apply IH, Escrow.reachable_step, Hs.
Defined.

(** The daily counter as the code keeps it.  The engine stores no start of
    a window: the seller's counter restarts lazily, inside [createOffer],
    exactly when a day has passed since the seller's last offer, whose time
    every offer overwrites.  In every reachable state
    the counter is at most [MAX_OFFERS_PER_DAY]; only a successful
    [createOffer] of a seller changes that seller's counter, to one more than
    zero if [now >= lastOfferTime + 1 day] and to one more than its value
    otherwise; and a [createOffer] that passes the earlier checks while the
    counter stands at the maximum, less than a day after the last offer,
    reverts with the daily-limit error.  Both engines. *)
Theorem daily_counter_restarts_a_day_after_last_offer :
  (forall s, reachable s ->
     (forall a, 0 <= dailyOfferCount a s <= MAX_OFFERS_PER_DAY) /\
     (forall ev a,
        dailyOfferCount a (step ev s) = dailyOfferCount a s \/
        exists e tok amt price b,
          ev = Tx e (CreateOffer tok amt price b) /\ msg_sender e = a /\
          isOk (createOffer e tok amt price b s) = true /\
          dailyOfferCount a (step ev s) =
            (if lastOfferTime a s + ONE_DAY <=? block_timestamp e
             then 0 else dailyOfferCount a s) + 1) /\
     (forall e tok amt price b,
        _paused s = false ->
        tok <> 0 -> 0 < amt -> 0 < price -> b <> 0 -> b <> msg_sender e ->
        block_timestamp e + ONE_DAY <= MAX_UINT256 ->
        lastOfferTime (msg_sender e) s + OFFER_COOLDOWN <= block_timestamp e ->
        block_timestamp e < lastOfferTime (msg_sender e) s + ONE_DAY ->
        dailyOfferCount (msg_sender e) s = MAX_OFFERS_PER_DAY ->
        createOffer e tok amt price b s
          = Err (Revert "Daily offer limit reached")))
  /\
  (forall s, Escrow.reachable s ->
     (forall a, 0 <= Escrow.dailyOfferCount a s <= Escrow.MAX_OFFERS_PER_DAY) /\
     (forall ev a,
        Escrow.dailyOfferCount a (Escrow.step ev s) = Escrow.dailyOfferCount a s \/
        exists e tok amt price b,
          ev = Escrow.Tx e (Escrow.CreateOffer tok amt price b) /\
          msg_sender e = a /\
          isOk (Escrow.createOffer e tok amt price b s) = true /\
          Escrow.dailyOfferCount a (Escrow.step ev s) =
            (if Escrow.lastOfferTime a s + Escrow.ONE_DAY <=? block_timestamp e
             then 0 else Escrow.dailyOfferCount a s) + 1) /\
     (forall e tok amt price b,
        Escrow._paused s = false ->
        tok <> 0 -> 0 < amt -> 0 < price -> b <> 0 -> b <> msg_sender e ->
        block_timestamp e + Escrow.ONE_DAY <= MAX_UINT256 ->
        Escrow.lastOfferTime (msg_sender e) s + Escrow.OFFER_COOLDOWN
          <= block_timestamp e ->
        block_timestamp e < Escrow.lastOfferTime (msg_sender e) s + Escrow.ONE_DAY ->
        Escrow.dailyOfferCount (msg_sender e) s = Escrow.MAX_OFFERS_PER_DAY ->
        Escrow.createOffer e tok amt price b s
          = Err (Revert "Escrow: daily offer limit reached"))).
Proof.
  split.
  - intros s Hreach. apply EscrowWithExpiryFacts.reachable_Inv in Hreach.
    split; [apply (inv_count s Hreach)|]. split.
    + intros ev a.
      destruct (EscrowWithExpiryFacts.step_dailyOfferCount ev a s Hreach)
        as [H|(e & tok & amt & price & b & -> & <- & Hok & Hcount)];
        [now left|right].
      exists e, tok, amt, price, b. repeat split; assumption.
    + intros e tok amt price b Hp Htok Hamt Hprice Hb Hbs Hnow Hcool Hday Hfull.
      apply EscrowWithExpiryFacts.createOffer_daily_limit;
        try assumption; [apply Hreach|].
      unfold window_count.
      replace (_ <=? block_timestamp e) with false
        by (symmetry; apply Z.leb_gt; lia).
      lia.
  - intros s Hreach. apply EscrowFacts.plain_reachable_Inv in Hreach.
    split; [apply (Escrow.inv_count s Hreach)|]. split.
    + intros ev a.
      destruct (EscrowFacts.plain_step_dailyOfferCount ev a s Hreach)
        as [H|(e & tok & amt & price & b & -> & <- & Hok & Hcount)];
        [now left|right].
      exists e, tok, amt, price, b. repeat split; assumption.
    + intros e tok amt price b Hp Htok Hamt Hprice Hb Hbs Hnow Hcool Hday Hfull.
      apply EscrowFacts.plain_createOffer_daily_limit;
        try assumption; [apply Hreach|].
      unfold Escrow.window_count.
      replace (_ <=? block_timestamp e) with false
        by (symmetry; apply Z.leb_gt; lia).
      lia.
Qed.

(** Fifty offers made 23 hours apart fill the counter: the fifty-first is
    refused. *)
Lemma daily_counter_restarts_a_day_after_last_offer_witness :
  createOffer (Scenario.by_seller (Scenario.T0 + 50 * Scenario.HOURS_23))
              Scenario.SWAT 1 1 Scenario.BUYER
              (run (Scenario.offers_every Scenario.HOURS_23 50 Scenario.T0)
                   (constructor Scenario.OWNER Scenario.funded))
    = Err (Revert "Daily offer limit reached")
  /\
  Escrow.createOffer
    (Scenario.by_seller (Scenario.T0 + 50 * Scenario.HOURS_23))
    Scenario.SWAT 1 1 Scenario.BUYER
    (Escrow.run (Scenario.plain_offers_every Scenario.HOURS_23 50 Scenario.T0)
                (Escrow.constructor Scenario.OWNER Scenario.funded))
    = Err (Revert "Escrow: daily offer limit reached").
Proof.
  split.
  - apply (proj1 daily_counter_restarts_a_day_after_last_offer _
             (run_reachable _ _ (reachable_constructor _ _)));
      try (vm_compute; reflexivity); vm_compute; discriminate.
  - apply (proj2 daily_counter_restarts_a_day_after_last_offer _
             (plain_run_reachable _ _ (Escrow.reachable_constructor _ _)));
      try (vm_compute; reflexivity); vm_compute; discriminate.
Defined.

(** C6.  The daily limit at the failing input.  A seller makes one offer
    every 23 hours.  The window that began with the first offer at [T0] is
    over a day later, yet the counter is never reset: the third offer, 46
    hours after the first, makes it 3, and after fifty offers the
    fifty-first is refused with the daily-limit error although the seller
    made a single offer in the 24 hours before it.  The reset compares the
    time with that of the seller's last offer, not with the start of the
    day.  Both engines. *)
Lemma daily_counter_not_reset_a_day_after_window_start :
  let first := Scenario.T0 in
  let third := Scenario.T0 + 2 * Scenario.HOURS_23 in
  let fifty_first := Scenario.T0 + 50 * Scenario.HOURS_23 in
  let after2 := run (Scenario.offers_every Scenario.HOURS_23 2 Scenario.T0)
                    (constructor Scenario.OWNER Scenario.funded) in
  let after3 := run (Scenario.offers_every Scenario.HOURS_23 3 Scenario.T0)
                    (constructor Scenario.OWNER Scenario.funded) in
  let after50 := run (Scenario.offers_every Scenario.HOURS_23 50 Scenario.T0)
                     (constructor Scenario.OWNER Scenario.funded) in
  let plain_after3 :=
    Escrow.run (Scenario.plain_offers_every Scenario.HOURS_23 3 Scenario.T0)
               (Escrow.constructor Scenario.OWNER Scenario.funded) in
  let plain_after50 :=
    Escrow.run (Scenario.plain_offers_every Scenario.HOURS_23 50 Scenario.T0)
               (Escrow.constructor Scenario.OWNER Scenario.funded) in
  first + ONE_DAY <= third /\
  dailyOfferCount Scenario.SELLER after2 = 2 /\
  dailyOfferCount Scenario.SELLER after3 = 3 /\
  _offerIdCounter after50 = 50 /\
  lastOfferTime Scenario.SELLER after50 = Scenario.T0 + 49 * Scenario.HOURS_23 /\
  fifty_first - ONE_DAY
    < lastOfferTime Scenario.SELLER after50 /\
  Scenario.T0 + 48 * Scenario.HOURS_23 < fifty_first - ONE_DAY /\
  createOffer (Scenario.by_seller fifty_first)
              Scenario.SWAT 1 1 Scenario.BUYER after50
    = Err (Revert "Daily offer limit reached") /\
  Escrow.dailyOfferCount Scenario.SELLER plain_after3 = 3 /\
  Escrow._offerIdCounter plain_after50 = 50 /\
  Escrow.createOffer (Scenario.by_seller fifty_first)
                     Scenario.SWAT 1 1 Scenario.BUYER plain_after50
    = Err (Revert "Escrow: daily offer limit reached").
Proof.
  cbv zeta. split; [vm_compute; discriminate|].
  repeat split; vm_compute; reflexivity.
Qed.

End EscrowClaims.

(** ** The router's swap quote *)

Module MockRouterFacts.
Import MockRouter.

Lemma getAmountOut_flat {S} amountIn reserveIn reserveOut (s : S) :
  getAmountOut amountIn reserveIn reserveOut s =
    if negb (0 <? amountIn)
      then Err (Revert "MockRouter: INSUFFICIENT_INPUT_AMOUNT")
    else if negb ((0 <? reserveIn) && (0 <? reserveOut))
      then Err (Revert "MockRouter: INSUFFICIENT_LIQUIDITY")
    else if negb (amountIn * 997 <=? MAX_UINT256) then Err ARITHMETIC
    else if negb (amountIn * 997 * reserveOut <=? MAX_UINT256)
      then Err ARITHMETIC
    else if negb (reserveIn * 1000 <=? MAX_UINT256) then Err ARITHMETIC
    else if negb (reserveIn * 1000 + amountIn * 997 <=? MAX_UINT256)
      then Err ARITHMETIC
    else if reserveIn * 1000 + amountIn * 997 =? 0 then Err DIV_BY_ZERO
    else Ok (amountIn * 997 * reserveOut
               / (reserveIn * 1000 + amountIn * 997), s).
Proof.
  unfold getAmountOut. monad_unfold.
  repeat flat_step.
Qed.

Lemma getAmountOut_ok {S} amountIn reserveIn reserveOut (s s' : S) out :
  getAmountOut amountIn reserveIn reserveOut s = Ok (out, s') ->
  0 < amountIn /\ 0 < reserveIn /\ 0 < reserveOut /\
  amountIn * 997 * reserveOut <= MAX_UINT256 /\
  reserveIn * 1000 + amountIn * 997 <= MAX_UINT256 /\
  out = amountIn * 997 * reserveOut / (reserveIn * 1000 + amountIn * 997) /\
  s' = s.
Proof.
  rewrite getAmountOut_flat. intros H.
  repeat match type of H with
  | (if negb ?b then _ else _) = _ =>
      destruct b eqn:?; cbn [negb] in H; try discriminate H
  | (if ?b then _ else _) = _ => destruct b eqn:?; try discriminate H
  end.
  injection H as <- <-. bool_hyps. repeat split; assumption.
Qed.

(** The quote never takes more than the fee-adjusted share of the output
    reserve: the reserve product does not shrink. *)
Lemma quote_keeps_product a rin rout :
  0 < a -> 0 < rin -> 0 < rout ->
  let out := a * 997 * rout / (rin * 1000 + a * 997) in
  0 <= out < rout /\ rin * rout <= (rin + a) * (rout - out).
Proof.
  intros Ha Hrin Hrout out.
  assert (Hd : 0 < rin * 1000 + a * 997) by lia.
  assert (Hle : out * (rin * 1000 + a * 997) <= a * 997 * rout).
  { unfold out. rewrite Z.mul_comm. apply Z.mul_div_le. exact Hd. }
  assert (Hnn : 0 <= out).
  { unfold out. apply Z.div_pos; [nia | exact Hd]. }
  assert (Hlt : out < rout).
  { unfold out. apply Z.div_lt_upper_bound; [exact Hd | nia]. }
  split; [lia | nia].
Qed.

End MockRouterFacts.

(** ** The pair: square root and first deposit *)

Module MockPairFacts.
Import MockPair.

(** *** The Babylonian iteration computes the integer square root *)

Section Sqrt.

Variable y : Z.
Hypothesis y_range : 4 <= y <= MAX_UINT256.

Let r : Z := Z.sqrt y.

Lemma root_spec : r * r <= y < (r + 1) * (r + 1).
Proof.
  unfold r. pose proof (Z.sqrt_spec y ltac:(lia)) as H.
  cbv zeta in H. lia.
Qed.

Lemma root_bounds : 2 <= r <= 2 ^ 128 - 1.
Proof.
  unfold r. split.
  - change 2 with (Z.sqrt 4). apply Z.sqrt_le_mono. lia.
  - change (2 ^ 128 - 1) with (Z.sqrt MAX_UINT256). apply Z.sqrt_le_mono. lia.
Qed.

Lemma root_le_half : r <= y / 2.
Proof.
  pose proof root_spec. pose proof root_bounds.
  apply Z.div_le_lower_bound; nia.
Qed.

Lemma quotient_spec x : 0 < x -> y / x * x <= y < y / x * x + x.
Proof.
  intros Hx. pose proof (Z.mul_div_le y x Hx).
  pose proof (Z.mul_succ_div_gt y x Hx). lia.
Qed.

Lemma next_ge_root x : 0 < x -> r <= (y / x + x) / 2.
Proof.
  intros Hx. pose proof root_spec. pose proof (quotient_spec x Hx).
  apply Z.div_le_lower_bound; [lia|].
  assert (r * 2 - x <= y / x); [|lia].
  assert (Hsq : 0 <= (r - x) * (r - x)) by apply Z.square_nonneg.
  assert ((r * 2 - x) * x < (y / x + 1) * x) by lia.
  apply Z.lt_succ_r. apply (Z.mul_lt_mono_pos_r x); lia.
Qed.

Lemma quotient_le_root x : r < x -> y / x <= r.
Proof.
  intros Hx. pose proof root_spec. pose proof root_bounds.
  pose proof (quotient_spec x ltac:(lia)).
  assert (y / x < r + 1); [|lia].
  apply Z.div_lt_upper_bound; nia.
Qed.

Lemma next_halves_distance x : r < x -> (y / x + x) / 2 - r <= (x - r) / 2.
Proof.
  intros Hx. pose proof (quotient_le_root x Hx).
  assert ((y / x + x) / 2 <= (r + x) / 2)
    by (apply Z.div_le_mono; lia).
  replace (r + x) with ((x - r) + r * 2) in * by lia.
  rewrite Z.div_add in * by lia. lia.
Qed.

Lemma next_at_root : (y / r + r) / 2 <= r + 1.
Proof.
  pose proof root_spec. pose proof root_bounds.
  pose proof (quotient_spec r ltac:(lia)).
  apply Z.div_le_upper_bound; [lia|].
  assert (y / r <= r + 2); [|lia].
  assert (y / r < r + 3); [|lia].
  apply Z.div_lt_upper_bound; nia.
Qed.

Lemma sum_fits x : r <= x <= y / 2 + 1 -> y / x + x <= MAX_UINT256.
Proof.
  intros Hx. pose proof root_spec. pose proof root_bounds.
  assert (y / x <= r + 2).
  { assert (y / x < r + 3); [|lia]. apply Z.div_lt_upper_bound; nia. }
  assert (y / 2 <= MAX_UINT256 / 2) by (apply Z.div_le_mono; lia).
  change (MAX_UINT256 / 2) with (2 ^ 255 - 1) in *.
  unfold MAX_UINT256. lia.
Qed.

Lemma sqrt_loop_converges {S} (s : S) (g : nat) :
  forall z x,
    r <= x <= y / 2 + 1 ->
    x < z \/ z = r ->
    x - r < 2 ^ Z.of_nat g ->
    sqrt_loop (2 + g) y z x s = Ok (r, s).
Proof.
  pose proof root_bounds as Hr.
  assert (Hstep : forall gas z x,
    r <= x <= y / 2 + 1 -> x < z ->
    sqrt_loop (Datatypes.S gas) y z x s
    = sqrt_loop gas y x ((y / x + x) / 2) s).
  { intros gas z x Hx Hlt. cbn [sqrt_loop]. monad_unfold.
    apply Z.ltb_lt in Hlt. rewrite Hlt.
    replace (x =? 0) with false by (symmetry; apply Z.eqb_neq; lia).
    pose proof (sum_fits x Hx) as Hsum. apply Z.leb_le in Hsum.
    rewrite Hsum. reflexivity. }
  assert (Hexit : forall gas x,
    r <= x -> sqrt_loop (Datatypes.S gas) y r x s = Ok (r, s)).
  { intros gas x Hx. cbn [sqrt_loop]. monad_unfold.
    replace (x <? r) with false by (symmetry; apply Z.ltb_ge; lia).
    reflexivity. }
  induction g as [|g IH]; intros z x Hx Hz Hd.
  - assert (x = r) by (cbn in Hd; lia). subst x.
    destruct Hz as [Hlt| ->]; [|now apply Hexit].
    change (2 + 0)%nat with 2%nat. rewrite Hstep by assumption.
    apply Hexit, next_ge_root. lia.
  - destruct Hz as [Hlt| ->]; [|now apply Hexit].
    change (2 + Datatypes.S g)%nat with (Datatypes.S (2 + g)).
    rewrite Hstep by assumption.
    destruct (Z.eq_dec x r) as [->|Hne].
    + apply Hexit, next_ge_root. lia.
    + assert (Hgt : r < x) by lia.
      pose proof (next_ge_root x ltac:(lia)).
      pose proof (next_halves_distance x Hgt).
      apply IH.
      * split; [assumption|].
        assert ((x - r) / 2 <= x - r) by (apply Z.div_le_upper_bound; lia).
        lia.
      * left.
        assert ((x - r) / 2 < x - r) by (apply Z.div_lt_upper_bound; lia).
        lia.
      * rewrite Nat2Z.inj_succ, Z.pow_succ_r in Hd by lia.
        assert ((x - r) / 2 < 2 ^ Z.of_nat g)
          by (apply Z.div_lt_upper_bound; lia).
        lia.
Qed.

End Sqrt.

Lemma sqrt_correct {S} (s : S) y :
  0 <= y <= MAX_UINT256 -> sqrt y s = Ok (Z.sqrt y, s).
Proof.
  intros Hy. unfold sqrt.
  destruct (3 <? y) eqn:Hbig.
  - apply Z.ltb_lt in Hbig. monad_unfold.
    replace (2 =? 0) with false by reflexivity.
    assert (Hhalf : y / 2 <= MAX_UINT256 / 2) by (apply Z.div_le_mono; lia).
    change (MAX_UINT256 / 2) with (2 ^ 255 - 1) in Hhalf.
    replace (y / 2 + 1 <=? MAX_UINT256) with true
      by (symmetry; apply Z.leb_le; unfold MAX_UINT256; lia).
    change SQRT_GAS with (2 + 258)%nat.
    apply sqrt_loop_converges; [lia | | |].
    + split; [|lia]. pose proof (root_le_half y ltac:(lia)). lia.
    + left. assert (y / 2 < y - 1); [|lia].
      apply Z.div_lt_upper_bound; lia.
    + pose proof (Z.sqrt_nonneg y).
      change (2 ^ Z.of_nat 258) with (2 ^ 258). lia.
  - apply Z.ltb_ge in Hbig. cbn.
    assert (Hcases : y = 0 \/ y = 1 \/ y = 2 \/ y = 3) by lia.
    destruct Hcases as [-> | [-> | [-> | ->]]]; reflexivity.
Qed.

(** *** The first deposit *)

Ltac pair_simpl :=
  cbn [store ledger token0 token1 reserve0 reserve1 blockTimestampLast
       _balances _totalSupply set_tokens set_reserves set_shares
       set_totalSupply set_ledger totalSupply getReserves negb fst snd].

Lemma balanceOf_set_shares a b v s :
  balanceOf a (set_shares b v s) = if a =? b then v else balanceOf a s.
Proof.
  unfold balanceOf, set_shares; cbn.
  destruct (Z.eqb_spec a b) as [->|Hne].
  - now rewrite lookup_insert_eq.
  - now rewrite lookup_insert_ne by congruence.
Qed.

Lemma mint_first_flat e to s :
  totalSupply s = 0 ->
  mint e to s =
    let balance0 := Ledger.balanceOf (token0 (store s)) (this e) (ledger s) in
    let balance1 := Ledger.balanceOf (token1 (store s)) (this e) (ledger s) in
    let amount0 := balance0 - reserve0 (store s) in
    let amount1 := balance1 - reserve1 (store s) in
    let root := Z.sqrt (amount0 * amount1) in
    let liquidity := root - MINIMUM_LIQUIDITY in
    if negb (reserve0 (store s) <=? balance0) then Err ARITHMETIC
    else if negb (reserve1 (store s) <=? balance1) then Err ARITHMETIC
    else if negb (amount0 * amount1 <=? MAX_UINT256) then Err ARITHMETIC
    else if negb (MINIMUM_LIQUIDITY <=? root) then Err ARITHMETIC
    else if negb (0 <? liquidity)
      then Err (Revert "MockPair: INSUFFICIENT_LIQUIDITY_MINTED")
    else if to =? 0 then Err (Custom "ERC20InvalidReceiver")
    else if negb ((balance0 <=? MAX_UINT112) && (balance1 <=? MAX_UINT112))
      then Err (Revert "MockPair: OVERFLOW")
    else
      let locked :=
        set_shares BURN_SINK (balanceOf BURN_SINK s + MINIMUM_LIQUIDITY)
                   (set_totalSupply MINIMUM_LIQUIDITY s) in
      Ok (liquidity,
          set_reserves balance0 balance1 (block_timestamp e mod 2 ^ 32)
            (set_shares to (balanceOf to locked + liquidity)
               (set_totalSupply (MINIMUM_LIQUIDITY + liquidity) locked))).
Proof.
  intros Hsupply. unfold totalSupply in Hsupply.
  unfold mint, _mint, _update. monad_unfold. unfold totalSupply.
  pair_simpl. cbv zeta.
  do 2 (flat_step; pair_simpl).
  rewrite Hsupply. change (0 =? 0) with true. cbv beta iota.
  flat_step; pair_simpl.
  rewrite sqrt_correct by (bool_hyps; nia). cbv beta iota.
  flat_step; pair_simpl.
  change (BURN_SINK =? 0) with false. cbv beta iota. pair_simpl.
  rewrite Hsupply.
  change (0 + MINIMUM_LIQUIDITY <=? MAX_UINT256) with true. cbv beta iota.
  pair_simpl.
  do 2 (flat_step; pair_simpl).
  change (0 + MINIMUM_LIQUIDITY) with MINIMUM_LIQUIDITY.
  match goal with
  | |- context [if ?c <=? MAX_UINT256 then _ else _] =>
      replace (c <=? MAX_UINT256) with true
  end.
  2:{ symmetry. apply Z.leb_le. bool_hyps.
      match goal with
      | |- context [Z.sqrt ?p] =>
          pose proof (Z.sqrt_le_lin p ltac:(nia))
      end.
      lia. }
  cbv beta iota. flat_step.
Qed.

Lemma mint_later_flat e to s :
  totalSupply s <> 0 ->
  mint e to s =
    let balance0 := Ledger.balanceOf (token0 (store s)) (this e) (ledger s) in
    let balance1 := Ledger.balanceOf (token1 (store s)) (this e) (ledger s) in
    let amount0 := balance0 - reserve0 (store s) in
    let amount1 := balance1 - reserve1 (store s) in
    let liquidity :=
      min (amount0 * totalSupply s / reserve0 (store s))
          (amount1 * totalSupply s / reserve1 (store s)) in
    if negb (reserve0 (store s) <=? balance0) then Err ARITHMETIC
    else if negb (reserve1 (store s) <=? balance1) then Err ARITHMETIC
    else if negb (amount0 * totalSupply s <=? MAX_UINT256) then Err ARITHMETIC
    else if reserve0 (store s) =? 0 then Err DIV_BY_ZERO
    else if negb (amount1 * totalSupply s <=? MAX_UINT256) then Err ARITHMETIC
    else if reserve1 (store s) =? 0 then Err DIV_BY_ZERO
    else if negb (0 <? liquidity)
      then Err (Revert "MockPair: INSUFFICIENT_LIQUIDITY_MINTED")
    else if to =? 0 then Err (Custom "ERC20InvalidReceiver")
    else if negb (totalSupply s + liquidity <=? MAX_UINT256)
      then Err ARITHMETIC
    else if negb ((balance0 <=? MAX_UINT112) && (balance1 <=? MAX_UINT112))
      then Err (Revert "MockPair: OVERFLOW")
    else
      Ok (liquidity,
          set_reserves balance0 balance1 (block_timestamp e mod 2 ^ 32)
            (set_shares to (balanceOf to s + liquidity)
               (set_totalSupply (totalSupply s + liquidity) s))).
Proof.
  intros Hsupply. apply Z.eqb_neq in Hsupply. unfold totalSupply in *.
  unfold mint, _mint, _update. monad_unfold. unfold totalSupply.
  pair_simpl. cbv zeta.
  do 2 (flat_step; pair_simpl).
  rewrite Hsupply. cbv beta iota.
  repeat (flat_step; pair_simpl).
Qed.

Lemma onLedger_store {A} (m : M Ledger.t A) s r s' :
  onLedger m s = Ok (r, s') -> store s' = store s.
Proof.
  unfold onLedger. destruct (m (ledger s)) as [[x l]|]; [|discriminate].
  now intros [= _ <-].
Qed.

Lemma burn_keeps_other_shares e to s amounts s' a :
  burn e to s = Ok (amounts, s') -> a <> this e ->
  balanceOf a s' = balanceOf a s.
Proof.
  intros H Ha. unfold burn, _burn, _update in H.
  unfold add, sub, mul, div, when in H.
  unfold bind, ret, gets, modify, require, throw in H.
  repeat match type of H with
  | context [if ?b then _ else _] => destruct b eqn:?; try discriminate H
  | context [match ?x with Ok _ => _ | Err _ => _ end] =>
      destruct x as [[[] ?]|?] eqn:?; try discriminate H
  end.
  injection H as _ <-.
  repeat match goal with
  | Hl : onLedger _ _ = Ok _ |- _ => apply onLedger_store in Hl
  end.
  unfold balanceOf, set_reserves. cbn [store _balances].
  repeat match goal with
  | Hs : store _ = _ |- _ => rewrite Hs; clear Hs
  end.
  unfold set_totalSupply, set_shares. cbn [store _balances].
  now rewrite lookup_insert_ne by congruence.
Qed.

Lemma mint_keeps_sink e to s liquidity s' :
  mint e to s = Ok (liquidity, s') ->
  balanceOf BURN_SINK s <= balanceOf BURN_SINK s'.
Proof.
  intros H. destruct (Z.eq_dec (totalSupply s) 0) as [Hzero|Hpos].
  - rewrite mint_first_flat in H by assumption. cbv zeta in H.
    repeat match type of H with
    | (if negb ?b then _ else _) = _ =>
        destruct b eqn:?; cbn [negb] in H; try discriminate H
    | (if ?b then _ else _) = _ => destruct b eqn:?; try discriminate H
    end.
    injection H as <- <-. bool_hyps.
    change (balanceOf BURN_SINK (set_reserves ?a ?b ?c ?x))
      with (balanceOf BURN_SINK x).
    rewrite balanceOf_set_shares.
    change (balanceOf BURN_SINK (set_totalSupply ?v ?x))
      with (balanceOf BURN_SINK x).
    rewrite !balanceOf_set_shares, Z.eqb_refl.
    change (balanceOf BURN_SINK (set_totalSupply ?v ?x))
      with (balanceOf BURN_SINK x).
    assert (0 < MINIMUM_LIQUIDITY) by reflexivity.
    destruct (Z.eqb_spec BURN_SINK to) as [<-|Hne];
      [rewrite Z.eqb_refl|]; lia.
  - rewrite mint_later_flat in H by assumption. cbv zeta in H.
    repeat match type of H with
    | (if negb ?b then _ else _) = _ =>
        destruct b eqn:?; cbn [negb] in H; try discriminate H
    | (if ?b then _ else _) = _ => destruct b eqn:?; try discriminate H
    end.
    injection H as <- <-. bool_hyps.
    change (balanceOf BURN_SINK (set_reserves ?a ?b ?c ?x))
      with (balanceOf BURN_SINK x).
    rewrite balanceOf_set_shares.
    change (balanceOf BURN_SINK (set_totalSupply ?v ?x))
      with (balanceOf BURN_SINK x).
    destruct (Z.eqb_spec BURN_SINK to) as [<-|Hne]; lia.
Qed.

Lemma balanceOf_set_reserves a b0 b1 ts s :
  balanceOf a (set_reserves b0 b1 ts s) = balanceOf a s.
Proof. reflexivity. Qed.

Lemma balanceOf_set_totalSupply a v s :
  balanceOf a (set_totalSupply v s) = balanceOf a s.
Proof. reflexivity. Qed.

End MockPairFacts.

Module PairClaims.
Import MockPair.

(** C7.  The first deposit into a pool without shares.  With [amount0] and
    [amount1] the balances the pair received beyond its reserves, a first
    [mint] that succeeds mints the depositor exactly
    [floor (sqrt (amount0 * amount1)) - MINIMUM_LIQUIDITY] shares, a positive
    number, and [MINIMUM_LIQUIDITY] = 1000 shares to the burn sink, address 1;
    it fails whenever that difference is not positive; and it does succeed
    when the product fits in 256 bits, the root exceeds the minimum, the
    recipient is not the zero address and the balances fit in 112 bits.  The
    sink's shares stay locked as far as the pair goes: no [mint] lowers the
    sink's balance and no [burn] changes it. *)
Theorem first_deposit_mints_root_minus_minimum :
  forall (e : Env) (to : address) (s : State),
    totalSupply s = 0 ->
    let balance0 := Ledger.balanceOf (token0 (store s)) (this e) (ledger s) in
    let balance1 := Ledger.balanceOf (token1 (store s)) (this e) (ledger s) in
    let amount0 := balance0 - reserve0 (store s) in
    let amount1 := balance1 - reserve1 (store s) in
    MINIMUM_LIQUIDITY = 1000 /\
    (forall liquidity s',
       mint e to s = Ok (liquidity, s') ->
       liquidity = Z.sqrt (amount0 * amount1) - MINIMUM_LIQUIDITY /\
       0 < liquidity /\
       totalSupply s' = liquidity + MINIMUM_LIQUIDITY /\
       forall a,
         balanceOf a s' =
         balanceOf a s + (if a =? BURN_SINK then MINIMUM_LIQUIDITY else 0)
                       + (if a =? to then liquidity else 0)) /\
    (Z.sqrt (amount0 * amount1) - MINIMUM_LIQUIDITY <= 0 ->
     exists err, mint e to s = Err err) /\
    (0 <= amount0 -> 0 <= amount1 -> amount0 * amount1 <= MAX_UINT256 ->
     MINIMUM_LIQUIDITY < Z.sqrt (amount0 * amount1) -> to <> 0 ->
     balance0 <= MAX_UINT112 -> balance1 <= MAX_UINT112 ->
     exists s',
       mint e to s = Ok (Z.sqrt (amount0 * amount1) - MINIMUM_LIQUIDITY, s')) /\
    (forall e1 to1 s1 minted s2,
       mint e1 to1 s1 = Ok (minted, s2) ->
       balanceOf BURN_SINK s1 <= balanceOf BURN_SINK s2) /\
    (forall e1 to1 s1 amounts s2,
       this e1 <> BURN_SINK -> burn e1 to1 s1 = Ok (amounts, s2) ->
       balanceOf BURN_SINK s2 = balanceOf BURN_SINK s1).
Proof.
  intros e to s Hsupply balance0 balance1 amount0 amount1.
  pose proof (MockPairFacts.mint_first_flat e to s Hsupply) as Hflat.
  cbv zeta in Hflat. fold balance0 balance1 in Hflat.
  fold amount0 amount1 in Hflat.
  split; [reflexivity|]. split; [|split; [|split; [|split]]].
  - intros liquidity s' H. rewrite Hflat in H.
    repeat match type of H with
    | (if negb ?b then _ else _) = _ =>
        destruct b eqn:?; cbn [negb] in H; try discriminate H
    | (if ?b then _ else _) = _ => destruct b eqn:?; try discriminate H
    end.
    injection H as <- <-. bool_hyps.
    split; [reflexivity|]. split; [assumption|]. split; [cbn; lia|].
    intros a.
    rewrite MockPairFacts.balanceOf_set_reserves.
    rewrite !MockPairFacts.balanceOf_set_shares.
    rewrite !MockPairFacts.balanceOf_set_totalSupply.
    rewrite !MockPairFacts.balanceOf_set_shares.
    rewrite !MockPairFacts.balanceOf_set_totalSupply.
    destruct (Z.eqb_spec a to) as [->|Hato];
      [ destruct (Z.eqb_spec to BURN_SINK) as [->|?]
      | destruct (Z.eqb_spec a BURN_SINK) as [->|?] ]; lia.
  - intros Hsmall. rewrite Hflat.
    destruct (negb (reserve0 (store s) <=? balance0)); [eauto|].
    destruct (negb (reserve1 (store s) <=? balance1)); [eauto|].
    destruct (negb (amount0 * amount1 <=? MAX_UINT256)); [eauto|].
    destruct (negb (MINIMUM_LIQUIDITY <=? Z.sqrt (amount0 * amount1)));
      [eauto|].
    replace (0 <? Z.sqrt (amount0 * amount1) - MINIMUM_LIQUIDITY) with false
      by (symmetry; apply Z.ltb_ge; assumption).
    cbn [negb]. eauto.
  - intros H0 H1 Hfit Hroot Hto Hb0 Hb1. rewrite Hflat.
    replace (reserve0 (store s) <=? balance0) with true
      by (symmetry; apply Z.leb_le; unfold amount0 in H0; lia).
    replace (reserve1 (store s) <=? balance1) with true
      by (symmetry; apply Z.leb_le; unfold amount1 in H1; lia).
    replace (amount0 * amount1 <=? MAX_UINT256) with true
      by (symmetry; apply Z.leb_le; assumption).
    replace (MINIMUM_LIQUIDITY <=? Z.sqrt (amount0 * amount1)) with true
      by (symmetry; apply Z.leb_le; lia).
    replace (0 <? Z.sqrt (amount0 * amount1) - MINIMUM_LIQUIDITY) with true
      by (symmetry; apply Z.ltb_lt; lia).
    replace (to =? 0) with false by (symmetry; apply Z.eqb_neq; assumption).
    replace (balance0 <=? MAX_UINT112) with true
      by (symmetry; apply Z.leb_le; assumption).
    replace (balance1 <=? MAX_UINT112) with true
      by (symmetry; apply Z.leb_le; assumption).
    cbn [negb andb]. eauto.
  - intros e1 to1 s1 minted s2. apply MockPairFacts.mint_keeps_sink.
  - intros e1 to1 s1 amounts s2 Hthis Hburn.
    eapply MockPairFacts.burn_keeps_other_shares; [eassumption|].
    congruence.
Qed.

(** A first deposit of 4,000,000 and 1,000,000 units: the root of the product
    is 2,000,000 and the depositor receives 1,999,000 shares. *)
Lemma first_deposit_mints_root_minus_minimum_witness :
  exists s', mint Scenario.on_pair Scenario.SELLER Scenario.fresh_pool
             = Ok (1999000, s').
Proof.
  refine (proj1 (proj2 (proj2 (proj2
    (first_deposit_mints_root_minus_minimum Scenario.on_pair Scenario.SELLER
       Scenario.fresh_pool _)))) _ _ _ _ _ _ _);
    try (vm_compute; reflexivity); vm_compute; discriminate.
Defined.

End PairClaims.

(** ** The factory *)

Module MockFactoryFacts.
Import MockFactory.

Lemma getPair_set_getPair a b x y pair s :
  getPair a b (set_getPair x y pair s) =
  if (a =? x) && (b =? y) then pair else getPair a b s.
Proof.
  unfold getPair, set_getPair; cbn.
  destruct (Z.eqb_spec a x) as [->|Ha]; cbn.
  - destruct (Z.eqb_spec b y) as [->|Hb].
    + now rewrite lookup_insert_eq.
    + now rewrite lookup_insert_ne by congruence.
  - now rewrite lookup_insert_ne by congruence.
Qed.

Section Create.

Variable create_address : nat -> address.

Lemma createPair_sorted token0 token1 s :
  token0 < token1 ->
  createPair create_address token0 token1 s =
    if token0 =? 0 then Err (Revert "MockFactory: ZERO_ADDRESS")
    else if negb (getPair token0 token1 s =? 0)
      then Err (Revert "MockFactory: PAIR_EXISTS")
    else
      let pair := create_address (length (allPairs s)) in
      Ok (pair, created token0 token1 pair s).
Proof.
  intros Hlt. unfold createPair, onPair, MockPair.initialize. monad_unfold.
  replace (token0 =? token1) with false by (symmetry; apply Z.eqb_neq; lia).
  replace (token0 <? token1) with true by (symmetry; apply Z.ltb_lt; lia).
  cbn [negb]. cbv beta iota.
  do 2 flat_step.
  unfold set_pair at 1. cbn [pairs]. rewrite lookup_insert_eq.
  reflexivity.
Qed.

Lemma createPair_comm tokenA tokenB s :
  createPair create_address tokenA tokenB s =
  createPair create_address tokenB tokenA s.
Proof.
  unfold createPair. monad_unfold.
  destruct (Z.lt_total tokenA tokenB) as [Hlt|[->|Hgt]]; [|reflexivity|].
  - replace (tokenA =? tokenB) with false by (symmetry; apply Z.eqb_neq; lia).
    replace (tokenB =? tokenA) with false by (symmetry; apply Z.eqb_neq; lia).
    replace (tokenA <? tokenB) with true by (symmetry; apply Z.ltb_lt; lia).
    replace (tokenB <? tokenA) with false by (symmetry; apply Z.ltb_ge; lia).
    reflexivity.
  - replace (tokenA =? tokenB) with false by (symmetry; apply Z.eqb_neq; lia).
    replace (tokenB =? tokenA) with false by (symmetry; apply Z.eqb_neq; lia).
    replace (tokenA <? tokenB) with false by (symmetry; apply Z.ltb_ge; lia).
    replace (tokenB <? tokenA) with true by (symmetry; apply Z.ltb_lt; lia).
    reflexivity.
Qed.

Lemma createPair_identical token s :
  createPair create_address token token s =
    Err (Revert "MockFactory: IDENTICAL_ADDRESSES").
Proof.
  unfold createPair. monad_unfold. now rewrite Z.eqb_refl.
Qed.

Lemma getPair_created a b token0 token1 pair s :
  getPair a b (created token0 token1 pair s) =
  if ((a =? token0) && (b =? token1)) || ((a =? token1) && (b =? token0))
  then pair else getPair a b s.
Proof.
  unfold created.
  change (getPair a b (push_allPairs pair ?x)) with (getPair a b x).
  rewrite !getPair_set_getPair.
  change (getPair a b (set_ledger ?l (set_pair ?p ?st (set_pair ?q ?st' s))))
    with (getPair a b s).
  destruct ((a =? token1) && (b =? token0)); [now rewrite orb_true_r|].
  now rewrite orb_false_r.
Qed.

Lemma created_symmetric token0 token1 pair s :
  symmetric s -> symmetric (created token0 token1 pair s).
Proof.
  intros Hs a b. rewrite !getPair_created, (Hs a b).
  destruct (a =? token0), (b =? token1), (a =? token1), (b =? token0);
    reflexivity.
Qed.

End Create.

Lemma constructor_symmetric l : symmetric (constructor l).
Proof. intros a b. reflexivity. Qed.

End MockFactoryFacts.

Module FactoryClaims.
Import MockFactory.

(** C8.  Pair creation is canonical.  [createPair] sorts its two tokens, so
    it does the same whichever way round they are given; it fails with
    IDENTICAL_ADDRESSES on equal tokens, with ZERO_ADDRESS when one of two
    different tokens is the zero address, and with PAIR_EXISTS when the pair
    already has a pool.  The router's get-or-create path creates the pool on
    first use and afterwards returns that same pool, for either order of the
    tokens, without error and without changing the state, while a direct
    [createPair] is refused from then on. *)
Theorem pair_creation_canonical :
  forall (create_address : nat -> address),
    (forall n, create_address n <> 0) ->
    forall (tokenA tokenB : address) (s : State),
      0 <= tokenA -> 0 <= tokenB ->
      createPair create_address tokenA tokenB s
        = createPair create_address tokenB tokenA s /\
      (tokenA = tokenB ->
       createPair create_address tokenA tokenB s
         = Err (Revert "MockFactory: IDENTICAL_ADDRESSES")) /\
      (tokenA <> tokenB -> tokenA = 0 \/ tokenB = 0 ->
       createPair create_address tokenA tokenB s
         = Err (Revert "MockFactory: ZERO_ADDRESS")) /\
      (tokenA <> tokenB -> tokenA <> 0 -> tokenB <> 0 -> symmetric s ->
       getPair tokenA tokenB s <> 0 ->
       createPair create_address tokenA tokenB s
         = Err (Revert "MockFactory: PAIR_EXISTS")) /\
      (tokenA <> tokenB -> tokenA <> 0 -> tokenB <> 0 -> symmetric s ->
       exists pair s1,
         MockRouter.getOrCreatePair create_address tokenA tokenB s
           = Ok (pair, s1) /\
         pair <> 0 /\ symmetric s1 /\
         getPair tokenA tokenB s1 = pair /\
         getPair tokenB tokenA s1 = pair /\
         MockRouter.getOrCreatePair create_address tokenA tokenB s1
           = Ok (pair, s1) /\
         MockRouter.getOrCreatePair create_address tokenB tokenA s1
           = Ok (pair, s1) /\
         createPair create_address tokenA tokenB s1
           = Err (Revert "MockFactory: PAIR_EXISTS") /\
         createPair create_address tokenB tokenA s1
           = Err (Revert "MockFactory: PAIR_EXISTS")).
Proof.
  intros ca Hca tokenA tokenB s HA HB.
  (* the sorted form of the call, whichever token is smaller *)
  assert (Hsorted : forall t0 t1 st, 0 <= t0 -> t0 < t1 ->
    createPair ca t0 t1 st =
      if t0 =? 0 then Err (Revert "MockFactory: ZERO_ADDRESS")
      else if negb (getPair t0 t1 st =? 0)
        then Err (Revert "MockFactory: PAIR_EXISTS")
      else Ok (ca (length (allPairs st)),
               created t0 t1 (ca (length (allPairs st))) st)).
  { intros t0 t1 st _ Hlt. now apply MockFactoryFacts.createPair_sorted. }
  assert (Hexists : forall a b st, 0 <= a -> 0 <= b -> a <> b -> a <> 0 ->
    b <> 0 -> symmetric st -> getPair a b st <> 0 ->
    createPair ca a b st = Err (Revert "MockFactory: PAIR_EXISTS")).
  { intros a b st Ha Hb Hab Ha0 Hb0 Hsym Hpair.
    destruct (Z.lt_total a b) as [Hlt|[->|Hgt]]; [|congruence|].
    - rewrite Hsorted by lia.
      apply Z.eqb_neq in Ha0, Hpair. now rewrite Ha0, Hpair.
    - rewrite MockFactoryFacts.createPair_comm, Hsorted by lia.
      rewrite (Hsym a b) in Hpair.
      apply Z.eqb_neq in Hb0, Hpair. now rewrite Hb0, Hpair. }
  split; [apply MockFactoryFacts.createPair_comm|].
  split; [intros ->; apply MockFactoryFacts.createPair_identical|].
  split.
  { intros Hne Hzero.
    destruct (Z.lt_total tokenA tokenB) as [Hlt|[->|Hgt]]; [|congruence|].
    - rewrite Hsorted by lia. destruct Hzero as [-> | ->]; [reflexivity|lia].
    - rewrite MockFactoryFacts.createPair_comm, Hsorted by lia.
      destruct Hzero as [-> | ->]; [lia|reflexivity]. }
  split; [intros; now apply Hexists|].
  intros Hne HA0 HB0 Hsym.
  assert (Hget : forall a b p st, getPair a b st = p -> p <> 0 ->
    MockRouter.getOrCreatePair ca a b st = Ok (p, st)).
  { intros a b p st Hp Hp0. unfold MockRouter.getOrCreatePair. monad_unfold.
    rewrite Hp. apply Z.eqb_neq in Hp0. now rewrite Hp0. }
  destruct (Z.eq_dec (getPair tokenA tokenB s) 0) as [Hnone|Hsome].
  - (* no pool yet: the path creates one *)
    set (pair := ca (length (allPairs s))).
    assert (Hpair0 : pair <> 0) by apply Hca.
    assert (Hcreate : exists t0 t1,
      ((t0 = tokenA /\ t1 = tokenB) \/ (t0 = tokenB /\ t1 = tokenA)) /\
      createPair ca tokenA tokenB s = Ok (pair, created t0 t1 pair s)).
    { destruct (Z.lt_total tokenA tokenB) as [Hlt|[->|Hgt]]; [|congruence|].
      - exists tokenA, tokenB. split; [auto|]. rewrite Hsorted by lia.
        apply Z.eqb_neq in HA0. rewrite HA0, Hnone. reflexivity.
      - exists tokenB, tokenA. split; [auto|].
        rewrite MockFactoryFacts.createPair_comm, Hsorted by lia.
        rewrite (Hsym tokenA tokenB) in Hnone.
        apply Z.eqb_neq in HB0. rewrite HB0, Hnone. reflexivity. }
    destruct Hcreate as (t0 & t1 & Hord & Hcreate).
    set (s1 := created t0 t1 pair s) in *.
    assert (Hsym1 : symmetric s1)
      by now apply MockFactoryFacts.created_symmetric.
    assert (HAB : getPair tokenA tokenB s1 = pair).
    { unfold s1. rewrite MockFactoryFacts.getPair_created.
      destruct Hord as [[-> ->]|[-> ->]]; rewrite !Z.eqb_refl; cbn;
        [reflexivity | now rewrite orb_true_r]. }
    assert (HBA : getPair tokenB tokenA s1 = pair)
      by now rewrite <- (Hsym1 tokenA tokenB).
    exists pair, s1. repeat apply conj; try assumption.
    + unfold MockRouter.getOrCreatePair. monad_unfold.
      now rewrite Hnone, Z.eqb_refl.
    + now apply Hget.
    + now apply Hget.
    + apply Hexists; try assumption. now rewrite HAB.
    + apply Hexists; try assumption; [congruence | now rewrite HBA].
  - (* the pool is there already *)
    exists (getPair tokenA tokenB s), s. repeat apply conj; try assumption.
    + now apply Hget.
    + reflexivity.
    + now rewrite <- (Hsym tokenA tokenB).
    + now apply Hget.
    + apply Hget; [now rewrite <- (Hsym tokenA tokenB) | assumption].
    + now apply Hexists.
    + apply Hexists; try assumption; [congruence|].
      now rewrite <- (Hsym tokenA tokenB).
Qed.

(** SWAT and BUSD on a fresh factory, asked for in both orders. *)
Lemma pair_creation_canonical_witness :
  exists pair s1,
    MockRouter.getOrCreatePair Scenario.deploy_at Scenario.SWAT Scenario.BUSD
                               (constructor Scenario.funded) = Ok (pair, s1) /\
    pair <> 0 /\ symmetric s1 /\
    getPair Scenario.SWAT Scenario.BUSD s1 = pair /\
    getPair Scenario.BUSD Scenario.SWAT s1 = pair /\
    MockRouter.getOrCreatePair Scenario.deploy_at Scenario.SWAT Scenario.BUSD s1
      = Ok (pair, s1) /\
    MockRouter.getOrCreatePair Scenario.deploy_at Scenario.BUSD Scenario.SWAT s1
      = Ok (pair, s1) /\
    createPair Scenario.deploy_at Scenario.SWAT Scenario.BUSD s1
      = Err (Revert "MockFactory: PAIR_EXISTS") /\
    createPair Scenario.deploy_at Scenario.BUSD Scenario.SWAT s1
      = Err (Revert "MockFactory: PAIR_EXISTS").
Proof.
  refine (proj2 (proj2 (proj2 (proj2
    (pair_creation_canonical Scenario.deploy_at _ Scenario.SWAT Scenario.BUSD
       (constructor Scenario.funded) _ _)))) _ _ _ _).
  - intros n. unfold Scenario.deploy_at. lia.
  - vm_compute. discriminate.
  - vm_compute. discriminate.
  - vm_compute. discriminate.
  - vm_compute. discriminate.
  - vm_compute. discriminate.
  - intros a b. reflexivity.
Defined.

End FactoryClaims.

Module PoolClaims.
Import MockRouter.

(** C4, as the code has it.  For a positive input and positive reserves
    whose intermediate products fit in 256 bits the quote is
    [amountIn * 997 * reserveOut / (reserveIn * 1000 + amountIn * 997)] with
    truncating division; when a product does not fit the call fails with the
    arithmetic panic; it fails on a zero input and on a zero reserve; and
    reserves (140, 140) with input 10 give exactly 9. *)
Theorem getAmountOut_formula :
  forall (S : Type) (s : S) (amountIn reserveIn reserveOut : Z),
    0 <= amountIn -> 0 <= reserveIn -> 0 <= reserveOut ->
    (0 < amountIn -> 0 < reserveIn -> 0 < reserveOut ->
     amountIn * 997 * reserveOut <= MAX_UINT256 ->
     reserveIn * 1000 + amountIn * 997 <= MAX_UINT256 ->
     getAmountOut amountIn reserveIn reserveOut s =
       Ok (amountIn * 997 * reserveOut / (reserveIn * 1000 + amountIn * 997), s))
    /\
    (0 < amountIn -> 0 < reserveIn -> 0 < reserveOut ->
     (MAX_UINT256 < amountIn * 997 * reserveOut \/
      MAX_UINT256 < reserveIn * 1000 + amountIn * 997) ->
     getAmountOut amountIn reserveIn reserveOut s = Err ARITHMETIC)
    /\
    (amountIn = 0 ->
     getAmountOut amountIn reserveIn reserveOut s =
       Err (Revert "MockRouter: INSUFFICIENT_INPUT_AMOUNT"))
    /\
    (0 < amountIn -> reserveIn = 0 \/ reserveOut = 0 ->
     getAmountOut amountIn reserveIn reserveOut s =
       Err (Revert "MockRouter: INSUFFICIENT_LIQUIDITY"))
    /\
    getAmountOut 10 140 140 s = Ok (9, s).
Proof.
  intros S s a rin rout Ha Hrin Hrout.
  rewrite !MockRouterFacts.getAmountOut_flat.
  repeat apply conj.
  - intros Ha' Hrin' Hrout' Hnum Hden.
    apply Z.ltb_lt in Ha', Hrin', Hrout'. rewrite Ha', Hrin', Hrout'.
    cbn [negb andb].
    apply Z.ltb_lt in Ha', Hrin', Hrout'.
    replace (a * 997 <=? MAX_UINT256) with true
      by (symmetry; apply Z.leb_le; nia).
    replace (a * 997 * rout <=? MAX_UINT256) with true
      by (symmetry; apply Z.leb_le; lia).
    replace (rin * 1000 <=? MAX_UINT256) with true
      by (symmetry; apply Z.leb_le; lia).
    replace (rin * 1000 + a * 997 <=? MAX_UINT256) with true
      by (symmetry; apply Z.leb_le; lia).
    replace (rin * 1000 + a * 997 =? 0) with false
      by (symmetry; apply Z.eqb_neq; lia).
    reflexivity.
  - intros Ha' Hrin' Hrout' Hover.
    apply Z.ltb_lt in Ha', Hrin', Hrout'. rewrite Ha', Hrin', Hrout'.
    cbn [negb andb].
    apply Z.ltb_lt in Ha', Hrin', Hrout'.
    destruct (a * 997 <=? MAX_UINT256) eqn:H1; [|reflexivity].
    destruct (a * 997 * rout <=? MAX_UINT256) eqn:H2; [|reflexivity].
    destruct (rin * 1000 <=? MAX_UINT256) eqn:H3; [|reflexivity].
    destruct (rin * 1000 + a * 997 <=? MAX_UINT256) eqn:H4; [|reflexivity].
    bool_hyps. lia.
  - intros ->. reflexivity.
  - intros Ha' Hzero. apply Z.ltb_lt in Ha'. rewrite Ha'. cbn [negb].
    destruct Hzero as [-> | ->]; cbn; [reflexivity|].
    now rewrite andb_false_r.
  - reflexivity.
Qed.

Lemma getAmountOut_formula_witness :
  getAmountOut 10 140 140 tt = Ok (10 * 997 * 140 / (140 * 1000 + 10 * 997), tt).
Proof.
  apply (getAmountOut_formula unit tt 10 140 140); vm_compute; discriminate
    || reflexivity.
Defined.

(** A positive input and positive reserves for which the claimed quote is not
    returned: the numerator does not fit in 256 bits. *)
Lemma getAmountOut_overflows :
  0 < 2 ^ 255 <= MAX_UINT256 /\ 0 < 1 <= MAX_UINT256 /\
  getAmountOut (2 ^ 255) 1 1 tt = Err ARITHMETIC /\
  getAmountOut (2 ^ 255) 1 1 tt
    <> Ok (2 ^ 255 * 997 * 1 / (1 * 1000 + 2 ^ 255 * 997), tt).
Proof.
  repeat split; try (vm_compute; congruence).
Qed.

(** C5.  Whenever the router returns a quote, taking [amountIn] in and giving
    the quoted [amountOut] out leaves the reserve product at least as large
    as before, and the quote is smaller than the output reserve. *)
Theorem quote_never_decreases_reserve_product :
  forall (S : Type) (s s' : S) (amountIn reserveIn reserveOut amountOut : Z),
    getAmountOut amountIn reserveIn reserveOut s = Ok (amountOut, s') ->
    0 < amountIn /\ 0 < reserveIn /\ 0 < reserveOut /\
    0 <= amountOut < reserveOut /\
    (reserveIn + amountIn) * (reserveOut - amountOut) >= reserveIn * reserveOut.
Proof.
  intros S s s' a rin rout out H.
  apply MockRouterFacts.getAmountOut_ok in H.
  destruct H as (Ha & Hrin & Hrout & _ & _ & -> & _).
  destruct (MockRouterFacts.quote_keeps_product a rin rout Ha Hrin Hrout)
    as [Hrange Hprod].
  repeat split; try assumption; lia.
Qed.

Lemma quote_never_decreases_reserve_product_witness :
  (140 + 10) * (140 - 9) >= 140 * 140.
Proof.
  apply (quote_never_decreases_reserve_product unit tt tt 10 140 140 9).
  vm_compute. reflexivity.
Defined.

End PoolClaims.

(** ** The escrow engines: rate limit, pause and administration *)

Module EscrowExtras.
Import EscrowWithExpiry.

(** X1.  The cooldown.  After a seller's [createOffer] succeeds, a further
    [createOffer] of the same seller that is otherwise valid reverts with the
    cooldown error as long as fewer than [OFFER_COOLDOWN] = 10 seconds have
    passed.  Both engines. *)
Theorem createOffer_cooldown :
  (forall e tok amt price b s i s',
     reachable s ->
     createOffer e tok amt price b s = Ok (i, s') ->
     block_timestamp e + OFFER_COOLDOWN <= MAX_UINT256 ->
     forall e' tok' amt' price' b',
       msg_sender e' = msg_sender e ->
       tok' <> 0 -> 0 < amt' -> 0 < price' -> b' <> 0 -> b' <> msg_sender e' ->
       block_timestamp e' < block_timestamp e + OFFER_COOLDOWN ->
       createOffer e' tok' amt' price' b' s'
         = Err (Revert "Cooldown period active"))
  /\
  (forall e tok amt price b s i s',
     Escrow.reachable s ->
     Escrow.createOffer e tok amt price b s = Ok (i, s') ->
     block_timestamp e + Escrow.OFFER_COOLDOWN <= MAX_UINT256 ->
     forall e' tok' amt' price' b',
       msg_sender e' = msg_sender e ->
       tok' <> 0 -> 0 < amt' -> 0 < price' -> b' <> 0 -> b' <> msg_sender e' ->
       block_timestamp e' < block_timestamp e + Escrow.OFFER_COOLDOWN ->
       Escrow.createOffer e' tok' amt' price' b' s'
         = Err (Revert "Escrow: cooldown period active")).
Proof.
  split.
  - intros e tok amt price b s i s' Hreach Hok Hfit
           e' tok' amt' price' b' Hsame Htok Hamt Hprice Hb Hbs Hearly.
    apply EscrowWithExpiryFacts.reachable_Inv in Hreach.
    apply EscrowWithExpiryFacts.createOffer_ok in Hok; [|apply Hreach].
    cbv zeta in Hok.
    destruct Hok as (_ & _ & _ & _ & _ & _ & _ & _ & _ & _ & _ & _ & _ & Hent
                     & Hp & _ & Hlast & _).
    rewrite EscrowWithExpiryFacts.createOffer_flat by assumption.
    cbv zeta. rewrite Hsame, Hlast, Hp.
    apply Z.eqb_neq in Htok, Hb. rewrite Htok, Hb.
    rewrite Hsame in Hbs. apply Z.eqb_neq in Hbs. rewrite Hbs.
    apply Z.ltb_lt in Hamt, Hprice. rewrite Hamt, Hprice. cbn [negb].
    replace (_ <=? MAX_UINT256) with true by (symmetry; apply Z.leb_le; lia).
    replace (_ <=? block_timestamp e') with false
      by (symmetry; apply Z.leb_gt; lia).
    reflexivity.
  - intros e tok amt price b s i s' Hreach Hok Hfit
           e' tok' amt' price' b' Hsame Htok Hamt Hprice Hb Hbs Hearly.
    apply EscrowFacts.plain_reachable_Inv in Hreach.
    apply EscrowFacts.plain_createOffer_ok in Hok; [|apply Hreach].
    cbv zeta in Hok.
    destruct Hok as (_ & _ & _ & _ & _ & _ & _ & _ & _ & _ & _ & _ & Hent
                     & Hp & _ & Hlast & _).
    rewrite EscrowFacts.plain_createOffer_flat by assumption.
    cbv zeta. rewrite Hsame, Hlast, Hp.
    apply Z.eqb_neq in Htok, Hb. rewrite Htok, Hb.
    rewrite Hsame in Hbs. apply Z.eqb_neq in Hbs. rewrite Hbs.
    apply Z.ltb_lt in Hamt, Hprice. rewrite Hamt, Hprice. cbn [negb].
    replace (_ <=? MAX_UINT256) with true by (symmetry; apply Z.leb_le; lia).
    replace (_ <=? block_timestamp e') with false
      by (symmetry; apply Z.leb_gt; lia).
    reflexivity.
Qed.

Lemma createOffer_cooldown_witness :
  createOffer (Scenario.by_seller (Scenario.T0 + 9)) Scenario.SWAT 1 1
              Scenario.BUYER (Scenario.offered Scenario.funded)
    = Err (Revert "Cooldown period active").
Proof.
  refine (proj1 createOffer_cooldown (Scenario.by_seller Scenario.T0)
            Scenario.SWAT 1000 3000 Scenario.BUYER
            (constructor Scenario.OWNER Scenario.funded) 0
            (Scenario.offered Scenario.funded)
            (reachable_constructor _ _) _ _
            (Scenario.by_seller (Scenario.T0 + 9)) Scenario.SWAT 1 1
            Scenario.BUYER _ _ _ _ _ _ _);
    try (vm_compute; reflexivity); vm_compute; discriminate.
Defined.

(** *** The remaining-offers view *)

Lemma getRemainingOffers_flat e user s :
  getRemainingOffers e user s =
    let last := lastOfferTime user s in
    let used := dailyOfferCount user s in
    if negb (last + ONE_DAY <=? MAX_UINT256) then Err ARITHMETIC
    else if last + ONE_DAY <=? block_timestamp e
      then Ok (MAX_OFFERS_PER_DAY, s)
    else if MAX_OFFERS_PER_DAY <=? used then Ok (0, s)
    else if negb (used <=? MAX_OFFERS_PER_DAY) then Err ARITHMETIC
    else Ok (MAX_OFFERS_PER_DAY - used, s).
Proof.
  unfold getRemainingOffers. monad_unfold. cbv zeta.
  repeat match goal with
  | |- _ = (if negb ?b then _ else _) => destruct b eqn:?; cbn [negb]
  | |- _ = (if ?b then _ else _) => destruct b eqn:?
  end; reflexivity.
Qed.

Lemma plain_getRemainingOffers_flat e user s :
  Escrow.getRemainingOffers e user s =
    let last := Escrow.lastOfferTime user s in
    let used := Escrow.dailyOfferCount user s in
    if negb (last + Escrow.ONE_DAY <=? MAX_UINT256) then Err ARITHMETIC
    else if last + Escrow.ONE_DAY <=? block_timestamp e
      then Ok (Escrow.MAX_OFFERS_PER_DAY, s)
    else if Escrow.MAX_OFFERS_PER_DAY <=? used then Ok (0, s)
    else if negb (used <=? Escrow.MAX_OFFERS_PER_DAY) then Err ARITHMETIC
    else Ok (Escrow.MAX_OFFERS_PER_DAY - used, s).
Proof.
  unfold Escrow.getRemainingOffers. monad_unfold. cbv zeta.
  repeat match goal with
  | |- _ = (if negb ?b then _ else _) => destruct b eqn:?; cbn [negb]
  | |- _ = (if ?b then _ else _) => destruct b eqn:?
  end; reflexivity.
Qed.

Lemma transferFrom_error_custom token caller from to value l err :
  Ledger.transferFrom token caller from to value l = Err err ->
  exists name, err = Custom name.
Proof.
  unfold Ledger.transferFrom, Ledger._spendAllowance, Ledger._transfer,
    Ledger._update.
  monad_unfold. intros H.
  repeat match type of H with
  | context [if ?c then _ else _] => destruct c; try discriminate H
  end;
  injection H as <-; eauto.
Qed.

(** X2.  [getRemainingOffers] tells what [createOffer] will do.  In a
    reachable state, at a time of day that does not overflow, the view
    returns [MAX_OFFERS_PER_DAY] minus the counter the caller would be
    charged against, a number between 0 and 50, and changes nothing; when it
    returns 0 an otherwise valid [createOffer] of that user is refused with
    the daily-limit error, and when it returns more than 0 [createOffer]
    never fails with that error.  Both engines. *)
Theorem getRemainingOffers_agrees_with_createOffer :
  (forall e s, reachable s ->
     lastOfferTime (msg_sender e) s + ONE_DAY <= MAX_UINT256 ->
     let remaining := MAX_OFFERS_PER_DAY - window_count e s in
     getRemainingOffers e (msg_sender e) s = Ok (remaining, s) /\
     0 <= remaining <= MAX_OFFERS_PER_DAY /\
     forall tok amt price b,
       (remaining = 0 -> _paused s = false ->
        tok <> 0 -> 0 < amt -> 0 < price -> b <> 0 -> b <> msg_sender e ->
        lastOfferTime (msg_sender e) s + OFFER_COOLDOWN <= block_timestamp e ->
        createOffer e tok amt price b s
          = Err (Revert "Daily offer limit reached")) /\
       (0 < remaining ->
        createOffer e tok amt price b s
          <> Err (Revert "Daily offer limit reached")))
  /\
  (forall e s, Escrow.reachable s ->
     Escrow.lastOfferTime (msg_sender e) s + Escrow.ONE_DAY <= MAX_UINT256 ->
     let remaining := Escrow.MAX_OFFERS_PER_DAY - Escrow.window_count e s in
     Escrow.getRemainingOffers e (msg_sender e) s = Ok (remaining, s) /\
     0 <= remaining <= Escrow.MAX_OFFERS_PER_DAY /\
     forall tok amt price b,
       (remaining = 0 -> Escrow._paused s = false ->
        tok <> 0 -> 0 < amt -> 0 < price -> b <> 0 -> b <> msg_sender e ->
        Escrow.lastOfferTime (msg_sender e) s + Escrow.OFFER_COOLDOWN
          <= block_timestamp e ->
        Escrow.createOffer e tok amt price b s
          = Err (Revert "Escrow: daily offer limit reached")) /\
       (0 < remaining ->
        Escrow.createOffer e tok amt price b s
          <> Err (Revert "Escrow: daily offer limit reached"))).
Proof.
  split.
  - intros e s Hreach Hfit remaining.
    apply EscrowWithExpiryFacts.reachable_Inv in Hreach.
    pose proof (EscrowWithExpiryFacts.window_count_bounds e s Hreach) as Hwc.
    pose proof (inv_count s Hreach (msg_sender e)) as Hcount.
    split; [|split; [unfold remaining; lia|]].
    + rewrite getRemainingOffers_flat. cbv zeta.
      unfold remaining, window_count.
      replace (_ <=? MAX_UINT256) with true by (symmetry; now apply Z.leb_le).
      cbn [negb]. destruct (_ <=? block_timestamp e).
      * now rewrite Z.sub_0_r.
      * destruct (MAX_OFFERS_PER_DAY <=? _) eqn:Hfull; bool_hyps.
        -- f_equal. f_equal. lia.
        -- replace (_ <=? MAX_OFFERS_PER_DAY) with true
             by (symmetry; apply Z.leb_le; lia).
           reflexivity.
    + intros tok amt price b. split.
      * intros Hzero Hp Htok Hamt Hprice Hb Hbs Hcool.
        rewrite EscrowWithExpiryFacts.createOffer_flat by apply Hreach.
        cbv zeta. rewrite Hp.
        apply Z.eqb_neq in Htok, Hb, Hbs. rewrite Htok, Hb, Hbs.
        apply Z.ltb_lt in Hamt, Hprice. rewrite Hamt, Hprice. cbn [negb].
        replace (_ + OFFER_COOLDOWN <=? MAX_UINT256) with true
          by (symmetry; apply Z.leb_le; unfold OFFER_COOLDOWN, ONE_DAY in *; lia).
        replace (_ + OFFER_COOLDOWN <=? block_timestamp e) with true
          by (symmetry; now apply Z.leb_le).
        replace (_ + ONE_DAY <=? MAX_UINT256) with true
          by (symmetry; now apply Z.leb_le).
        cbn [negb]. unfold remaining, window_count in Hzero.
        destruct (_ + ONE_DAY <=? block_timestamp e);
          [unfold MAX_OFFERS_PER_DAY in Hzero; lia|].
        replace (_ <? MAX_OFFERS_PER_DAY) with false
          by (symmetry; apply Z.ltb_ge; lia).
        reflexivity.
      * intros Hpos Hfail.
        rewrite EscrowWithExpiryFacts.createOffer_flat in Hfail by apply Hreach.
        cbv zeta in Hfail. unfold remaining, window_count in Hpos.
        repeat match type of Hfail with
        | (if negb ?c then _ else _) = _ =>
            destruct c eqn:?; cbn [negb] in Hfail; try discriminate Hfail
        | (if ?c then _ else _) = _ => destruct c eqn:?; try discriminate Hfail
        | match ?x with Ok _ => _ | Err _ => _ end = _ =>
            destruct x as [[[] ?]|?] eqn:?; try discriminate Hfail
        end.
        all: try (match goal with
                  | H : Ledger.transferFrom _ _ _ _ _ _ = Err _ |- _ =>
                      apply transferFrom_error_custom in H;
                      destruct H as [name ->]; discriminate
                  end).
        bool_hyps.
        destruct (_ + ONE_DAY <=? block_timestamp e).
        -- rewrite EscrowWithExpiryFacts.dailyOfferCount_set, Z.eqb_refl in *.
           unfold MAX_OFFERS_PER_DAY in *. lia.
        -- lia.
  - intros e s Hreach Hfit remaining.
    apply EscrowFacts.plain_reachable_Inv in Hreach.
    pose proof (EscrowFacts.plain_window_count_bounds e s Hreach) as Hwc.
    pose proof (Escrow.inv_count s Hreach (msg_sender e)) as Hcount.
    split; [|split; [unfold remaining; lia|]].
    + rewrite plain_getRemainingOffers_flat. cbv zeta.
      unfold remaining, Escrow.window_count.
      replace (_ <=? MAX_UINT256) with true by (symmetry; now apply Z.leb_le).
      cbn [negb]. destruct (_ <=? block_timestamp e).
      * now rewrite Z.sub_0_r.
      * destruct (Escrow.MAX_OFFERS_PER_DAY <=? _) eqn:Hfull; bool_hyps.
        -- f_equal. f_equal. lia.
        -- replace (_ <=? Escrow.MAX_OFFERS_PER_DAY) with true
             by (symmetry; apply Z.leb_le; lia).
           reflexivity.
    + intros tok amt price b. split.
      * intros Hzero Hp Htok Hamt Hprice Hb Hbs Hcool.
        rewrite EscrowFacts.plain_createOffer_flat by apply Hreach.
        cbv zeta. rewrite Hp.
        apply Z.eqb_neq in Htok, Hb, Hbs. rewrite Htok, Hb, Hbs.
        apply Z.ltb_lt in Hamt, Hprice. rewrite Hamt, Hprice. cbn [negb].
        replace (_ + Escrow.OFFER_COOLDOWN <=? MAX_UINT256) with true
          by (symmetry; apply Z.leb_le; unfold Escrow.OFFER_COOLDOWN, Escrow.ONE_DAY in *; lia).
        replace (_ + Escrow.OFFER_COOLDOWN <=? block_timestamp e) with true
          by (symmetry; now apply Z.leb_le).
        replace (_ + Escrow.ONE_DAY <=? MAX_UINT256) with true
          by (symmetry; now apply Z.leb_le).
        cbn [negb]. unfold remaining, Escrow.window_count in Hzero.
        destruct (_ + Escrow.ONE_DAY <=? block_timestamp e);
          [unfold Escrow.MAX_OFFERS_PER_DAY in Hzero; lia|].
        replace (_ <? Escrow.MAX_OFFERS_PER_DAY) with false
          by (symmetry; apply Z.ltb_ge; lia).
        reflexivity.
      * intros Hpos Hfail.
        rewrite EscrowFacts.plain_createOffer_flat in Hfail by apply Hreach.
        cbv zeta in Hfail. unfold remaining, Escrow.window_count in Hpos.
        repeat match type of Hfail with
        | (if negb ?c then _ else _) = _ =>
            destruct c eqn:?; cbn [negb] in Hfail; try discriminate Hfail
        | (if ?c then _ else _) = _ => destruct c eqn:?; try discriminate Hfail
        | match ?x with Ok _ => _ | Err _ => _ end = _ =>
            destruct x as [[[] ?]|?] eqn:?; try discriminate Hfail
        end.
        all: try (match goal with
                  | H : Ledger.transferFrom _ _ _ _ _ _ = Err _ |- _ =>
                      apply transferFrom_error_custom in H;
                      destruct H as [name ->]; discriminate
                  end).
        bool_hyps.
        destruct (_ + Escrow.ONE_DAY <=? block_timestamp e).
        -- rewrite EscrowFacts.plain_dailyOfferCount_set, Z.eqb_refl in *.
           unfold Escrow.MAX_OFFERS_PER_DAY in *. lia.
        -- lia.
Qed.

(** Fifty offers 23 hours apart: nothing remains. *)
Lemma getRemainingOffers_agrees_with_createOffer_witness :
  getRemainingOffers Scenario.at_fifty (msg_sender Scenario.at_fifty)
                     Scenario.after_fifty
    = Ok (MAX_OFFERS_PER_DAY
            - window_count Scenario.at_fifty Scenario.after_fifty,
          Scenario.after_fifty).
Proof.
  refine (proj1 (proj1 getRemainingOffers_agrees_with_createOffer
                   Scenario.at_fifty Scenario.after_fifty _ _)).
  - apply EscrowClaims.run_reachable, reachable_constructor.
  - vm_compute. discriminate.
Defined.

(** X3.  What the pause does.  While the engine is paused, [createOffer],
    [acceptOffer] and [cancelOffer] revert with EnforcedPause, whatever their
    arguments.  [reclaimExpired] carries no pause check: it does on a paused
    engine exactly what it does on the same engine unpaused.  In Escrow.sol,
    which has no reclaim, the three calls are blocked alike. *)
Theorem pause_blocks_all_but_reclaim :
  (forall e s, reachable s ->
     (_paused s = true ->
      (forall tok amt price b,
         createOffer e tok amt price b s = Err (Custom "EnforcedPause")) /\
      (forall i busd, acceptOffer e i busd s = Err (Custom "EnforcedPause")) /\
      (forall i, cancelOffer e i s = Err (Custom "EnforcedPause"))) /\
     (forall i flag,
        reclaimExpired e i (set_paused flag s) =
          match reclaimExpired e i s with
          | Ok (u, s') => Ok (u, set_paused flag s')
          | Err err => Err err
          end))
  /\
  (forall e s, Escrow.reachable s -> Escrow._paused s = true ->
     (forall tok amt price b,
        Escrow.createOffer e tok amt price b s = Err (Custom "EnforcedPause")) /\
     (forall i busd,
        Escrow.acceptOffer e i busd s = Err (Custom "EnforcedPause")) /\
     (forall i, Escrow.cancelOffer e i s = Err (Custom "EnforcedPause"))).
Proof.
  split.
  - intros e s Hreach. apply EscrowWithExpiryFacts.reachable_Inv in Hreach.
    pose proof (inv_entered s Hreach) as Hent. split.
    + intros Hp. repeat apply conj; intros.
      * rewrite EscrowWithExpiryFacts.createOffer_flat by assumption.
        cbv zeta. now rewrite Hp.
      * rewrite EscrowWithExpiryFacts.acceptOffer_flat by assumption.
        cbv zeta. now rewrite Hp.
      * rewrite EscrowWithExpiryFacts.cancelOffer_flat by assumption.
        cbv zeta. now rewrite Hp.
    + intros i flag.
      rewrite !EscrowWithExpiryFacts.reclaimExpired_flat by assumption.
      cbv zeta.
      change (offerAt i (set_paused flag s)) with (offerAt i s).
      change (ledger (set_paused flag s)) with (ledger s).
      destruct (negb (active (offerAt i s))); [reflexivity|].
      destruct (negb (expiresAt (offerAt i s) <? block_timestamp e));
        [reflexivity|].
      destruct (Ledger.transfer _ _ _ _ _) as [[[] l]|]; reflexivity.
  - intros e s Hreach Hp. apply EscrowFacts.plain_reachable_Inv in Hreach.
    pose proof (Escrow.inv_entered s Hreach) as Hent.
    repeat apply conj; intros.
    + rewrite EscrowFacts.plain_createOffer_flat by assumption.
      cbv zeta. now rewrite Hp.
    + rewrite EscrowFacts.plain_acceptOffer_flat by assumption.
      cbv zeta. now rewrite Hp.
    + rewrite EscrowFacts.plain_cancelOffer_flat by assumption.
      cbv zeta. now rewrite Hp.
Qed.

(** The buyer's accept on the paused engine. *)
Lemma pause_blocks_all_but_reclaim_witness :
  acceptOffer (Scenario.by_buyer (Scenario.T0 + 60)) 0 Scenario.BUSD
              Scenario.paused_offered
    = Err (Custom "EnforcedPause").
Proof.
  refine (proj1 (proj2 (proj1 (proj1 pause_blocks_all_but_reclaim
            (Scenario.by_buyer (Scenario.T0 + 60)) Scenario.paused_offered _)
            _)) 0 Scenario.BUSD).
  - exact (reachable_step _ _ (EscrowClaims.offered_reachable _)).
  - vm_compute. reflexivity.
Defined.

Ltac frame_done :=
  repeat split; first [reflexivity | congruence | discriminate].

(** X4.  Administration is the owner's.  A transaction sent by anyone but
    the owner leaves the owner, the pause flag and the expiry time (in
    Escrow.sol: the fee and the fee collector) as they were, whatever it
    calls, and every entry point behind [onlyOwner] reverts for such a sender
    with OwnableUnauthorizedAccount. *)
Theorem only_owner_administers :
  (forall s e c, reachable s -> msg_sender e <> _owner s ->
     let s' := step (Tx e c) s in
     _owner s' = _owner s /\ _paused s' = _paused s /\
     offerExpiryTime s' = offerExpiryTime s /\
     (administrative c = true ->
      exec e c s = Err (Custom "OwnableUnauthorizedAccount")))
  /\
  (forall s e c, Escrow.reachable s -> msg_sender e <> Escrow._owner s ->
     let s' := Escrow.step (Escrow.Tx e c) s in
     Escrow._owner s' = Escrow._owner s /\
     Escrow._paused s' = Escrow._paused s /\
     Escrow.platformFeePercent s' = Escrow.platformFeePercent s /\
     Escrow.feeCollector s' = Escrow.feeCollector s /\
     (Escrow.administrative c = true ->
      Escrow.exec e c s = Err (Custom "OwnableUnauthorizedAccount"))).
Proof.
  split.
  - intros s e c Hreach Hno s'. subst s'.
    apply EscrowWithExpiryFacts.reachable_Inv in Hreach.
    pose proof (inv_entered s Hreach) as Hent.
    assert (Hneq : (_owner s =? msg_sender e) = false)
      by (apply Z.eqb_neq; congruence).
    destruct c; cbn [step exec administrative];
      try (unfold updateExpiryTime, pause, unpause, emergencyWithdraw,
             transferOwnership, renounceOwnership, onlyOwner, commit, bind,
             gets;
           rewrite Hneq; cbn; auto; fail).
    + unfold commit, bind, ret.
      destruct (createOffer e tokenAddress0 amount0 priceInBUSD0 buyer0 s)
        as [[i s1]|] eqn:Hc; cbn; [|frame_done].
      apply EscrowWithExpiryFacts.createOffer_ok in Hc; [|assumption].
      cbv zeta in Hc.
      destruct Hc as (_ & Hp & _ & _ & _ & _ & _ & _ & _ & _ & _ & _ & Hexp
                      & _ & Hp' & Hown & _).
      frame_done.
    + unfold commit.
      destruct (acceptOffer e offerId busdAddress s) as [[[] s1]|] eqn:Hc;
        [|frame_done].
      apply EscrowWithExpiryFacts.acceptOffer_ok in Hc; [|assumption].
      destruct Hc as (_ & _ & _ & _ & _ & l1 & _ & _ & ->).
      frame_done.
    + unfold commit.
      destruct (cancelOffer e offerId s) as [[[] s1]|] eqn:Hc;
        [|frame_done].
      apply EscrowWithExpiryFacts.cancelOffer_ok in Hc; [|assumption].
      destruct Hc as (_ & _ & _ & _ & ->).
      frame_done.
    + unfold commit.
      destruct (reclaimExpired e offerId s) as [[[] s1]|] eqn:Hc;
        [|frame_done].
      apply EscrowWithExpiryFacts.reclaimExpired_ok in Hc; [|assumption].
      destruct Hc as (_ & _ & _ & ->).
      frame_done.
  - intros s e c Hreach Hno s'. subst s'.
    apply EscrowFacts.plain_reachable_Inv in Hreach.
    pose proof (Escrow.inv_entered s Hreach) as Hent.
    assert (Hneq : (Escrow._owner s =? msg_sender e) = false)
      by (apply Z.eqb_neq; congruence).
    destruct c; cbn [Escrow.step Escrow.exec Escrow.administrative];
      try (unfold Escrow.pause, Escrow.unpause, Escrow.emergencyWithdraw,
             Escrow.updateFee, Escrow.updateFeeCollector,
             Escrow.transferOwnership, Escrow.renounceOwnership,
             Escrow.onlyOwner, commit, bind, gets;
           rewrite Hneq; cbn; auto 6; fail).
    + unfold commit, bind, ret.
      destruct (Escrow.createOffer e tokenAddress0 amount0 priceInBUSD0 buyer0 s)
        as [[i s1]|] eqn:Hc; cbn; [|frame_done].
      rewrite EscrowFacts.plain_createOffer_flat in Hc by assumption.
      cbv zeta in Hc.
      repeat match type of Hc with
      | (if negb ?b then _ else _) = _ =>
          destruct b eqn:?; cbn [negb] in Hc; try discriminate Hc
      | (if ?b then _ else _) = _ => destruct b eqn:?; try discriminate Hc
      | match ?x with Ok _ => _ | Err _ => _ end = _ =>
          destruct x as [[[] ?]|?] eqn:?; try discriminate Hc
      end.
      injection Hc as _ <-.
      destruct (_ + Escrow.ONE_DAY <=? block_timestamp e); cbn; frame_done.
    + unfold commit.
      destruct (Escrow.acceptOffer e offerId busdAddress s)
        as [[[] s1]|] eqn:Hc; [|frame_done].
      apply EscrowFacts.plain_acceptOffer_ok in Hc; [|assumption].
      destruct Hc as (_ & _ & _ & _ & l1 & _ & _ & ->).
      frame_done.
    + unfold commit.
      destruct (Escrow.cancelOffer e offerId s) as [[[] s1]|] eqn:Hc;
        [|frame_done].
      apply EscrowFacts.plain_cancelOffer_ok in Hc; [|assumption].
      destruct Hc as (_ & _ & _ & _ & ->).
      frame_done.
Qed.

(** The buyer is not the owner: the buyer cannot pause. *)
Lemma only_owner_administers_witness :
  exec (Scenario.by_buyer (Scenario.T0 + 60)) Pause
       (Scenario.offered Scenario.funded)
    = Err (Custom "OwnableUnauthorizedAccount").
Proof.
  refine (proj2 (proj2 (proj2 (proj1 only_owner_administers
            (Scenario.offered Scenario.funded)
            (Scenario.by_buyer (Scenario.T0 + 60)) Pause
            (EscrowClaims.offered_reachable _) _))) eq_refl).
  vm_compute. discriminate.
Defined.

(** *** Creations, identifiers and stored records *)

Lemma transferFrom_parties token caller from to value l l' :
  Ledger.transferFrom token caller from to value l = Ok (tt, l') ->
  from <> 0 /\ to <> 0.
Proof.
  unfold Ledger.transferFrom, bind.
  destruct (Ledger._spendAllowance _ _ _ _ _) as [[[] l1]|]; [|discriminate].
  unfold Ledger._transfer.
  destruct (Z.eqb_spec from 0); [discriminate|].
  destruct (Z.eqb_spec to 0); [discriminate|]. auto.
Qed.

Lemma exec_not_create e c s s' :
  _entered s = false -> creates (Tx e c) s = false ->
  exec e c s = Ok (tt, s') ->
  _offerIdCounter s' = _offerIdCounter s /\
  forall j, is_Some (_offers s' !! j) <-> is_Some (_offers s !! j).
Proof.
  intros Hent Hno H.
  destruct (EscrowWithExpiryFacts.exec_cases e c s s' Hent H)
    as [(t & amt & p & b & i & -> & Hc)
       |[(i & l & _ & Hact & ->)|(Hcnt & Hoff & _)]].
  - cbn [creates] in Hno. rewrite Hc in Hno. discriminate.
  - split; [reflexivity|]. intros j. cbn [set_ledger set_offer _offers].
    destruct (EscrowWithExpiryFacts.active_created i s Hact) as (o & Ho & _).
    rewrite lookup_insert. destruct (decide (i = j)) as [<-|]; [|tauto].
    rewrite Ho. split; eauto.
  - rewrite Hoff. split; [assumption|tauto].
Qed.

Lemma step_count ev s :
  Inv s ->
  _offerIdCounter (step ev s)
    = _offerIdCounter s + (if creates ev s then 1 else 0).
Proof.
  intros HI. destruct ev as [e c|l]; cbn [step creates]; [|cbn; lia].
  unfold commit. destruct (exec e c s) as [[[] s']|] eqn:H.
  - destruct (creates (Tx e c) s) eqn:Hc.
    + destruct c; try discriminate Hc. cbn [exec] in H. cbn [creates] in *.
      unfold bind, ret in H.
      destruct (createOffer e tokenAddress0 amount0 priceInBUSD0 buyer0 s)
        as [[i s1]|] eqn:Hcr; [|discriminate].
      injection H as <-.
      apply EscrowWithExpiryFacts.createOffer_ok in Hcr; [|apply HI].
      cbv zeta in Hcr. rewrite Hc.
      destruct Hcr as (-> & _ & _ & _ & _ & _ & _ & _ & _ & _ & -> & _).
      reflexivity.
    + destruct (exec_not_create e c s s' (inv_entered s HI) Hc H) as [-> _].
      change (creates (Tx e c) s) with
        (match c with
         | CreateOffer t a p b => isOk (createOffer e t a p b s)
         | _ => false
         end) in Hc.
      destruct c; rewrite ?Hc; lia.
  - destruct c; try lia. cbn [exec] in H. unfold bind in H.
    destruct (createOffer e tokenAddress0 amount0 priceInBUSD0 buyer0 s)
      as [[i s1]|]; [discriminate|]. cbn. lia.
Qed.

Lemma run_count evs s :
  Inv s ->
  _offerIdCounter (run evs s)
    = _offerIdCounter s + Z.of_nat (creations evs s).
Proof.
  revert s. induction evs as [|ev evs IH]; intros s HI; cbn [run creations].
  - cbn. lia.
  - rewrite IH by now apply EscrowWithExpiryFacts.step_Inv.
    rewrite step_count by assumption.
    destruct (creates ev s); lia.
Qed.

Lemma well_formed_deactivate j o :
  well_formed j o -> well_formed j (deactivate o).
Proof. intros H. exact H. Qed.

Lemma reachable_well_formed s :
  reachable s ->
  0 <= _offerIdCounter s /\
  forall j,
    (0 <= j < _offerIdCounter s -> is_Some (_offers s !! j)) /\
    (forall o, _offers s !! j = Some o -> well_formed j o).
Proof.
  induction 1 as [deployer l|s ev Hreach IH].
  - cbn. split; [lia|]. intros j. split; [lia|].
    intros o Ho. rewrite lookup_empty in Ho. discriminate.
  - pose proof (EscrowWithExpiryFacts.reachable_Inv s Hreach) as HI.
    destruct IH as [Hnn IH].
    destruct ev as [e c|l]; cbn [step]; [|exact (conj Hnn IH)].
    unfold commit. destruct (exec e c s) as [[[] s']|] eqn:H;
      [|exact (conj Hnn IH)].
    destruct (EscrowWithExpiryFacts.exec_cases e c s s' (inv_entered s HI) H)
      as [(t & amt & p & b & i & -> & Hc)
         |[(i & l & _ & Hact & ->)|(Hcnt & Hoff & _)]].
    + pose proof (inv_expiry s HI) as Hexp. unfold ONE_MINUTE in Hexp.
      apply EscrowWithExpiryFacts.createOffer_ok in Hc; [|apply HI].
      cbv zeta in Hc.
      destruct Hc as (-> & _ & Ht & Ha & Hp & Hb & Hbs & _ & _ & Hmove & Hcnt
                      & Hoff & _).
      apply transferFrom_parties in Hmove. destruct Hmove as [Hs _].
      rewrite Hcnt, Hoff. split; [lia|]. intros j.
      rewrite lookup_insert.
      destruct (decide (_offerIdCounter s = j)) as [<-|Hne].
      * split; [eauto|]. intros o [= <-].
        repeat split; cbn; try assumption; lia.
      * split; [|apply IH]. intros Hj. apply IH. lia.
    + destruct (EscrowWithExpiryFacts.active_created i s Hact) as (o & Ho & ->).
      cbn [set_ledger set_offer _offerIdCounter _offers].
      split; [assumption|]. intros j. rewrite lookup_insert.
      destruct (decide (i = j)) as [<-|Hne].
      * split; [eauto|]. intros o' [= <-].
        apply well_formed_deactivate. now apply IH.
      * apply IH.
    + rewrite Hcnt, Hoff. exact (conj Hnn IH).
Qed.

(** X5.  The offer counter counts creations.  Over any sequence of
    transactions and token activity from a reachable state, [getOfferCount]
    grows by exactly the number of [createOffer] calls that succeeded, and by
    nothing else; a successful [createOffer] returns the count before the
    call as the new offer's identifier. *)
Theorem offer_count_counts_creations :
  forall evs s, reachable s ->
    getOfferCount (run evs s)
      = getOfferCount s + Z.of_nat (creations evs s) /\
    forall e tok amt price b i s',
      createOffer e tok amt price b s = Ok (i, s') ->
      i = getOfferCount s /\ getOfferCount s' = i + 1.
Proof.
  intros evs s Hreach.
  apply EscrowWithExpiryFacts.reachable_Inv in Hreach.
  split; [now apply run_count|].
  intros e tok amt price b i s' Hc.
  apply EscrowWithExpiryFacts.createOffer_ok in Hc; [|apply Hreach].
  cbv zeta in Hc. unfold getOfferCount. tauto.
Qed.

(** Fifty offers from deployment: the count is fifty. *)
Lemma offer_count_counts_creations_witness :
  getOfferCount
    (run (Scenario.offers_every Scenario.HOURS_23 50 Scenario.T0)
         (constructor Scenario.OWNER Scenario.funded))
  = getOfferCount (constructor Scenario.OWNER Scenario.funded)
    + Z.of_nat (creations
                  (Scenario.offers_every Scenario.HOURS_23 50 Scenario.T0)
                  (constructor Scenario.OWNER Scenario.funded)).
Proof.
  exact (proj1 (offer_count_counts_creations
                  (Scenario.offers_every Scenario.HOURS_23 50 Scenario.T0)
                  (constructor Scenario.OWNER Scenario.funded)
                  (reachable_constructor _ _))).
Defined.

(** X6.  Identifiers are dense and stored offers are well formed.  In every
    reachable state the count is not negative and every identifier from 0
    up to the count holds a record whose [id] is the identifier, with a
    non-zero token, seller and buyer, a positive amount and price, a buyer
    other than the seller and an expiry after its creation. *)
Theorem stored_offers_well_formed :
  forall s i, reachable s ->
    0 <= getOfferCount s /\
    (0 <= i < getOfferCount s ->
     _offers s !! i = Some (getOffer i s) /\ well_formed i (getOffer i s)).
Proof.
  intros s i Hreach. destruct (reachable_well_formed s Hreach) as [Hnn Hwf].
  split; [assumption|]. intros Hi. destruct (Hwf i) as [Hsome Hall].
  destruct (Hsome Hi) as [o Ho]. unfold getOffer, offerAt. rewrite Ho. cbn.
  split; [reflexivity | now apply Hall].
Qed.

Lemma stored_offers_well_formed_witness :
  well_formed 0 (getOffer 0 Scenario.accepted).
Proof.
  refine (proj2 (proj2 (stored_offers_well_formed Scenario.accepted 0
                          EscrowClaims.accepted_reachable) _)).
  vm_compute. split; [discriminate | reflexivity].
Defined.

(** *** Custody of the escrowed tokens *)

Lemma held_sum_insert tok i o (m : gmap Z Offer) :
  map_fold (fun _ o acc => held tok o + acc) 0 (<[i := o]> m)
  = map_fold (fun _ o acc => held tok o + acc) 0 m
    - from_option (held tok) 0 (m !! i) + held tok o.
Proof.
  assert (Hcomm : forall (m' : gmap Z Offer) (j1 j2 : Z) (z1 z2 : Offer) (y : Z),
            j1 <> j2 -> m' !! j1 = Some z1 -> m' !! j2 = Some z2 ->
            held tok z1 + (held tok z2 + y) = held tok z2 + (held tok z1 + y))
    by (intros; lia).
  destruct (m !! i) as [o0|] eqn:Hi; cbn.
  - rewrite <- (insert_delete_eq m i o).
    rewrite (map_fold_delete_L _ _ i o0 m (Hcomm m) Hi).
    rewrite map_fold_insert_L; [lia | apply Hcomm | apply lookup_delete_eq].
  - rewrite map_fold_insert_L; [lia | apply Hcomm | assumption].
Qed.

Lemma escrowed_set_offer tok i o s :
  escrowed tok (set_offer i o s)
    = escrowed tok s - held tok (offerAt i s) + held tok o.
Proof.
  unfold escrowed, offerAt. cbn [set_offer _offers].
  rewrite held_sum_insert. destruct (_offers s !! i); reflexivity.
Qed.

Lemma held_sum_nonneg tok (m : gmap Z Offer) :
  (forall j o, m !! j = Some o -> 0 <= amount o) ->
  0 <= map_fold (fun _ o acc => held tok o + acc) 0 m.
Proof.
  apply (map_fold_weak_ind
           (fun r (m : gmap Z Offer) =>
              (forall j o, m !! j = Some o -> 0 <= amount o) -> 0 <= r)).
  - intros _. lia.
  - intros i x m0 r Hi IH Hall.
    assert (0 <= amount x) by (apply (Hall i); apply lookup_insert_eq).
    assert (0 <= r).
    { apply IH. intros j o Hj. apply (Hall j).
      rewrite lookup_insert_ne; [assumption|]. intros ->. congruence. }
    unfold held. destruct (_ && _); lia.
Qed.

Lemma held_le_escrowed tok i o s :
  (forall j o, _offers s !! j = Some o -> 0 <= amount o) ->
  _offers s !! i = Some o -> held tok o <= escrowed tok s.
Proof.
  intros Hall Hi. unfold escrowed.
  rewrite (map_fold_delete_L _ _ i o (_offers s)); [|intros; lia|assumption].
  assert (0 <= map_fold (fun _ o acc => held tok o + acc) 0
                        (delete i (_offers s))); [|lia].
  apply held_sum_nonneg. intros j o' Hj. apply (Hall j).
  rewrite lookup_delete in Hj. destruct (decide (i = j)); [discriminate|].
  assumption.
Qed.

Lemma transfer_succeeds token caller to value l :
  caller <> 0 -> to <> 0 -> Ledger.isPaused token l = false ->
  value <= Ledger.balanceOf token caller l ->
  exists l', Ledger.transfer token caller to value l = Ok (tt, l').
Proof.
  intros Hc Ht Hp Hv.
  unfold Ledger.transfer, Ledger._transfer, Ledger._update. monad_unfold.
  apply Z.eqb_neq in Hc, Ht. rewrite Hc, Ht, Hp.
  replace (_ <? value) with false by (symmetry; apply Z.ltb_ge; lia).
  eauto.
Qed.

Lemma transfer_of_paused_token token caller to value l :
  caller <> 0 -> to <> 0 -> Ledger.isPaused token l = true ->
  Ledger.transfer token caller to value l = Err (Custom "EnforcedPause").
Proof.
  intros Hc Ht Hp.
  unfold Ledger.transfer, Ledger._transfer, Ledger._update. monad_unfold.
  apply Z.eqb_neq in Hc, Ht. now rewrite Hc, Ht, Hp.
Qed.

(** Arithmetic of the credits of a [Ledger.moves]. *)
Ltac credits :=
  unfold Ledger.credit, held in *;
  cbn [active tokenAddress amount] in *;
  repeat match goal with
  | |- context [?a =? ?b] => destruct (Z.eqb_spec a b)
  | H : context [?a =? ?b] |- _ => destruct (Z.eqb_spec a b)
  end;
  cbn [andb] in *; subst; try congruence; try lia.

Lemma admin_keeps_custody e c s s' :
  administrative c = true ->
  match c with EmergencyWithdraw _ _ _ => False | _ => True end ->
  exec e c s = Ok (tt, s') ->
  _offers s' = _offers s /\ ledger s' = ledger s.
Proof.
  intros Hadm Hno H. destruct c; try discriminate Hadm; try contradiction;
    cbn [exec] in H.
  - unfold updateExpiryTime in H. EscrowWithExpiryFacts.admin_inv H. auto.
  - unfold pause in H. EscrowWithExpiryFacts.admin_inv H. auto.
  - unfold unpause in H. EscrowWithExpiryFacts.admin_inv H. auto.
  - unfold transferOwnership in H. EscrowWithExpiryFacts.admin_inv H. auto.
  - unfold renounceOwnership in H. EscrowWithExpiryFacts.admin_inv H. auto.
Qed.

Lemma constructor_solvent engine deployer l :
  (forall tok, 0 <= Ledger.balanceOf tok engine l) ->
  solvent engine (constructor deployer l).
Proof.
  intros Hl tok. unfold escrowed. cbn [constructor _offers ledger].
  rewrite map_fold_empty. apply Hl.
Qed.

Lemma step_solvent engine ev s :
  reachable s -> solvent engine s -> ordinary engine ev s ->
  solvent engine (step ev s).
Proof.
  intros Hreach Hsolv Hord.
  pose proof (EscrowWithExpiryFacts.reachable_Inv s Hreach) as HI.
  destruct (reachable_well_formed s Hreach) as [_ Hwf].
  destruct ev as [e c|l]; cbn [step ordinary] in *.
  2:{ intros tok. change (escrowed tok (set_ledger l s)) with (escrowed tok s).
    cbn [set_ledger ledger]. specialize (Hsolv tok). specialize (Hord tok).
    lia. }
  destruct Hord as (Hthis & Hsender & Hc).
  unfold commit. destruct (exec e c s) as [[[] s']|] eqn:H; [|assumption].
  intros tok. specialize (Hsolv tok).
  destruct (administrative c) eqn:Hadm.
  { apply admin_keeps_custody in H; [|assumption|assumption].
    destruct H as [Hoff Hl]. unfold escrowed. now rewrite Hoff, Hl. }
  destruct c; try discriminate Hadm; cbn [exec] in H.
  - unfold bind, ret in H.
    destruct (createOffer e tokenAddress0 amount0 priceInBUSD0 buyer0 s)
      as [[i s1]|] eqn:Hcr; [|discriminate].
    injection H as <-.
    apply EscrowWithExpiryFacts.createOffer_ok in Hcr; [|apply HI].
    cbv zeta in Hcr.
    destruct Hcr as (-> & _ & _ & Ha & _ & _ & _ & _ & _ & Hmove & _ & Hoff
                     & _).
    apply LedgerFacts.transferFrom_moves in Hmove.
    destruct Hmove as [_ Hbal]. rewrite Hbal.
    unfold escrowed. rewrite Hoff, held_sum_insert.
    fold (escrowed tok s).
    assert (Hnone : _offers s !! _offerIdCounter s = None).
    { destruct (_offers s !! _offerIdCounter s) as [o|] eqn:Ho; [|reflexivity].
      destruct (inv_offers s HI _ o Ho). lia. }
    rewrite Hnone. cbn [from_option]. subst engine.
    cbn [active tokenAddress amount]. credits.
  - apply EscrowWithExpiryFacts.acceptOffer_ok in H; [|apply HI].
    cbv zeta in H.
    destruct H as (_ & Hact & Hb & _ & _ & l1 & Hpay & Hdel & ->).
    destruct (EscrowWithExpiryFacts.active_created _ s Hact) as (o & Ho & Heq).
    rewrite Heq in *. destruct (proj2 (Hwf offerId) o Ho)
      as (_ & _ & _ & Hamt & Hprice & _).
    apply LedgerFacts.transferFrom_moves in Hpay. destruct Hpay as [_ Hpay].
    apply LedgerFacts.transfer_moves in Hdel. destruct Hdel as [_ Hdel].
    cbn [set_ledger ledger].
    change (escrowed tok (set_ledger ?l ?x)) with (escrowed tok x).
    rewrite escrowed_set_offer, Heq, Hdel, Hpay. subst engine.
    rewrite <- Hb in *.
    assert (held tok (deactivate o) = 0) by reflexivity.
    unfold held in *. rewrite Hact in *. credits.
  - apply EscrowWithExpiryFacts.cancelOffer_ok in H; [|apply HI].
    cbv zeta in H. destruct H as (_ & Hact & Hb & Hdel & ->).
    destruct (EscrowWithExpiryFacts.active_created _ s Hact) as (o & Ho & Heq).
    rewrite Heq in *. destruct (proj2 (Hwf offerId) o Ho)
      as (_ & _ & _ & Hamt & Hprice & _).
    apply LedgerFacts.transfer_moves in Hdel. destruct Hdel as [_ Hdel].
    cbn [set_ledger ledger].
    change (escrowed tok (set_ledger ?l ?x)) with (escrowed tok x).
    rewrite escrowed_set_offer, Heq, Hdel. subst engine.
    rewrite <- Hb in *.
    assert (held tok (deactivate o) = 0) by reflexivity.
    unfold held in *. rewrite Hact in *. credits.
  - apply EscrowWithExpiryFacts.reclaimExpired_ok in H; [|apply HI].
    cbv zeta in H. destruct H as (Hact & _ & Hdel & ->).
    destruct (EscrowWithExpiryFacts.active_created _ s Hact) as (o & Ho & Heq).
    rewrite Heq in *. destruct (proj2 (Hwf offerId) o Ho)
      as (_ & _ & _ & Hamt & Hprice & _).
    apply LedgerFacts.transfer_moves in Hdel. destruct Hdel as [_ Hdel].
    cbn [set_ledger ledger].
    change (escrowed tok (set_ledger ?l ?x)) with (escrowed tok x).
    rewrite escrowed_set_offer, Heq, Hdel. subst engine.
    assert (held tok (deactivate o) = 0) by reflexivity.
    unfold held in *. rewrite Hact in *. credits.
Qed.

Lemma run_solvent engine evs s :
  reachable s -> solvent engine s -> ordinary_run engine evs s ->
  solvent engine (run evs s).
Proof.
  revert s. induction evs as [|ev evs IH]; intros s Hreach Hsolv Hord;
    cbn [run ordinary_run] in *; [assumption|].
  destruct Hord as [Hev Hrest].
  apply IH; [now apply reachable_step | now apply step_solvent | assumption].
Qed.

Lemma funded_nonneg tok a : 0 <= Ledger.balanceOf tok a Scenario.funded.
Proof.
  unfold Ledger.balanceOf, Scenario.funded. cbn [Ledger.balances].
  rewrite lookup_insert.
  destruct (decide _); [cbn; lia|]. rewrite lookup_insert.
  destruct (decide _); [cbn; lia|]. rewrite lookup_empty. cbn. lia.
Qed.

Lemma offered_solvent : solvent Scenario.ENGINE (Scenario.offered Scenario.funded).
Proof.
  apply step_solvent.
  - apply reachable_constructor.
  - apply constructor_solvent. intros tok. apply funded_nonneg.
  - cbn. repeat split; discriminate.
Qed.

(** X7.  The engine stays solvent.  Call an engine solvent when, for every
    token, it holds at least the sum of the amounts of its active offers in
    that token.  A freshly deployed engine is solvent, and solvency survives
    every sequence of transactions sent to the engine by other accounts,
    successful or reverted, and of token activity that takes nothing from
    the engine, as long as the owner's [emergencyWithdraw] is not among
    them. *)
Theorem engine_stays_solvent :
  forall engine evs s,
    reachable s -> solvent engine s -> ordinary_run engine evs s ->
    solvent engine (run evs s) /\
    forall deployer l,
      (forall tok, 0 <= Ledger.balanceOf tok engine l) ->
      solvent engine (constructor deployer l).
Proof.
  intros engine evs s Hreach Hsolv Hord. split.
  - now apply run_solvent.
  - intros deployer l. apply constructor_solvent.
Qed.

(** The seller's offer followed by the buyer's accept. *)
Lemma engine_stays_solvent_witness :
  solvent Scenario.ENGINE
    (run [Tx (Scenario.by_seller Scenario.T0)
             (CreateOffer Scenario.SWAT 1000 3000 Scenario.BUYER);
          Tx (Scenario.by_buyer (Scenario.T0 + 60))
             (AcceptOffer 0 Scenario.BUSD)]
         (constructor Scenario.OWNER Scenario.funded)).
Proof.
  refine (proj1 (engine_stays_solvent Scenario.ENGINE _
                   (constructor Scenario.OWNER Scenario.funded)
                   (reachable_constructor _ _) _ _)).
  - apply constructor_solvent. intros tok. apply funded_nonneg.
  - cbn. repeat split; discriminate.
Defined.

(** X8.  Escrowed tokens can be taken back whenever their token moves.  On
    a solvent engine an active offer is stuck only while its token is: as
    long as the token of the offer is not paused, the seller's [cancelOffer]
    succeeds while the engine is not paused, and once the offer has expired
    anybody's [reclaimExpired] succeeds, the engine paused or not; either
    call returns exactly the offer's amount from the engine to the seller
    and leaves the offer inactive.  While the token is paused, as a
    SWATToken can be, both calls revert with the token's EnforcedPause and
    the offer stays active. *)
Theorem escrowed_tokens_can_be_taken_back :
  forall e i s,
    reachable s -> solvent (this e) s -> this e <> 0 ->
    active (getOffer i s) = true ->
    let o := getOffer i s in
    (Ledger.isPaused (tokenAddress o) (ledger s) = false ->
     (_paused s = false -> msg_sender e = seller o ->
      exists s',
        cancelOffer e i s = Ok (tt, s') /\
        Ledger.moves (tokenAddress o) (this e) (seller o) (amount o)
                     (ledger s) (ledger s') /\
        active (getOffer i s') = false) /\
     (expiresAt o < block_timestamp e ->
      exists s',
        reclaimExpired e i s = Ok (tt, s') /\
        Ledger.moves (tokenAddress o) (this e) (seller o) (amount o)
                     (ledger s) (ledger s') /\
        active (getOffer i s') = false)) /\
    (Ledger.isPaused (tokenAddress o) (ledger s) = true ->
     (_paused s = false -> msg_sender e = seller o ->
      cancelOffer e i s = Err (Custom "EnforcedPause")) /\
     (expiresAt o < block_timestamp e ->
      reclaimExpired e i s = Err (Custom "EnforcedPause"))).
Proof.
  intros e i s Hreach Hsolv Hthis Hact o.
  pose proof (EscrowWithExpiryFacts.reachable_Inv s Hreach) as HI.
  destruct (reachable_well_formed s Hreach) as [_ Hwf].
  unfold getOffer in *.
  destruct (EscrowWithExpiryFacts.active_created i s Hact) as (o' & Ho & Heq).
  subst o. rewrite Heq in *.
  destruct (proj2 (Hwf i) o' Ho) as (_ & _ & _ & Hamt & _ & Hseller & _).
  split.
  - intros Htok.
    assert (Hbal : amount o' <=
                   Ledger.balanceOf (tokenAddress o') (this e) (ledger s)).
    { specialize (Hsolv (tokenAddress o')).
      assert (Hheld : held (tokenAddress o') o'
                      <= escrowed (tokenAddress o') s).
      { apply (held_le_escrowed _ i); [|assumption].
        intros j oj Hj. destruct (proj2 (Hwf j) oj Hj) as (_ & _ & _ & ? & _).
        lia. }
      unfold held in Hheld. rewrite Hact, Z.eqb_refl in Hheld. cbn in Hheld.
      lia. }
    destruct (transfer_succeeds (tokenAddress o') (this e) (seller o')
                (amount o') (ledger s) Hthis Hseller Htok Hbal) as [l' Hl'].
    assert (Hoff : active (offerAt i (set_ledger l'
                                        (set_offer i (deactivate o') s)))
                   = false).
    { change (offerAt i (set_ledger ?l ?x)) with (offerAt i x).
      now rewrite EscrowWithExpiryFacts.offerAt_set_offer, Z.eqb_refl. }
    split.
    + intros Hp Hs. eexists. split; [|split; [|exact Hoff]].
      * rewrite EscrowWithExpiryFacts.cancelOffer_flat by apply HI.
        cbv zeta. rewrite Heq, Hp, Hact, Hs, Z.eqb_refl, Hl'. reflexivity.
      * cbn [set_ledger ledger].
        now apply LedgerFacts.transfer_moves in Hl'.
    + intros Hexp. eexists. split; [|split; [|exact Hoff]].
      * rewrite EscrowWithExpiryFacts.reclaimExpired_flat by apply HI.
        cbv zeta. rewrite Heq, Hact.
        replace (_ <? block_timestamp e) with true
          by (symmetry; now apply Z.ltb_lt).
        rewrite Hl'. reflexivity.
      * cbn [set_ledger ledger].
        now apply LedgerFacts.transfer_moves in Hl'.
  - intros Htok.
    pose proof (transfer_of_paused_token (tokenAddress o') (this e)
                  (seller o') (amount o') (ledger s) Hthis Hseller Htok)
      as Hl'.
    split.
    + intros Hp Hs.
      rewrite EscrowWithExpiryFacts.cancelOffer_flat by apply HI.
      cbv zeta. rewrite Heq, Hp, Hact, Hs, Z.eqb_refl, Hl'. reflexivity.
    + intros Hexp.
      rewrite EscrowWithExpiryFacts.reclaimExpired_flat by apply HI.
      cbv zeta. rewrite Heq, Hact.
      replace (_ <? block_timestamp e) with true
        by (symmetry; now apply Z.ltb_lt).
      rewrite Hl'. reflexivity.
Qed.

(** The seller cancels the offer five seconds after making it. *)
Lemma escrowed_tokens_can_be_taken_back_witness :
  exists s',
    cancelOffer (Scenario.by_seller (Scenario.T0 + 5)) 0
                (Scenario.offered Scenario.funded) = Ok (tt, s') /\
    Ledger.moves Scenario.SWAT Scenario.ENGINE Scenario.SELLER 1000
                 (ledger (Scenario.offered Scenario.funded)) (ledger s') /\
    active (getOffer 0 s') = false.
Proof.
  refine (proj1 (proj1 (escrowed_tokens_can_be_taken_back
                          (Scenario.by_seller (Scenario.T0 + 5)) 0
                          (Scenario.offered Scenario.funded)
                          (EscrowClaims.offered_reachable _) offered_solvent
                          _ _)
                       _)
                _ _);
    try (vm_compute; reflexivity); vm_compute; discriminate.
Defined.

(** The same cancel while the SWAT token is paused. *)
Lemma cancel_while_token_paused :
  cancelOffer (Scenario.by_seller (Scenario.T0 + 5)) 0 Scenario.frozen
    = Err (Custom "EnforcedPause").
Proof. vm_compute. reflexivity. Qed.

(** *** The owner's emergency withdrawal *)

Lemma emergencyWithdraw_flat e tok amt to s :
  emergencyWithdraw e tok amt to s =
    if negb (_owner s =? msg_sender e)
      then Err (Custom "OwnableUnauthorizedAccount")
    else if to =? 0 then Err (Revert "Invalid recipient")
    else if negb (_paused s) then Err (Revert "Only when paused")
    else
      match Ledger.transfer tok (this e) to amt (ledger s) with
      | Err err => Err err
      | Ok (_, l1) => Ok (tt, set_ledger l1 s)
      end.
Proof.
  unfold emergencyWithdraw, onlyOwner, safeTransfer, onLedger. monad_unfold.
  destruct (_owner s =? msg_sender e); cbn; [|reflexivity].
  destruct (to =? 0); cbn; [reflexivity|].
  destruct (_paused s); cbn; [|reflexivity].
  destruct (Ledger.transfer tok (this e) to amt (ledger s)) as [[[] l1]|];
    reflexivity.
Qed.

Lemma plain_emergencyWithdraw_flat e tok amt to s :
  Escrow.emergencyWithdraw e tok amt to s =
    if negb (Escrow._owner s =? msg_sender e)
      then Err (Custom "OwnableUnauthorizedAccount")
    else if to =? 0 then Err (Revert "Escrow: withdraw to zero address")
    else if negb (Escrow._paused s) then Err (Revert "Escrow: only when paused")
    else
      match Ledger.transfer tok (this e) to amt (Escrow.ledger s) with
      | Err err => Err err
      | Ok (_, l1) => Ok (tt, Escrow.set_ledger l1 s)
      end.
Proof.
  unfold Escrow.emergencyWithdraw, Escrow.onlyOwner, Escrow.safeTransfer,
    Escrow.onLedger.
  monad_unfold.
  destruct (Escrow._owner s =? msg_sender e); cbn; [|reflexivity].
  destruct (to =? 0); cbn; [reflexivity|].
  destruct (Escrow._paused s); cbn; [|reflexivity].
  destruct (Ledger.transfer tok (this e) to amt (Escrow.ledger s))
    as [[[] l1]|]; reflexivity.
Qed.

(** X9.  The emergency withdrawal.  [emergencyWithdraw] succeeds only for the
    owner, only while the engine is paused and only to a non-zero recipient;
    the owner's call on an engine that is not paused reverts.  When it
    succeeds it moves exactly [amount] of the token from the engine to the
    recipient and changes nothing else: no offer is touched, so the sum
    escrowed for the offers is what it was, and a withdrawal to another
    account of more than the engine holds beyond that sum leaves the engine
    insolvent.  In Escrow.sol the call behaves alike. *)
Theorem emergencyWithdraw_effect :
  (forall e tok amt to s,
     (_owner s = msg_sender e -> to <> 0 -> _paused s = false ->
      emergencyWithdraw e tok amt to s = Err (Revert "Only when paused")) /\
     forall s',
       emergencyWithdraw e tok amt to s = Ok (tt, s') ->
       msg_sender e = _owner s /\ _paused s = true /\ to <> 0 /\
       Ledger.moves tok (this e) to amt (ledger s) (ledger s') /\
       s' = set_ledger (ledger s') s /\
       (forall tok', escrowed tok' s' = escrowed tok' s) /\
       (to <> this e ->
        Ledger.balanceOf tok (this e) (ledger s) - amt < escrowed tok s ->
        ~ solvent (this e) s'))
  /\
  (forall e tok amt to s,
     (Escrow._owner s = msg_sender e -> to <> 0 -> Escrow._paused s = false ->
      Escrow.emergencyWithdraw e tok amt to s
        = Err (Revert "Escrow: only when paused")) /\
     forall s',
       Escrow.emergencyWithdraw e tok amt to s = Ok (tt, s') ->
       msg_sender e = Escrow._owner s /\ Escrow._paused s = true /\ to <> 0 /\
       Ledger.moves tok (this e) to amt (Escrow.ledger s) (Escrow.ledger s') /\
       s' = Escrow.set_ledger (Escrow.ledger s') s).
Proof.
  split.
  - intros e tok amt to s. split.
    + intros Hown Hto Hp. rewrite emergencyWithdraw_flat.
      apply Z.eqb_eq in Hown. apply Z.eqb_neq in Hto.
      now rewrite Hown, Hto, Hp.
    + intros s' H. rewrite emergencyWithdraw_flat in H.
      destruct (Z.eqb_spec (_owner s) (msg_sender e)) as [Hown|];
        [|discriminate]. cbn [negb] in H.
      destruct (Z.eqb_spec to 0) as [|Hto]; [discriminate|].
      destruct (_paused s) eqn:Hp; [|discriminate]. cbn [negb] in H.
      destruct (Ledger.transfer tok (this e) to amt (ledger s))
        as [[[] l1]|] eqn:Hl; [|discriminate].
      injection H as <-. apply LedgerFacts.transfer_moves in Hl.
      cbn [set_ledger ledger].
      repeat split; try assumption; try congruence; try apply Hl.
      intros Hne Hshort Hsolv. specialize (Hsolv tok).
      change (escrowed tok (set_ledger l1 s)) with (escrowed tok s) in Hsolv.
      cbn [set_ledger ledger] in Hsolv.
      destruct Hl as [_ Hbal]. rewrite Hbal in Hsolv. credits.
  - intros e tok amt to s. split.
    + intros Hown Hto Hp. rewrite plain_emergencyWithdraw_flat.
      apply Z.eqb_eq in Hown. apply Z.eqb_neq in Hto.
      now rewrite Hown, Hto, Hp.
    + intros s' H. rewrite plain_emergencyWithdraw_flat in H.
      destruct (Z.eqb_spec (Escrow._owner s) (msg_sender e)) as [Hown|];
        [|discriminate]. cbn [negb] in H.
      destruct (Z.eqb_spec to 0) as [|Hto]; [discriminate|].
      destruct (Escrow._paused s) eqn:Hp; [|discriminate]. cbn [negb] in H.
      destruct (Ledger.transfer tok (this e) to amt (Escrow.ledger s))
        as [[[] l1]|] eqn:Hl; [|discriminate].
      injection H as <-. apply LedgerFacts.transfer_moves in Hl.
      cbn [Escrow.set_ledger Escrow.ledger].
      repeat split; try assumption; try congruence; apply Hl.
Qed.

(** The owner pauses the engine that holds the seller's 1000 SWAT and
    withdraws them: the open offer is no longer covered. *)
Lemma emergencyWithdraw_effect_witness :
  ~ solvent Scenario.ENGINE Scenario.withdrawn.
Proof.
  refine (proj2 (proj2 (proj2 (proj2 (proj2 (proj2
            (proj2 (proj1 emergencyWithdraw_effect
                      (Scenario.by_owner (Scenario.T0 + 40)) Scenario.SWAT
                      1000 Scenario.OWNER Scenario.paused_offered)
                   Scenario.withdrawn _)))))) _ _).
  - vm_compute. reflexivity.
  - vm_compute. discriminate.
  - vm_compute. reflexivity.
Defined.

(** *** The platform fee of Escrow.sol *)

Lemma plain_step_fee ev s :
  Escrow.Inv s ->
  Escrow.platformFeePercent (Escrow.step ev s) = Escrow.platformFeePercent s \/
  Escrow.platformFeePercent (Escrow.step ev s) <= 500.
Proof.
  intros HI. pose proof (Escrow.inv_entered s HI) as Hent.
  destruct ev as [e c|l]; cbn [Escrow.step]; [|left; reflexivity].
  unfold commit.
  destruct (Escrow.exec e c s) as [[[] s']|] eqn:H; [|left; reflexivity].
  destruct (EscrowFacts.plain_exec_cases e c s s' Hent H)
    as [(t & amt & p & b & i & -> & Hc)|[(i & l & _ & _ & ->)|_]].
  - left. rewrite EscrowFacts.plain_createOffer_flat in Hc by assumption.
    cbv zeta in Hc.
    repeat match type of Hc with
    | (if negb ?b then _ else _) = _ =>
        destruct b eqn:?; cbn [negb] in Hc; try discriminate Hc
    | (if ?b then _ else _) = _ => destruct b eqn:?; try discriminate Hc
    | match ?x with Ok _ => _ | Err _ => _ end = _ =>
        destruct x as [[[] ?]|?] eqn:?; try discriminate Hc
    end.
    injection Hc as _ <-.
    destruct (_ + Escrow.ONE_DAY <=? block_timestamp e); reflexivity.
  - left. reflexivity.
  - destruct c; cbn [Escrow.exec] in H;
      try (unfold Escrow.pause, Escrow.unpause, Escrow.emergencyWithdraw,
             Escrow.updateFeeCollector, Escrow.transferOwnership,
             Escrow.renounceOwnership in H;
           EscrowFacts.admin_inv H; left; reflexivity).
    + unfold bind, ret in H.
      destruct (Escrow.createOffer _ _ _ _ _ _) as [[i s1]|] eqn:Hc;
        [|discriminate].
      injection H as <-.
      rewrite EscrowFacts.plain_createOffer_flat in Hc by assumption.
      cbv zeta in Hc.
      repeat match type of Hc with
      | (if negb ?b then _ else _) = _ =>
          destruct b eqn:?; cbn [negb] in Hc; try discriminate Hc
      | (if ?b then _ else _) = _ => destruct b eqn:?; try discriminate Hc
      | match ?x with Ok _ => _ | Err _ => _ end = _ =>
          destruct x as [[[] ?]|?] eqn:?; try discriminate Hc
      end.
      injection Hc as _ <-. left.
      destruct (_ + Escrow.ONE_DAY <=? block_timestamp e); reflexivity.
    + apply EscrowFacts.plain_acceptOffer_ok in H; [|assumption].
      destruct H as (_ & _ & _ & _ & l1 & _ & _ & ->). left. reflexivity.
    + apply EscrowFacts.plain_cancelOffer_ok in H; [|assumption].
      destruct H as (_ & _ & _ & _ & ->). left. reflexivity.
    + unfold Escrow.updateFee in H. EscrowFacts.admin_inv H. right.
      cbn. assumption.
Qed.

Lemma plain_reachable_fee s :
  Escrow.reachable s -> Escrow.platformFeePercent s <= 500.
Proof.
  induction 1 as [deployer l|s ev Hreach IH]; [cbn; lia|].
  destruct (plain_step_fee ev s (EscrowFacts.plain_reachable_Inv s Hreach));
    lia.
Qed.

(** X10.  The platform fee of Escrow.sol is capped and never charged.  In
    every reachable state [platformFeePercent] is at most 500 (5%), and
    [updateFee] refuses anything higher.  No trade reads it: [acceptOffer]
    does with any fee setting exactly what it does with another, so the
    seller is paid the whole price whatever the fee. *)
Theorem platform_fee_capped_and_never_charged :
  forall s, Escrow.reachable s ->
    Escrow.platformFeePercent s <= 500 /\
    (forall e fee, 500 < fee ->
       Escrow._owner s = msg_sender e ->
       Escrow.updateFee e fee s = Err (Revert "Escrow: fee too high")) /\
    (forall e i busd fee,
       Escrow.acceptOffer e i busd (Escrow.set_platformFeePercent fee s) =
         match Escrow.acceptOffer e i busd s with
         | Ok (u, s') => Ok (u, Escrow.set_platformFeePercent fee s')
         | Err err => Err err
         end).
Proof.
  intros s Hreach. split; [now apply plain_reachable_fee|].
  apply EscrowFacts.plain_reachable_Inv in Hreach.
  pose proof (Escrow.inv_entered s Hreach) as Hent. split.
  - intros e fee Hfee Hown. unfold Escrow.updateFee, Escrow.onlyOwner.
    monad_unfold. apply Z.eqb_eq in Hown. rewrite Hown.
    now replace (fee <=? 500) with false by (symmetry; apply Z.leb_gt; lia).
  - intros e i busd fee.
    rewrite !EscrowFacts.plain_acceptOffer_flat by assumption.
    cbv zeta.
    change (Escrow.offerAt i (Escrow.set_platformFeePercent fee s))
      with (Escrow.offerAt i s).
    change (Escrow.ledger (Escrow.set_platformFeePercent fee s))
      with (Escrow.ledger s).
    change (Escrow._paused (Escrow.set_platformFeePercent fee s))
      with (Escrow._paused s).
    repeat match goal with
    | |- (if ?b then _ else _) = _ => destruct b; [reflexivity|]
    | |- match ?x with Ok _ => _ | Err _ => _ end = _ =>
        destruct x as [[[] ?]|?]; [|reflexivity]
    end.
    reflexivity.
Qed.

Lemma platform_fee_capped_and_never_charged_witness :
  Escrow.platformFeePercent Scenario.plain_accepted <= 500.
Proof.
  exact (proj1 (platform_fee_capped_and_never_charged Scenario.plain_accepted
                  EscrowClaims.plain_accepted_reachable)).
Defined.

(** *** The expiry views and the two windows of an offer *)

Lemma transfer_error_custom token caller to value l err :
  Ledger.transfer token caller to value l = Err err ->
  exists name, err = Custom name.
Proof.
  unfold Ledger.transfer, Ledger._transfer, Ledger._update.
  monad_unfold. intros H.
  repeat match type of H with
  | context [if ?c then _ else _] => destruct c; try discriminate H
  end;
  injection H as <-; eauto.
Qed.

(** X18.  The accept window and the reclaim window of an active offer
    partition time, and the two views tell which one is open.  As long as
    [isExpired] is false, up to and including the second [expiresAt],
    [reclaimExpired] reverts as too early and [acceptOffer] never fails for
    expiry; once [isExpired] is true the designated buyer's [acceptOffer]
    reverts as expired and [getTimeRemaining] is 0.  [getTimeRemaining] is
    the number of seconds up to [expiresAt]; it is already 0 in the last
    second of the accept window. *)
Theorem accept_and_reclaim_windows_partition_time :
  forall e i s,
    reachable s -> active (getOffer i s) = true ->
    (isExpired e i s = false ->
     reclaimExpired e i s = Err (Revert "Offer has not expired yet") /\
     forall busd, acceptOffer e i busd s <> Err (Revert "Offer has expired")) /\
    (isExpired e i s = true ->
     getTimeRemaining e i s = 0 /\
     forall busd,
       _paused s = false -> msg_sender e = buyer (getOffer i s) -> busd <> 0 ->
       acceptOffer e i busd s = Err (Revert "Offer has expired")) /\
    (block_timestamp e <= expiresAt (getOffer i s) ->
     getTimeRemaining e i s = expiresAt (getOffer i s) - block_timestamp e /\
     isExpired e i s = false).
Proof.
  intros e i s Hreach Hact.
  apply EscrowWithExpiryFacts.reachable_Inv in Hreach.
  pose proof (inv_entered s Hreach) as Hent.
  unfold getOffer, isExpired, getTimeRemaining in *.
  split; [intros Hnot; split | split; [intros Hexp; split | intros Hle; split]].
  - rewrite EscrowWithExpiryFacts.reclaimExpired_flat by assumption.
    cbv zeta. now rewrite Hact, Hnot.
  - intros busd H.
    rewrite EscrowWithExpiryFacts.acceptOffer_flat in H by assumption.
    cbv zeta in H. apply Z.ltb_ge in Hnot.
    repeat match type of H with
    | (if negb ?c then _ else _) = _ =>
        destruct c eqn:?; cbn [negb] in H; try discriminate H
    | (if ?c then _ else _) = _ => destruct c eqn:?; try discriminate H
    | match ?x with Ok _ => _ | Err _ => _ end = _ =>
        destruct x as [[[] ?]|?] eqn:?; try discriminate H
    end;
    bool_hyps; try lia;
    repeat match goal with
    | Hl : Ledger.transferFrom _ _ _ _ _ _ = Err _ |- _ =>
        apply transferFrom_error_custom in Hl; destruct Hl as [name ->]
    | Hl : Ledger.transfer _ _ _ _ _ = Err _ |- _ =>
        apply transfer_error_custom in Hl; destruct Hl as [name ->]
    end; discriminate.
  - apply Z.ltb_lt in Hexp.
    now replace (_ <=? block_timestamp e) with true
      by (symmetry; apply Z.leb_le; lia).
  - intros busd Hp Hb Hbusd.
    rewrite EscrowWithExpiryFacts.acceptOffer_flat by assumption.
    cbv zeta. rewrite Hp, Hact, Hb, Z.eqb_refl. cbn [negb].
    apply Z.eqb_neq in Hbusd. rewrite Hbusd.
    apply Z.ltb_lt in Hexp.
    now replace (block_timestamp e <=? _) with false
      by (symmetry; apply Z.leb_gt; lia).
  - destruct (Z.leb_spec (expiresAt (offerAt i s)) (block_timestamp e)); lia.
  - apply Z.ltb_ge. assumption.
Qed.

(** The last second of the offer made at [T0]: fifteen minutes later. *)
Lemma accept_and_reclaim_windows_partition_time_witness :
  getTimeRemaining (Scenario.by_buyer (Scenario.T0 + 900)) 0
                   (Scenario.offered Scenario.funded) = 0 /\
  isExpired (Scenario.by_buyer (Scenario.T0 + 900)) 0
            (Scenario.offered Scenario.funded) = false.
Proof.
  refine (proj2 (proj2 (accept_and_reclaim_windows_partition_time
            (Scenario.by_buyer (Scenario.T0 + 900)) 0
            (Scenario.offered Scenario.funded)
            (EscrowClaims.offered_reachable _) _)) _).
  - vm_compute. reflexivity.
  - vm_compute. discriminate.
Defined.

End EscrowExtras.

(** ** The pair: shares, reserves and withdrawals *)

Module PairExtras.
Import MockPair.

Lemma burn_flat e to s :
  burn e to s =
    let t0 := token0 (store s) in
    let t1 := token1 (store s) in
    let balance0 := Ledger.balanceOf t0 (this e) (ledger s) in
    let balance1 := Ledger.balanceOf t1 (this e) (ledger s) in
    let liquidity := balanceOf (this e) s in
    let supply := totalSupply s in
    let amount0 := liquidity * balance0 / supply in
    let amount1 := liquidity * balance1 / supply in
    if negb (liquidity * balance0 <=? MAX_UINT256) then Err ARITHMETIC
    else if supply =? 0 then Err DIV_BY_ZERO
    else if negb (liquidity * balance1 <=? MAX_UINT256) then Err ARITHMETIC
    else if negb ((0 <? amount0) && (0 <? amount1))
      then Err (Revert "MockPair: INSUFFICIENT_LIQUIDITY_BURNED")
    else if this e =? 0 then Err (Custom "ERC20InvalidSender")
    else
      match Ledger.transfer t0 (this e) to amount0 (ledger s) with
      | Err err => Err err
      | Ok (_, l1) =>
          match Ledger.transfer t1 (this e) to amount1 l1 with
          | Err err => Err err
          | Ok (_, l2) =>
              let after0 := Ledger.balanceOf t0 (this e) l2 in
              let after1 := Ledger.balanceOf t1 (this e) l2 in
              if negb ((after0 <=? MAX_UINT112) && (after1 <=? MAX_UINT112))
                then Err (Revert "MockPair: OVERFLOW")
              else
                Ok ((amount0, amount1),
                    set_reserves after0 after1 (block_timestamp e mod 2 ^ 32)
                      (set_ledger l2
                         (set_totalSupply (supply - liquidity)
                            (set_shares (this e) (liquidity - liquidity) s))))
          end
      end.
Proof.
  unfold burn, _burn, _update, onLedger. monad_unfold. unfold totalSupply.
  MockPairFacts.pair_simpl. cbv zeta.
  do 5 (flat_step; MockPairFacts.pair_simpl).
  rewrite Z.ltb_irrefl. MockPairFacts.pair_simpl.
  repeat (flat_step; MockPairFacts.pair_simpl).
Qed.

(** X11.  The square root.  For every 256-bit [y], [sqrt] returns the
    integer square root of [y], the largest [r] with [r * r <= y], and its
    loop ends within the gas of a call. *)
Theorem sqrt_is_floor_root :
  forall (S : Type) (s : S) (y : Z),
    0 <= y <= MAX_UINT256 ->
    exists r, sqrt y s = Ok (r, s) /\ 0 <= r /\ r * r <= y < (r + 1) * (r + 1).
Proof.
  intros S s y Hy. exists (Z.sqrt y).
  rewrite MockPairFacts.sqrt_correct by assumption.
  split; [reflexivity|]. split; [apply Z.sqrt_nonneg|].
  pose proof (Z.sqrt_spec y ltac:(lia)) as Hspec. unfold Z.succ in Hspec.
  lia.
Qed.

Lemma sqrt_is_floor_root_witness :
  exists r, sqrt 4000000000000 tt = Ok (r, tt) /\ 0 <= r /\
            r * r <= 4000000000000 < (r + 1) * (r + 1).
Proof.
  apply (sqrt_is_floor_root unit tt 4000000000000).
  split; vm_compute; discriminate.
Defined.

(** X12.  A later deposit.  On a pool that has shares and positive reserves
    a [mint] that succeeds gives the depositor
    [min (amount0 * totalSupply / reserve0, amount1 * totalSupply / reserve1)]
    shares, a positive number that is at most the depositor's pro-rata part
    on either side, so that existing shares are not diluted.  It adds the
    shares to the recipient and to the total supply and to nobody else,
    moves no token, and sets the reserves to the balances the pair holds. *)
Theorem later_deposit_mints_pro_rata :
  forall (e : Env) (to : address) (s s' : State) (liquidity : Z),
    0 < totalSupply s -> 0 <= reserve0 (store s) -> 0 <= reserve1 (store s) ->
    mint e to s = Ok (liquidity, s') ->
    let balance0 := Ledger.balanceOf (token0 (store s)) (this e) (ledger s) in
    let balance1 := Ledger.balanceOf (token1 (store s)) (this e) (ledger s) in
    let amount0 := balance0 - reserve0 (store s) in
    let amount1 := balance1 - reserve1 (store s) in
    liquidity = min (amount0 * totalSupply s / reserve0 (store s))
                    (amount1 * totalSupply s / reserve1 (store s)) /\
    0 < liquidity /\
    liquidity * reserve0 (store s) <= amount0 * totalSupply s /\
    liquidity * reserve1 (store s) <= amount1 * totalSupply s /\
    totalSupply s' = totalSupply s + liquidity /\
    (forall a, balanceOf a s' =
               balanceOf a s + (if a =? to then liquidity else 0)) /\
    ledger s' = ledger s /\
    getReserves s' = (balance0, balance1, block_timestamp e mod 2 ^ 32) /\
    balance0 <= MAX_UINT112 /\ balance1 <= MAX_UINT112.
Proof.
  intros e to s s' liquidity Hsupply Hr0 Hr1 H.
  rewrite MockPairFacts.mint_later_flat in H by lia. cbv zeta in H.
  repeat match type of H with
  | (if negb ?b then _ else _) = _ =>
      destruct b eqn:?; cbn [negb] in H; try discriminate H
  | (if ?b then _ else _) = _ => destruct b eqn:?; try discriminate H
  end.
  injection H as <- <-. bool_hyps. cbv zeta.
  split; [reflexivity|]. split; [assumption|].
  set (a0 := Ledger.balanceOf (token0 (store s)) (this e) (ledger s)
             - reserve0 (store s)) in *.
  set (a1 := Ledger.balanceOf (token1 (store s)) (this e) (ledger s)
             - reserve1 (store s)) in *.
  assert (Hq0 : reserve0 (store s) * (a0 * totalSupply s / reserve0 (store s))
                <= a0 * totalSupply s) by (apply Z.mul_div_le; lia).
  assert (Hq1 : reserve1 (store s) * (a1 * totalSupply s / reserve1 (store s))
                <= a1 * totalSupply s) by (apply Z.mul_div_le; lia).
  assert (Hmin0 : min (a0 * totalSupply s / reserve0 (store s))
                      (a1 * totalSupply s / reserve1 (store s))
                  <= a0 * totalSupply s / reserve0 (store s))
    by (unfold min; destruct (Z.ltb_spec (a0 * totalSupply s / reserve0 (store s))
                                (a1 * totalSupply s / reserve1 (store s))); lia).
  assert (Hmin1 : min (a0 * totalSupply s / reserve0 (store s))
                      (a1 * totalSupply s / reserve1 (store s))
                  <= a1 * totalSupply s / reserve1 (store s))
    by (unfold min; destruct (Z.ltb_spec (a0 * totalSupply s / reserve0 (store s))
                                (a1 * totalSupply s / reserve1 (store s))); lia).
  split; [nia|]. split; [nia|].
  split; [reflexivity|]. split; [|repeat split; assumption].
  intros a. rewrite MockPairFacts.balanceOf_set_reserves.
  rewrite MockPairFacts.balanceOf_set_shares.
  rewrite !MockPairFacts.balanceOf_set_totalSupply.
  destruct (Z.eqb_spec a to) as [->|]; lia.
Qed.

(** 400,000 and 100,000 units more on reserves of 4,000,000 and 1,000,000
    with 2,000,000 shares: 200,000 new shares. *)
Lemma later_deposit_mints_pro_rata_witness :
  totalSupply (commit (mint Scenario.on_pair Scenario.BUYER)
                      Scenario.seeded_pool)
    = totalSupply Scenario.seeded_pool + 200000.
Proof.
  refine (proj1 (proj2 (proj2 (proj2 (proj2
           (later_deposit_mints_pro_rata Scenario.on_pair Scenario.BUYER
              Scenario.seeded_pool _ 200000 _ _ _ _))))));
    try (vm_compute; reflexivity); vm_compute; discriminate.
Defined.

(** X13.  A withdrawal.  [burn] redeems the shares the pair itself holds.
    When it succeeds it pays, of each token, the balance of the pair times
    those shares over the total supply, rounded down, both amounts positive
    and, the shares being part of the supply, no more than the pair holds;
    it destroys exactly those shares, leaves every other holder's shares
    alone, sends the two amounts to the recipient and sets the reserves to
    the balances the pair is left with.  On a pool without shares it
    fails. *)
Theorem burn_pays_pro_rata :
  forall (e : Env) (to : address) (s : State),
    let t0 := token0 (store s) in
    let t1 := token1 (store s) in
    let balance0 := Ledger.balanceOf t0 (this e) (ledger s) in
    let balance1 := Ledger.balanceOf t1 (this e) (ledger s) in
    let liquidity := balanceOf (this e) s in
    let supply := totalSupply s in
    (supply = 0 -> exists err, burn e to s = Err err) /\
    forall amount0 amount1 s',
      burn e to s = Ok ((amount0, amount1), s') ->
      amount0 = liquidity * balance0 / supply /\
      amount1 = liquidity * balance1 / supply /\
      0 < amount0 /\ 0 < amount1 /\
      (0 <= liquidity <= supply -> 0 <= balance0 -> 0 <= balance1 ->
       amount0 <= balance0 /\ amount1 <= balance1) /\
      totalSupply s' = supply - liquidity /\
      (forall a, balanceOf a s' = if a =? this e then 0 else balanceOf a s) /\
      (exists l1,
         Ledger.moves t0 (this e) to amount0 (ledger s) l1 /\
         Ledger.moves t1 (this e) to amount1 l1 (ledger s')) /\
      getReserves s' =
        (Ledger.balanceOf t0 (this e) (ledger s'),
         Ledger.balanceOf t1 (this e) (ledger s'),
         block_timestamp e mod 2 ^ 32).
Proof.
  intros e to s t0 t1 balance0 balance1 liquidity supply.
  pose proof (burn_flat e to s) as Hflat. cbv zeta in Hflat.
  fold t0 t1 in Hflat. fold balance0 balance1 liquidity supply in Hflat.
  split.
  - intros Hzero. rewrite Hflat, Hzero. change (0 =? 0) with true.
    destruct (negb (liquidity * balance0 <=? MAX_UINT256)); eauto.
  - intros amount0 amount1 s' H. rewrite Hflat in H.
    repeat match type of H with
    | (if negb ?b then _ else _) = _ =>
        destruct b eqn:?; cbn [negb] in H; try discriminate H
    | (if ?b then _ else _) = _ => destruct b eqn:?; try discriminate H
    | match ?x with Ok _ => _ | Err _ => _ end = _ =>
        destruct x as [[[] ?]|?] eqn:?; try discriminate H
    end.
    injection H as <- <- <-. bool_hyps.
    split; [reflexivity|]. split; [reflexivity|].
    split; [assumption|]. split; [assumption|].
    split.
    { intros Hl Hb0 Hb1.
      assert (0 < supply) by lia.
      split; apply Z.div_le_upper_bound; nia. }
    split; [reflexivity|]. split.
    { intros a. rewrite MockPairFacts.balanceOf_set_reserves.
      change (balanceOf a (set_ledger ?l ?x)) with (balanceOf a x).
      rewrite MockPairFacts.balanceOf_set_totalSupply.
      rewrite MockPairFacts.balanceOf_set_shares.
      destruct (a =? this e); [lia | reflexivity]. }
    split; [|reflexivity].
    eexists. split; eapply LedgerFacts.transfer_moves; eassumption.
Qed.

(** The pool redeems the 200,000 shares it holds of 2,200,000 against
    balances of 4,400,000 and 1,100,000: 400,000 and 100,000 units. *)
Lemma burn_pays_pro_rata_witness :
  400000 = balanceOf Scenario.PAIR Scenario.returning_pool
           * Ledger.balanceOf Scenario.SWAT Scenario.PAIR Scenario.topped_up
           / totalSupply Scenario.returning_pool.
Proof.
  refine (proj1 (proj2 (burn_pays_pro_rata Scenario.on_pair Scenario.SELLER
                          Scenario.returning_pool)
                       400000 100000
                       (commit (burn Scenario.on_pair Scenario.SELLER)
                               Scenario.returning_pool) _)).
  vm_compute. reflexivity.
Defined.

End PairExtras.

(** ** The router: quotes along a path and liquidity amounts *)

Module RouterExtras.
Import MockFactory MockRouter.

Lemma getAmountOut_succeeds {S} (s : S) amountIn reserveIn reserveOut :
  0 < amountIn -> 0 < reserveIn -> 0 < reserveOut ->
  amountIn * 997 * reserveOut <= MAX_UINT256 ->
  reserveIn * 1000 + amountIn * 997 <= MAX_UINT256 ->
  getAmountOut amountIn reserveIn reserveOut s =
    Ok (amountIn * 997 * reserveOut / (reserveIn * 1000 + amountIn * 997), s).
Proof.
  intros Ha Hrin Hrout Hnum Hden.
  rewrite MockRouterFacts.getAmountOut_flat.
  replace (0 <? amountIn) with true by (symmetry; apply Z.ltb_lt; lia).
  replace (0 <? reserveIn) with true by (symmetry; apply Z.ltb_lt; lia).
  replace (0 <? reserveOut) with true by (symmetry; apply Z.ltb_lt; lia).
  replace (amountIn * 997 <=? MAX_UINT256) with true
    by (symmetry; apply Z.leb_le; nia).
  replace (amountIn * 997 * reserveOut <=? MAX_UINT256) with true
    by (symmetry; apply Z.leb_le; lia).
  replace (reserveIn * 1000 <=? MAX_UINT256) with true
    by (symmetry; apply Z.leb_le; lia).
  replace (reserveIn * 1000 + amountIn * 997 <=? MAX_UINT256) with true
    by (symmetry; apply Z.leb_le; lia).
  replace (reserveIn * 1000 + amountIn * 997 =? 0) with false
    by (symmetry; apply Z.eqb_neq; lia).
  reflexivity.
Qed.

(** X14.  Quotes grow with the input.  Where the router quotes an input, it
    quotes every smaller positive input against the same reserves as well,
    and never for more; and no quote is better than the ratio of the
    reserves less the fee of 0.3%:
    [amountOut * reserveIn * 1000 <= amountIn * 997 * reserveOut]. *)
Theorem smaller_input_smaller_quote :
  forall (S : Type) (s s' : S) (amountIn amountIn' reserveIn reserveOut out' : Z),
    0 < amountIn <= amountIn' ->
    getAmountOut amountIn' reserveIn reserveOut s = Ok (out', s') ->
    exists out,
      getAmountOut amountIn reserveIn reserveOut s = Ok (out, s) /\
      out <= out' /\
      out * reserveIn * 1000 <= amountIn * 997 * reserveOut.
Proof.
  intros S s s' a a' rin rout out' Ha H.
  apply MockRouterFacts.getAmountOut_ok in H.
  destruct H as (Ha' & Hrin & Hrout & Hnum & Hden & -> & _).
  eexists. split; [apply getAmountOut_succeeds; try lia; nia|].
  set (q := a * 997 * rout / (rin * 1000 + a * 997)).
  assert (Hd : 0 < rin * 1000 + a * 997) by lia.
  assert (Hq : (rin * 1000 + a * 997) * q <= a * 997 * rout)
    by (apply Z.mul_div_le; lia).
  assert (Hq0 : 0 <= q) by (apply Z.div_pos; nia).
  assert (Hqr : q < rout) by (apply Z.div_lt_upper_bound; nia).
  split; [|nia].
  apply Z.div_le_lower_bound; [lia|]. nia.
Qed.

Lemma smaller_input_smaller_quote_witness :
  exists out, getAmountOut 5 140 140 tt = Ok (out, tt) /\ out <= 9 /\
              out * 140 * 1000 <= 5 * 997 * 140.
Proof.
  refine (smaller_input_smaller_quote unit tt tt 5 10 140 140 9 _ _).
  - split; [reflexivity | discriminate].
  - vm_compute. reflexivity.
Defined.

(** *** Reading the reserves of a pair *)

Lemma onPair_gets {A} pair (f : MockPair.State -> A) s :
  onPair pair (gets f) s =
    match pairs s !! pair with
    | None => Err (Custom "AddressEmptyCode")
    | Some st => Ok (f (MockPair.mkState st (ledger s)), s)
    end.
Proof.
  unfold onPair, gets.
  destruct (pairs s !! pair) as [st|] eqn:Hp; [|reflexivity].
  f_equal. f_equal. destruct s as [g a ps l].
  unfold set_ledger, set_pair; cbn in *. f_equal. now apply insert_id.
Qed.

Lemma reservesOf_flat pair tokenA tokenB s :
  reservesOf pair tokenA tokenB s =
    match pairs s !! pair with
    | None => Err (Custom "AddressEmptyCode")
    | Some st =>
        Ok (if tokenA =? (if tokenA <? tokenB then tokenA else tokenB)
            then (MockPair.reserve0 st, MockPair.reserve1 st)
            else (MockPair.reserve1 st, MockPair.reserve0 st), s)
    end.
Proof.
  unfold reservesOf, bind. rewrite onPair_gets.
  destruct (pairs s !! pair); reflexivity.
Qed.

Lemma reservesOf_state pair tokenA tokenB s r s' :
  reservesOf pair tokenA tokenB s = Ok (r, s') -> s' = s.
Proof.
  rewrite reservesOf_flat. destruct (pairs s !! pair); [|discriminate].
  now intros [= _ <-].
Qed.

Lemma getAmountsOut_loop_cons tokenIn tokenOut rest amount :
  getAmountsOut_loop (tokenIn :: tokenOut :: rest) amount =
    (let* pair := gets (getPair tokenIn tokenOut) in
     require (negb (pair =? 0)) "MockRouter: PAIR_NOT_FOUND";;
     let* '(reserveIn, reserveOut) := reservesOf pair tokenIn tokenOut in
     let* out := getAmountOut amount reserveIn reserveOut in
     let* outs := getAmountsOut_loop (tokenOut :: rest) out in
     ret (out :: outs)).
Proof. reflexivity. Qed.

Lemma getAmountsOut_loop_ok path :
  forall amount s outs s',
    getAmountsOut_loop path amount s = Ok (outs, s') ->
    s' = s /\ length outs = Nat.pred (length path) /\
    forall k tokenIn tokenOut,
      path !! k = Some tokenIn -> path !! S k = Some tokenOut ->
      exists amt out reserveIn reserveOut,
        (amount :: outs) !! k = Some amt /\
        (amount :: outs) !! S k = Some out /\
        getPair tokenIn tokenOut s <> 0 /\
        reservesOf (getPair tokenIn tokenOut s) tokenIn tokenOut s
          = Ok ((reserveIn, reserveOut), s) /\
        getAmountOut amt reserveIn reserveOut s = Ok (out, s).
Proof.
  induction path as [|a rest IH]; intros amount s outs s' H.
  - injection H as <- <-. repeat split. intros k ? ? Hk. discriminate Hk.
  - destruct rest as [|b rest].
    + injection H as <- <-. repeat split.
      intros k ? ? _ Hk. destruct k; discriminate Hk.
    + rewrite getAmountsOut_loop_cons in H.
      unfold bind at 1, gets at 1 in H. unfold bind at 1, require at 1 in H.
      destruct (Z.eqb_spec (getPair a b s) 0) as [|Hpair];
        [discriminate|]. cbn [negb] in H.
      unfold bind at 1 in H.
      destruct (reservesOf (getPair a b s) a b s) as [[[rin rout] s1]|] eqn:Hres;
        [|discriminate].
      pose proof (reservesOf_state _ _ _ _ _ _ Hres) as ->.
      unfold bind at 1 in H.
      destruct (getAmountOut amount rin rout s) as [[out s2]|] eqn:Hq;
        [|discriminate].
      pose proof (MockRouterFacts.getAmountOut_ok _ _ _ _ _ _ Hq) as Hok.
      destruct Hok as (_ & _ & _ & _ & _ & _ & ->).
      unfold bind at 1 in H.
      destruct (getAmountsOut_loop (b :: rest) out s) as [[outs' s3]|] eqn:Hrec;
        [|discriminate].
      injection H as <- <-.
      destruct (IH out s outs' s3 Hrec) as (-> & Hlen & Hhop).
      split; [reflexivity|]. split; [cbn in *; lia|].
      intros k tokenIn tokenOut Hin Hout. destruct k as [|k].
      * injection Hin as <-. injection Hout as <-.
        exists amount, out, rin, rout. auto.
      * destruct (Hhop k tokenIn tokenOut Hin Hout)
          as (amt & out0 & r1 & r2 & H1 & H2 & H3).
        exists amt, out0, r1, r2. auto.
Qed.

(** X15.  Quotes along a path.  [getAmountsOut] rejects a path of fewer than
    two tokens.  When it succeeds it changes nothing, returns one amount per
    token of the path, the first being the input, and each further amount is
    the quote of the amount before it against the reserves of the pair of
    the two tokens at that place, a pair that exists. *)
Theorem getAmountsOut_chains_quotes :
  forall (amountIn : Z) (path : list address) (s : State),
    ((length path < 2)%nat ->
     getAmountsOut amountIn path s = Err (Revert "MockRouter: INVALID_PATH")) /\
    forall amounts s',
      getAmountsOut amountIn path s = Ok (amounts, s') ->
      s' = s /\ length amounts = length path /\
      amounts !! O = Some amountIn /\
      forall k tokenIn tokenOut,
        path !! k = Some tokenIn -> path !! S k = Some tokenOut ->
        exists amt out reserveIn reserveOut,
          amounts !! k = Some amt /\ amounts !! S k = Some out /\
          getPair tokenIn tokenOut s <> 0 /\
          reservesOf (getPair tokenIn tokenOut s) tokenIn tokenOut s
            = Ok ((reserveIn, reserveOut), s) /\
          getAmountOut amt reserveIn reserveOut s = Ok (out, s).
Proof.
  intros amountIn path s. unfold getAmountsOut. split.
  - intros Hshort. unfold bind, require.
    now replace (2 <=? Z.of_nat (length path)) with false
      by (symmetry; apply Z.leb_gt; lia).
  - intros amounts s' H. unfold bind at 1, require in H.
    destruct (Z.leb_spec 2 (Z.of_nat (length path))) as [Hlen|];
      [|discriminate].
    unfold bind, ret in H.
    destruct (getAmountsOut_loop path amountIn s) as [[outs s1]|] eqn:Hloop;
      [|discriminate].
    injection H as <- <-.
    destruct (getAmountsOut_loop_ok path amountIn s outs s1 Hloop)
      as (-> & Hl & Hhop).
    split; [reflexivity|]. split; [cbn; lia|]. split; [reflexivity|].
    exact Hhop.
Qed.

(** A quote of 1000 SWAT in BUSD on the market of the scenarios. *)
Lemma getAmountsOut_chains_quotes_witness :
  length (A := Z) [1000; 249] = length [Scenario.SWAT; Scenario.BUSD].
Proof.
  refine (proj1 (proj2 (proj2 (getAmountsOut_chains_quotes 1000
            [Scenario.SWAT; Scenario.BUSD] Scenario.market)
            [1000; 249] Scenario.market _))).
  vm_compute. reflexivity.
Defined.

(** *** The amounts of a deposit *)

Lemma _calculateLiquidityAmounts_flat tokenA tokenB aD bD aMin bMin s :
  _calculateLiquidityAmounts tokenA tokenB aD bD aMin bMin s =
    let pair := getPair tokenA tokenB s in
    if pair =? 0 then Ok ((aD, bD), s)
    else
      match reservesOf pair tokenA tokenB s with
      | Err err => Err err
      | Ok ((reserveA, reserveB), _) =>
          if (reserveA =? 0) && (reserveB =? 0) then Ok ((aD, bD), s)
          else if negb (aD * reserveB <=? MAX_UINT256) then Err ARITHMETIC
          else if reserveA =? 0 then Err DIV_BY_ZERO
          else if aD * reserveB / reserveA <=? bD then
            if negb (bMin <=? aD * reserveB / reserveA)
              then Err (Revert "MockRouter: INSUFFICIENT_B_AMOUNT")
            else Ok ((aD, aD * reserveB / reserveA), s)
          else if negb (bD * reserveA <=? MAX_UINT256) then Err ARITHMETIC
          else if reserveB =? 0 then Err DIV_BY_ZERO
          else if negb (bD * reserveA / reserveB <=? aD)
            then Err (Revert "MockRouter: INVALID_AMOUNT")
          else if negb (aMin <=? bD * reserveA / reserveB)
            then Err (Revert "MockRouter: INSUFFICIENT_A_AMOUNT")
          else Ok ((bD * reserveA / reserveB, bD), s)
      end.
Proof.
  unfold _calculateLiquidityAmounts. cbv zeta.
  unfold bind at 1, gets at 1.
  destruct (getPair tokenA tokenB s =? 0); [reflexivity|].
  unfold bind at 1.
  destruct (reservesOf (getPair tokenA tokenB s) tokenA tokenB s)
    as [[[rA rB] s1]|] eqn:Hres; [|reflexivity].
  apply reservesOf_state in Hres. subst s1.
  destruct ((rA =? 0) && (rB =? 0)); [reflexivity|].
  monad_unfold.
  repeat match goal with
  | |- _ = (if negb ?b then _ else _) => destruct b eqn:?; cbn
  | |- _ = (if ?b then _ else _) => destruct b eqn:?; cbn
  end; reflexivity.
Qed.

(** X16.  The amounts of a deposit.  [_calculateLiquidityAmounts] changes
    nothing.  The amounts it returns never exceed the desired ones and one
    of the two is the desired one; they respect the minimums whenever the
    minimums do not exceed the desired amounts; and on a pair with reserves
    on both sides they are in the ratio of the reserves up to the rounding
    of one division.  On a pair with a reserve on the second side only the
    call fails. *)
Theorem liquidity_amounts_within_desired :
  forall (tokenA tokenB aD bD aMin bMin : Z) (s : State),
    (forall a b s',
       _calculateLiquidityAmounts tokenA tokenB aD bD aMin bMin s
         = Ok ((a, b), s') ->
       s' = s /\
       ((a = aD /\ b <= bD) \/ (b = bD /\ a <= aD)) /\
       (aMin <= aD -> bMin <= bD -> aMin <= a /\ bMin <= b) /\
       forall reserveA reserveB,
         getPair tokenA tokenB s <> 0 ->
         reservesOf (getPair tokenA tokenB s) tokenA tokenB s
           = Ok ((reserveA, reserveB), s) ->
         0 < reserveA -> 0 < reserveB ->
         b * reserveA <= a * reserveB < (b + 1) * reserveA \/
         a * reserveB <= b * reserveA < (a + 1) * reserveB) /\
    (forall reserveB,
       getPair tokenA tokenB s <> 0 ->
       reservesOf (getPair tokenA tokenB s) tokenA tokenB s
         = Ok ((0, reserveB), s) ->
       reserveB <> 0 ->
       exists err,
         _calculateLiquidityAmounts tokenA tokenB aD bD aMin bMin s = Err err).
Proof.
  intros tokenA tokenB aD bD aMin bMin s.
  rewrite _calculateLiquidityAmounts_flat. cbv zeta. split.
  - intros a b s' H.
    destruct (Z.eqb_spec (getPair tokenA tokenB s) 0) as [Hzero|Hpair].
    { injection H as <- <- <-.
      split; [reflexivity|]. split; [lia|]. split; [lia|].
      intros rA rB Hp. contradiction. }
    destruct (reservesOf (getPair tokenA tokenB s) tokenA tokenB s)
      as [[[rA rB] s1]|] eqn:Hres; [|discriminate].
    assert (Hdiv : forall n d, 0 < d -> n / d * d <= n < (n / d + 1) * d).
    { intros n d Hd. pose proof (Z.mul_div_le n d Hd).
      pose proof (Z.mul_succ_div_gt n d Hd). lia. }
    repeat match type of H with
    | (if negb ?c then _ else _) = _ =>
        destruct c eqn:?; cbn [negb] in H; try discriminate H
    | (if ?c then _ else _) = _ => destruct c eqn:?; try discriminate H
    end;
    injection H as <- <- <-; bool_hyps.
    + split; [reflexivity|]. split; [lia|]. split; [lia|].
      intros ? ? _ [= <- <-]. lia.
    + split; [reflexivity|]. split; [lia|]. split; [lia|].
      intros ? ? _ [= <- <-] HA HB. left. apply Hdiv. assumption.
    + split; [reflexivity|]. split; [lia|]. split; [lia|].
      intros ? ? _ [= <- <-] HA HB. right. apply Hdiv. assumption.
  - intros rB Hpair Hres HB. apply Z.eqb_neq in Hpair. rewrite Hpair, Hres.
    apply Z.eqb_neq in HB. rewrite HB. cbn [Z.eqb andb].
    destruct (negb (aD * rB <=? MAX_UINT256)); eauto.
Qed.

(** A deposit of 1000 SWAT and as much BUSD into the market of the
    scenarios, whose reserves are 4 to 1: 1000 SWAT and 250 BUSD. *)
Lemma liquidity_amounts_within_desired_witness :
  (1000 = 1000 /\ 250 <= 1000) \/ (250 = 1000 /\ 1000 <= 1000).
Proof.
  refine (proj1 (proj2 (proj1 (liquidity_amounts_within_desired
            Scenario.SWAT Scenario.BUSD 1000 1000 0 0 Scenario.market)
            1000 250 Scenario.market _))).
  vm_compute. reflexivity.
Defined.

End RouterExtras.

(** ** The factory: what a created pair is *)

Module FactoryExtras.
Import MockFactory.

Lemma created_pair (create_address : nat -> address) token0 token1 s pair s' :
  token0 < token1 ->
  createPair create_address token0 token1 s = Ok (pair, s') ->
  pair = create_address (length (allPairs s)) /\
  token0 <> 0 /\
  allPairs s' = allPairs s ++ [pair] /\
  allPairsLength s' = allPairsLength s + 1 /\
  pairs s' !! pair = Some (MockPair.mkStorage token0 token1 0 0 0 ∅ 0) /\
  (forall p, p <> pair -> pairs s' !! p = pairs s !! p) /\
  ledger s' = ledger s /\
  forall a b,
    onPair pair (MockPair.initialize a b) s'
      = Err (Revert "MockPair: ALREADY_INITIALIZED").
Proof.
  intros Hlt H. rewrite MockFactoryFacts.createPair_sorted in H by assumption.
  destruct (Z.eqb_spec token0 0) as [|Hzero]; [discriminate|].
  destruct (negb (getPair token0 token1 s =? 0)); [discriminate|].
  cbv zeta in H. injection H as <- <-.
  set (pair := create_address (length (allPairs s))).
  assert (Hpair : pairs (created token0 token1 pair s) !! pair
                  = Some (MockPair.mkStorage token0 token1 0 0 0 ∅ 0)).
  { unfold created. cbn. apply lookup_insert_eq. }
  split; [reflexivity|]. split; [assumption|]. split; [reflexivity|].
  split.
  { unfold allPairsLength, created. cbn. rewrite length_app. cbn. lia. }
  split; [exact Hpair|]. split.
  { intros p Hp. unfold created. cbn.
    now rewrite !lookup_insert_ne by congruence. }
  split; [reflexivity|].
  intros a b. unfold onPair. rewrite Hpair.
  unfold MockPair.initialize. monad_unfold. cbn.
  apply Z.eqb_neq in Hzero. now rewrite Hzero.
Qed.

(** X17.  What a created pair is.  When [createPair] succeeds the two tokens
    differ and neither smaller one is zero; the new pair is deployed at the
    factory's next address, appended to [allPairs], whose length grows by
    one, and holds the two tokens in ascending order with no reserves and
    no shares.  No other pair and no token balance is touched, and the new
    pair refuses every further [initialize]. *)
Theorem created_pair_is_registered_and_initialised :
  forall (create_address : nat -> address) (tokenA tokenB : address)
         (s s' : State) (pair : address),
    createPair create_address tokenA tokenB s = Ok (pair, s') ->
    let token0 := Z.min tokenA tokenB in
    let token1 := Z.max tokenA tokenB in
    pair = create_address (length (allPairs s)) /\
    token0 < token1 /\ token0 <> 0 /\
    allPairs s' = allPairs s ++ [pair] /\
    allPairsLength s' = allPairsLength s + 1 /\
    pairs s' !! pair = Some (MockPair.mkStorage token0 token1 0 0 0 ∅ 0) /\
    (forall p, p <> pair -> pairs s' !! p = pairs s !! p) /\
    ledger s' = ledger s /\
    forall a b,
      onPair pair (MockPair.initialize a b) s'
        = Err (Revert "MockPair: ALREADY_INITIALIZED").
Proof.
  intros create_address tokenA tokenB s s' pair H token0 token1.
  destruct (Z.lt_total tokenA tokenB) as [Hlt|[Heq|Hgt]].
  - subst token0 token1. rewrite Z.min_l, Z.max_r by lia.
    destruct (created_pair create_address tokenA tokenB s pair s' Hlt H)
      as (? & ? & ? & ? & ? & ? & ? & ?).
    repeat split; assumption.
  - subst tokenB. rewrite MockFactoryFacts.createPair_identical in H.
    discriminate.
  - subst token0 token1. rewrite Z.min_r, Z.max_l by lia.
    rewrite MockFactoryFacts.createPair_comm in H.
    destruct (created_pair create_address tokenB tokenA s pair s' Hgt H)
      as (? & ? & ? & ? & ? & ? & ? & ?).
    repeat split; assumption.
Qed.

(** The first pair of a new factory, asked for as BUSD and SWAT. *)
Lemma created_pair_is_registered_and_initialised_witness :
  allPairsLength
    (commit (createPair Scenario.deploy_at Scenario.BUSD Scenario.SWAT)
            (constructor Scenario.deposited))
  = allPairsLength (constructor Scenario.deposited) + 1.
Proof.
  refine (proj1 (proj2 (proj2 (proj2 (proj2
            (created_pair_is_registered_and_initialised Scenario.deploy_at
               Scenario.BUSD Scenario.SWAT (constructor Scenario.deposited)
               _ 1000 _)))))).
  vm_compute. reflexivity.
Defined.

End FactoryExtras.

(** ** The router: the first deposit through [addLiquidity] *)

Module LiquidityExtras.
Import MockFactory MockRouter.

Section Create.

Variable create_address : nat -> address.
Hypothesis create_address_nonzero : forall n, create_address n <> 0.





End Create.



End LiquidityExtras.
